(** * House assignment dashboard (app.py): embedding and verified properties

    The program is a Streamlit script.  Every interaction re-runs [main]:
    it loads the roster workbooks of the [Data] folder into one pandas
    frame, and renders one of three pages.  Two pages call [assign_houses],
    which deals the four houses over every (Stream, Semester, Gender) group
    of the roster, and one of them offers the result for download through
    [get_excel_download].

    The embedding keeps the shape of the source.

    - A Python value held in a spreadsheet cell is a [value]: a number, a
      string, or missing (pandas' NaN and Python's [None], which pandas
      treats alike in [groupby], [isin] and [sort_values]).
    - A pandas frame is a [DataFrame]: its column labels and its rows, each
      row a finite map from column label to cell.  The loader builds its
      frame with [ignore_index=True], so the row labels are the positions
      0, 1, 2, ... (a RangeIndex) and a label is modelled by a position.
    - Frames and counter dictionaries are Python objects that are passed by
      reference and mutated in place; they live in a store ([state]) and
      the code that touches them runs in the state-and-exception monad [M].
      Functions that only read a frame take the frame's value.
    - [random.shuffle] is an oracle [shuffle]: the [n]-th call of the
      process permutes its argument with [shuffle n].  The theorems hold
      for every oracle that returns permutations.
    - Streamlit output is a list of [event]s appended to [screen]; the
      values the widgets return are the fields of a [session].
    - The file system is a [world]: what [os.path.exists], [os.listdir]
      and [pd.read_excel] would answer. *)

From Stdlib Require Import ZArith Ascii String List Permutation Sorted Lia.
From stdpp Require Import base tactics option list gmap strings sorting countable.

(** ** Python values and exceptions *)

Inductive value :=
| VNone
| VNum (z : Z)
| VStr (s : string).

Global Instance value_eq_dec : EqDecision value.
Proof. solve_decision. Defined.

Global Instance value_countable : Countable value.
Proof.
  refine (inj_countable'
    (λ v, match v with
          | VNone => inl ()
          | VNum z => inr (inl z)
          | VStr s => inr (inr s)
          end)
    (λ x, match x with
          | inl _ => VNone
          | inr (inl z) => VNum z
          | inr (inr s) => VStr s
          end) _).
  by intros [].
Defined.

(** The exceptions the modelled code can raise.  [Unallocated] is not a
    Python exception: it marks a read through a location that was never
    allocated, which no caller of this program does. *)
Inductive exn :=
| KeyError (k : value)
| TypeError
| IndexError
| ValueError
| NotADirectoryError
| StreamlitAPIException
| ReadError
| Unallocated.

Inductive outcome (A : Type) :=
| Ret (a : A)
| Raise (e : exn).
Arguments Ret {A} a.
Arguments Raise {A} e.

Global Instance outcome_ret : MRet outcome := λ A a, Ret a.
Global Instance outcome_bind : MBind outcome := λ A B f m,
  match m with
  | Ret a => f a
  | Raise e => Raise e
  end.

(** ** Python builtins used by the program *)

(** [sorted(l, key=...)] is a stable sort: an element goes before the first
    later element that is not smaller, so equal keys keep their order. *)
Fixpoint insert_sorted {A} (leb : A → A → bool) (x : A) (l : list A) : list A :=
  match l with
  | [] => [x]
  | y :: l' => if leb x y then x :: l else y :: insert_sorted leb x l'
  end.

Definition py_sorted {A} (leb : A → A → bool) (l : list A) : list A :=
  foldr (insert_sorted leb) [] l.

(** [l * n] on lists. *)
Definition list_repeat {A} (l : list A) (n : nat) : list A :=
  mjoin (replicate n l).

(** [l[i]] for a non-negative [i]. *)
Definition list_getitem {A} (l : list A) (i : nat) : outcome A :=
  match l !! i with
  | Some a => Ret a
  | None => Raise IndexError
  end.

(** [s[:n]] on strings. *)
Fixpoint str_take (n : nat) (s : string) : string :=
  match n, s with
  | S n', String c s' => String c (str_take n' s')
  | _, _ => EmptyString
  end.

(** [s.endswith(suffix)]. *)
Definition endswith (s suffix : string) : bool :=
  bool_decide (String.length suffix ≤ String.length s) &&
  String.eqb (String.substring (String.length s - String.length suffix)
                (String.length suffix) s) suffix.

(** The order pandas sorts cell values by: numbers before strings, missing
    values last. *)
Definition value_leb (a b : value) : bool :=
  match a, b with
  | VNum x, VNum y => bool_decide (x ≤ y)%Z
  | VNum _, _ => true
  | VStr _, VNum _ => false
  | VStr x, VStr y => String.leb x y
  | VStr _, VNone => true
  | VNone, VNone => true
  | VNone, _ => false
  end.

(** [sorted(l)] on cell values: Python refuses to compare a string with a
    number, with NaN or with [None]. *)
Definition is_str (v : value) : bool :=
  match v with
  | VStr _ => true
  | _ => false
  end.

Definition sorted_values (l : list value) : outcome (list value) :=
  if forallb is_str l || forallb (λ v, negb (is_str v)) l
  then Ret (py_sorted value_leb l)
  else Raise TypeError.

(** ** pandas frames *)

Abbreviation row := (gmap string value).

Record DataFrame := mkDataFrame {
  columns : list string;
  rows : list row
}.

Global Instance DataFrame_eq_dec : EqDecision DataFrame.
Proof. solve_decision. Defined.

Definition cell (r : row) (c : string) : value := default VNone (r !! c).

(** [pd.DataFrame()] *)
Definition empty_frame : DataFrame := mkDataFrame [] [].

(** [df[c]] *)
Definition getitem (df : DataFrame) (c : string) : outcome (list value) :=
  if decide (c ∈ columns df)
  then Ret (map (λ r, cell r c) (rows df))
  else Raise (KeyError (VStr c)).

(** [df[c] = v] for a scalar [v]: the column is overwritten, or appended
    when the frame has none of that label. *)
Definition setitem (df : DataFrame) (c : string) (v : value) : DataFrame :=
  {| columns := if decide (c ∈ columns df) then columns df else columns df ++ [c];
     rows := map (insert c v) (rows df) |}.

(** [df.at[idx, c] = v] for a column [c] of the frame.  On a label the
    frame lacks pandas appends a row; the program only passes labels taken
    from the index of the frame it copied, so the frame keeps its length
    ([assigned_upto]). *)
Definition at_setitem (df : DataFrame) (idx : nat) (c : string) (v : value) : DataFrame :=
  {| columns := columns df;
     rows := if decide (idx < length (rows df))
             then alter (insert c v) idx (rows df)
             else rows df ++ [{[ c := v ]}] |}.

(** [df[mask]] for a mask computed row by row. *)
Definition select (P : row → bool) (df : DataFrame) : DataFrame :=
  {| columns := columns df; rows := List.filter P (rows df) |}.

(** [df[cols]] *)
Definition first_missing (cols : list string) (df : DataFrame) : option string :=
  List.find (λ c, negb (bool_decide (c ∈ columns df))) cols.

Definition restrict (cols : list string) (r : row) : row :=
  list_to_map (map (λ c, (c, cell r c)) cols).

Definition project (cols : list string) (df : DataFrame) : outcome DataFrame :=
  match first_missing cols df with
  | Some c => Raise (KeyError (VStr c))
  | None => Ret {| columns := cols; rows := map (restrict cols) (rows df) |}
  end.

(** [df[df[c].isin(sel)]]: [isin] matches a missing cell against a missing
    value of the selection. *)
Definition isin_filter (c : string) (sel : list value) (df : DataFrame) : outcome DataFrame :=
  _ ← getitem df c;
  Ret (select (λ r, bool_decide (cell r c ∈ sel)) df).

(** [df[df[c] == v]]: a missing cell equals nothing, not even NaN. *)
Definition eq_mask (c : string) (v : value) (r : row) : bool :=
  bool_decide (cell r c = v) && negb (bool_decide (v = VNone)).

(** [df.empty] *)
Definition empty (df : DataFrame) : bool :=
  bool_decide (rows df = []) || bool_decide (columns df = []).

(** [s.unique()]: the distinct values in order of first appearance. *)
Definition unique (l : list value) : list value := remove_dups l.

(** [df.sort_values(c)]: ascending, missing values last.  pandas' default
    sort does not promise an order among equal cells; the model keeps
    theirs, and no theorem below depends on it. *)
Definition sort_values (c : string) (df : DataFrame) : DataFrame :=
  {| columns := columns df;
     rows := py_sorted (λ r1 r2, value_leb (cell r1 c) (cell r2 c)) (rows df) |}.

(** [pd.concat([a, b], ignore_index=True)]: the union of the columns in
    order of appearance, the rows of [a] then those of [b], relabelled by
    position. *)
Definition concat (a b : DataFrame) : DataFrame :=
  {| columns := columns a ++ List.filter (λ c, negb (bool_decide (c ∈ columns a))) (columns b);
     rows := rows a ++ rows b |}.

(** [df.groupby([c1, c2, c3])], iterated: the groups in the sorted order of
    their keys, each with the labels of its rows in frame order.  A row
    with a missing cell in a key column belongs to no group (pandas'
    default [dropna=True]). *)
Definition key : Type := value * value * value.

Definition row_key (c1 c2 c3 : string) (r : row) : option key :=
  match cell r c1, cell r c2, cell r c3 with
  | VNone, _, _ | _, VNone, _ | _, _, VNone => None
  | a, b, c => Some (a, b, c)
  end.

Definition key_leb (a b : key) : bool :=
  let '(a1, a2, a3) := a in
  let '(b1, b2, b3) := b in
  if bool_decide (a1 = b1)
  then if bool_decide (a2 = b2) then value_leb a3 b3 else value_leb a2 b2
  else value_leb a1 b1.

Definition group_index (c1 c2 c3 : string) (df : DataFrame) (k : key) : list nat :=
  filter (λ i, row_key c1 c2 c3 <$> rows df !! i = Some (Some k))
         (seq 0 (length (rows df))).

Definition groupby (df : DataFrame) (c1 c2 c3 : string) : outcome (list (key * list nat)) :=
  _ ← getitem df c1;
  _ ← getitem df c2;
  _ ← getitem df c3;
  let keys := py_sorted key_leb (remove_dups (omap (row_key c1 c2 c3) (rows df))) in
  Ret (map (λ k, (k, group_index c1 c2 c3 df k)) keys).

(** ** The store, the screen and the monad of the program *)

Abbreviation counters := (gmap value (gmap string nat)).

(** A workbook under construction: its sheets in order of creation, each
    a name and a grid of cells (the header line first). *)
Definition sheet : Type := list (list value).
Abbreviation workbook := (list (string * sheet)).

Inductive message :=
| FolderNotFound
| MissingRequiredColumns
| IncorrectPassword
| AccessDenied
| HouseDistributionNotFound
| NoDataAvailable.

Inductive event :=
| StPageConfig
| StTitle
| StSubheader (text : string)
| StMarkdown (text : string)
| StError (m : message)
| StWarning (m : message)
| StSidebarError (m : message)
| StSidebarWidget (label : string)
| StWidget (label : string)
| StDownloadButton (data : workbook)
| StDataframe (df : DataFrame) (styles : list string)
| StWrite (table : list (string * nat))
| StPlotlyChart (title : string) (df : DataFrame).

Definition loc := nat.

Record state := mkState {
  frames : list DataFrame;
  dicts : list counters;
  rng_calls : nat;
  screen : list event
}.

Definition M (A : Type) : Type := state → outcome A * state.

Global Instance M_ret : MRet M := λ A a s, (Ret a, s).
Global Instance M_bind : MBind M := λ A B f m s,
  match m s with
  | (Ret a, s') => f a s'
  | (Raise e, s') => (Raise e, s')
  end.

Definition raise {A} (e : exn) : M A := λ s, (Raise e, s).

Definition lift {A} (o : outcome A) : M A := λ s, (o, s).

Definition get_frame (l : loc) : M DataFrame := λ s,
  match frames s !! l with
  | Some df => (Ret df, s)
  | None => (Raise Unallocated, s)
  end.

Definition set_frame (l : loc) (df : DataFrame) : M unit := λ s,
  (Ret (), mkState (<[l := df]> (frames s)) (dicts s) (rng_calls s) (screen s)).

Definition new_frame (df : DataFrame) : M loc := λ s,
  (Ret (length (frames s)),
   mkState (frames s ++ [df]) (dicts s) (rng_calls s) (screen s)).

Definition get_dict (l : loc) : M counters := λ s,
  match dicts s !! l with
  | Some c => (Ret c, s)
  | None => (Raise Unallocated, s)
  end.

Definition set_dict (l : loc) (c : counters) : M unit := λ s,
  (Ret (), mkState (frames s) (<[l := c]> (dicts s)) (rng_calls s) (screen s)).

Definition new_dict (c : counters) : M loc := λ s,
  (Ret (length (dicts s)),
   mkState (frames s) (dicts s ++ [c]) (rng_calls s) (screen s)).

Definition emit (e : event) : M unit := λ s,
  (Ret (), mkState (frames s) (dicts s) (rng_calls s) (screen s ++ [e])).

(** [for a in l: body(a)] *)
Fixpoint for_each {A} (l : list A) (body : A → M unit) : M unit :=
  match l with
  | [] => mret ()
  | a :: l' => body a;; for_each l' body
  end.

(** [enumerate(l)] *)
Definition enumerate {A} (l : list A) : list (nat * A) := imap pair l.

(** The same loop for code that only builds a value. *)
Fixpoint fold_each {A B} (l : list A) (body : B → A → outcome B) (acc : B) : outcome B :=
  match l with
  | [] => Ret acc
  | a :: l' => acc' ← body acc a; fold_each l' body acc'
  end.

(** ** Configuration *)

Definition DATA_FOLDER : string := "Data".

Definition HOUSE_COLORS : list (string * string) :=
  [("House A", "#FF9999");
   ("House B", "#99CCFF");
   ("House C", "#99FF99");
   ("House D", "#FFCC99")].

(** [HOUSE_COLORS.keys()] *)
Definition keys {A B} (d : list (A * B)) : list A := map fst d.

(** [HOUSE_COLORS.get(k, dflt)] *)
Fixpoint dict_get (d : list (string * string)) (k : value) (dflt : string) : string :=
  match d with
  | [] => dflt
  | (k', v) :: d' => if bool_decide (k = VStr k') then v else dict_get d' k dflt
  end.

(** ** Data loading *)

Inductive fs_entry :=
| Missing
| RegularFile
| Directory (listing : list (string * outcome DataFrame)).

(** What the script finds at [DATA_FOLDER]: nothing, something that is not
    a directory, or a directory; each entry of a directory comes with what
    [pd.read_excel(path, header=2)] returns for it once the column labels
    are normalised (lines 25 to 33 of the source). *)
Record world := mkWorld { data_folder : fs_entry }.

(** [os.path.splitext(filename)[0]] for a name that ends in [.xlsx]: the
    name without its extension, unless only dots precede the last dot. *)
Fixpoint all_dots (s : string) : bool :=
  match s with
  | EmptyString => true
  | String c s' => Ascii.eqb c "."%char && all_dots s'
  end.

Definition splitext_root (filename : string) : string :=
  let stem := str_take (String.length filename - 5) filename in
  if all_dots stem then filename else stem.

Definition load_all_students_from_data_folder (w : world) : outcome DataFrame :=
  match data_folder w with
  | Directory listing =>
      fold_each listing (λ all_data '(filename, read),
        if endswith filename ".xlsx"
        then df ← read;
             let df := setitem df "Stream" (VStr (splitext_root filename)) in
             Ret (concat all_data df)
        else Ret all_data) empty_frame
  | _ => Raise NotADirectoryError
  end.

(** ** House assignment *)

Section assignment.
Variable shuffle : nat → list nat → list nat.

(** [random.shuffle(l)]: the list is permuted in place and the generator
    of the process moves on. *)
Definition random_shuffle (l : list nat) : M (list nat) := λ s,
  (Ret (shuffle (rng_calls s) l),
   mkState (frames s) (dicts s) (S (rng_calls s)) (screen s)).

(** [global_house_counts[gender][h]] read: the outer object is a plain
    dict, the inner ones are [defaultdict(int)], which store the 0 they
    answer for a missing key. *)
Definition counter_read (ghc : loc) (gender : value) (h : string) : M nat :=
  c ← get_dict ghc;
  match c !! gender with
  | None => raise (KeyError gender)
  | Some d =>
      match d !! h with
      | Some n => mret n
      | None => set_dict ghc (<[gender := <[h := 0]> d]> c);; mret 0
      end
  end.

(** [global_house_counts[gender][h] += 1] *)
Definition counter_incr (ghc : loc) (gender : value) (h : string) : M unit :=
  n ← counter_read ghc gender h;
  c ← get_dict ghc;
  match c !! gender with
  | None => raise (KeyError gender)
  | Some d => set_dict ghc (<[gender := <[h := n + 1]> d]> c)
  end.

(** [for x in l: ... f(x)] collecting the results, as [sorted] does with
    its [key] function before it compares anything. *)
Fixpoint map_each {A B} (f : A → M B) (l : list A) : M (list B) :=
  match l with
  | [] => mret []
  | a :: l' => b ← f a; bs ← map_each f l'; mret (b :: bs)
  end.

(** [sorted(HOUSE_COLORS.keys(), key=lambda h: global_house_counts[gender][h])] *)
Definition sorted_houses (ghc : loc) (gender : value) : M (list string) :=
  ks ← map_each (counter_read ghc gender) (keys HOUSE_COLORS);
  mret (map fst (py_sorted (λ a b, bool_decide (a.2 ≤ b.2))
                   (zip (keys HOUSE_COLORS) ks))).

(** [assigned_df["House"] = v] and [assigned_df.at[idx, "House"] = v] on
    the frame object at [l]. *)
Definition frame_setitem (l : loc) (c : string) (v : value) : M unit :=
  df ← get_frame l;
  set_frame l (setitem df c v).

Definition frame_at_setitem (l : loc) (idx : nat) (c : string) (v : value) : M unit :=
  df ← get_frame l;
  set_frame l (at_setitem df idx c v).

(** The body of the loop over the students of a group, lines 50 to 52. *)
Definition assign_student (assigned_df ghc : loc) (gender : value) (house_cycle : list string) (p : nat * nat) : M unit :=
  let '(i, idx) := p in
  house ← lift (list_getitem house_cycle (i mod 4));
  frame_at_setitem assigned_df idx "House" (VStr house);;
  counter_incr ghc gender house.

(** The body of the loop over the groups, lines 45 to 52. *)
Definition assign_group (assigned_df ghc : loc) (grp : key * list nat) : M unit :=
  let '((stream, sem, gender), index) := grp in
  students ← random_shuffle index;
  house_order ← sorted_houses ghc gender;
  let house_cycle := list_repeat house_order (length students / 4 + 1) in
  for_each (enumerate students) (assign_student assigned_df ghc gender house_cycle).

Definition assign_houses (df ghc : loc) : M loc :=
  d ← get_frame df;
  assigned_df ← new_frame d;
  frame_setitem assigned_df "House" VNone;;
  d ← get_frame df;
  groups ← lift (groupby d "Stream" "Semester" "Gender");
  for_each groups (assign_group assigned_df ghc);;
  mret assigned_df.

End assignment.

(** ** Excel download *)

(** The grid [df.to_excel(..., index=False)] writes: the column labels,
    then one line per row. *)
Definition frame_cells (df : DataFrame) : sheet :=
  map VStr (columns df) :: map (λ r, map (cell r) (columns df)) (rows df).

(** Writing a grid at the top left corner of a sheet that already holds
    one replaces the cells it covers and leaves the others. *)
Fixpoint overlay (new old : sheet) : sheet :=
  match new, old with
  | [], _ => old
  | _, [] => new
  | n :: new', o :: old' => (n ++ drop (length n) o) :: overlay new' old'
  end.

(** pandas' writer keeps its sheets by name: a new name creates a sheet, a
    name it already holds (in write mode) is written over. *)
Fixpoint write_cells (writer : workbook) (sheet_name : string) (cells : sheet) : workbook :=
  match writer with
  | [] => [(sheet_name, cells)]
  | (n, old) :: writer' =>
      if String.eqb n sheet_name
      then (n, overlay cells old) :: writer'
      else (n, old) :: write_cells writer' sheet_name cells
  end.

(** openpyxl refuses a sheet title that holds one of these characters. *)
Definition invalid_title_char (c : ascii) : bool :=
  existsb (Ascii.eqb c) (list_ascii_of_string "\*?:/[]").

(** The block of [with pd.ExcelWriter(output, engine="openpyxl") as
    writer]: code that returns or raises, and that leaves a workbook in
    the writer either way. *)
Definition W (A : Type) : Type := workbook → outcome A * workbook.

Global Instance W_ret : MRet W := λ A a writer, (Ret a, writer).
Global Instance W_bind : MBind W := λ A B f m writer,
  match m writer with
  | (Ret a, writer') => f a writer'
  | (Raise e, writer') => (Raise e, writer')
  end.

Definition lift_writer {A} (o : outcome A) : W A := λ writer, (o, writer).

(** [for a in l: body(a)] inside the block. *)
Fixpoint for_each_writer {A} (l : list A) (body : A → W unit) : W unit :=
  match l with
  | [] => mret ()
  | a :: l' => body a;; for_each_writer l' body
  end.

(** [df.to_excel(writer, sheet_name=sheet_name, index=False)]: a name the
    writer holds is written over; for a new name a sheet is created under
    openpyxl's default title and then given its title, and when openpyxl
    refuses the title the created sheet stays in the workbook. *)
Definition to_excel (sheet_name : string) (df : DataFrame) : W unit := λ writer,
  if bool_decide (sheet_name ∈ map fst writer)
  then (Ret (), write_cells writer sheet_name (frame_cells df))
  else if existsb invalid_title_char (list_ascii_of_string sheet_name)
       then (Raise ValueError, writer ++ [("Sheet", [])])
       else (Ret (), write_cells writer sheet_name (frame_cells df)).

Definition display_cols : list string :=
  ["Enrollment No"; "Student Name"; "Gender"; "Stream"; "Semester"; "House"].

(** The body of the inner loop, lines 63 to 68.  [stream[:25]] needs a
    string. *)
Definition export_group (df : DataFrame) (stream : value) (gender : string) : W unit :=
  _ ← lift_writer (getitem df "Stream");
  _ ← lift_writer (getitem df "Gender");
  let gender_df := select (λ r, eq_mask "Stream" stream r && eq_mask "Gender" (VStr gender) r) df in
  if empty gender_df then mret () else
  p ← lift_writer (project display_cols gender_df);
  let export_df := sort_values "House" p in
  match stream with
  | VStr stream =>
      let sheet_name := str_take 25 stream +:+ "-" +:+ str_take 5 gender in
      to_excel sheet_name export_df
  | _ => lift_writer (Raise TypeError)
  end.

(** Leaving the [with] block saves the workbook, also when the block
    raised.  openpyxl refuses to save a workbook that holds no sheet, and
    this [IndexError] then replaces the exception of the block; otherwise
    the exception of the block goes on.  A result stands for the bytes of
    the saved workbook. *)
Definition with_ExcelWriter (block : W unit) : outcome workbook :=
  match block [] with
  | (_, []) => Raise IndexError
  | (Ret _, writer) => Ret writer
  | (Raise e, _) => Raise e
  end.

Definition get_excel_download (df : DataFrame) : outcome workbook :=
  with_ExcelWriter
    (col ← lift_writer (getitem df "Stream");
     streams ← lift_writer (sorted_values (unique col));
     for_each_writer streams (λ stream,
       for_each_writer ["M"; "F"] (export_group df stream))).

(** ** Styling *)

Definition highlight_house (house : value) : string :=
  let color := dict_get HOUSE_COLORS house "#FFFFFF" in
  "background-color: " +:+ color +:+ ";".

(** ** Pages *)

(** What the widgets of one run return. *)
Record session := mkSession {
  menu : string;
  password : string;
  selected_streams : list value;
  selected_sems : list value;
  selected_gender : list value;
  selected_cols : list string;
  gender_filter : string
}.

(** [if selected: filtered = filtered[filtered[c].isin(selected)]] *)
Definition filter_if_selected (c : string) (selected : list value) (filtered : DataFrame) : outcome DataFrame :=
  match selected with
  | [] => Ret filtered
  | _ => isin_filter c selected filtered
  end.

(** Lines 96 to 102, and again 125 to 131. *)
Definition apply_filters (df : DataFrame) (ui : session) : outcome DataFrame :=
  filtered ← filter_if_selected "Stream" (selected_streams ui) df;
  filtered ← filter_if_selected "Semester" (selected_sems ui) filtered;
  filter_if_selected "Gender" (selected_gender ui) filtered.

(** [st.multiselect(label, options, default=default)] refuses a default
    that is not among the options. *)
Definition multiselect {A} `{EqDecision A} (label : string) (options default : list A) : M unit :=
  if forallb (λ d, bool_decide (d ∈ options)) default
  then emit (StSidebarWidget label)
  else raise StreamlitAPIException.

Definition view_data_page (df : loc) (ui : session) : M unit :=
  emit (StSubheader "View Student Data");;
  d ← get_frame df;
  col ← lift (getitem d "Stream");
  streams ← lift (sorted_values (unique col));
  col ← lift (getitem d "Semester");
  semesters ← lift (sorted_values (unique col));
  multiselect "Filter by Stream" streams streams;;
  multiselect "Filter by Semester" semesters semesters;;
  multiselect "Filter by Gender" ["M"; "F"] ["M"; "F"];;
  let all_columns := columns d in
  let default_cols := ["Enrollment No"; "Student Name"; "Email-ID"] in
  multiselect "Select Columns to Display" all_columns default_cols;;
  filtered ← lift (apply_filters d ui);
  shown ← lift (project (selected_cols ui) filtered);
  emit (StDataframe shown []).

Section pages.
Variable shuffle : nat → list nat → list nat.

(** [{"M": defaultdict(int), "F": defaultdict(int)}] *)
Definition fresh_counts : counters := {[ VStr "M" := ∅; VStr "F" := ∅ ]}.

(** [s.value_counts().reindex(HOUSE_COLORS.keys(), fill_value=0)] *)
Definition house_counts (df : DataFrame) : list (string * nat) :=
  map (λ h, (h, length (List.filter (λ r, bool_decide (cell r "House" = VStr h)) (rows df))))
      (keys HOUSE_COLORS).

Definition house_distribution_page (df : loc) (ui : session) : M unit :=
  emit (StSubheader "House Distribution");;
  global_house_counts ← new_dict fresh_counts;
  assigned ← assign_houses shuffle df global_house_counts;
  assigned_df ← get_frame assigned;
  data ← lift (get_excel_download assigned_df);
  emit (StDownloadButton data);;
  d ← get_frame df;
  col ← lift (getitem d "Stream");
  streams ← lift (sorted_values (unique col));
  multiselect "Filter by Stream" streams [];;
  col ← lift (getitem d "Semester");
  semesters ← lift (sorted_values (unique col));
  multiselect "Filter by Semester" semesters [];;
  multiselect "Filter by Gender" ["M"; "F"] ["M"; "F"];;
  filtered_df ← lift (apply_filters assigned_df ui);
  shown ← lift (project display_cols filtered_df);
  let shown := sort_values "House" shown in
  emit (StDataframe shown (map (λ r, highlight_house (cell r "House")) (rows shown)));;
  emit (StMarkdown "### House Stats by Gender");;
  for_each ["M"; "F"] (λ gender,
    _ ← lift (getitem assigned_df "Gender");
    let gender_df := select (eq_mask "Gender" (VStr gender)) assigned_df in
    if empty gender_df then mret () else
    emit (StMarkdown ("#### Gender: `" +:+ gender +:+ "`"));;
    _ ← lift (getitem gender_df "House");
    emit (StWrite (house_counts gender_df))).

Definition visualize_page (df : loc) (ui : session) : M unit :=
  emit (StSubheader "House Distribution Visualization");;
  d ← get_frame df;
  if negb (bool_decide ("House" ∈ columns d))
  then emit (StWarning HouseDistributionNotFound)
  else
    col ← lift (getitem d "Stream");
    stream_options ← lift (sorted_values (unique col));
    emit (StWidget "Select Stream(s)");;
    emit (StWidget "Filter by Gender");;
    viz_df ← (if negb (String.eqb (gender_filter ui) "All")
              then _ ← lift (getitem d "Gender");
                   mret (select (eq_mask "Gender" (VStr (gender_filter ui))) d)
              else mret d);
    viz_df ← lift (filter_if_selected "Stream" (selected_streams ui) viz_df);
    if empty viz_df
    then emit (StWarning NoDataAvailable)
    else
      emit (StMarkdown "### Grouped Bar: House Count per Stream");;
      emit (StPlotlyChart "House Distribution by Stream" viz_df);;
      emit (StMarkdown "### Stacked Bar: Gender within Houses");;
      emit (StPlotlyChart "Gender Breakdown per House" viz_df);;
      emit (StMarkdown "### Pie Chart: Overall House Proportion");;
      emit (StPlotlyChart "Overall House Distribution" viz_df).

(** ** Access gate *)

Definition verify_password (ui : session) : M bool :=
  let correct_password := "nfsu@123" in
  emit (StSidebarWidget "Enter Admin Password");;
  let password := password ui in
  if String.eqb password correct_password
  then mret true
  else
    (if negb (String.eqb password "")
     then emit (StSidebarError IncorrectPassword)
     else mret ());;
    mret false.

(** ** Main *)

Definition required_cols : list string :=
  ["Enrollment No"; "Stream"; "Student Name"; "Gender"; "Semester"].

(** [required_cols.issubset(df.columns)] *)
Definition issubset (cols : list string) (df : DataFrame) : bool :=
  forallb (λ c, bool_decide (c ∈ columns df)) cols.

(** [os.path.exists(DATA_FOLDER)] *)
Definition path_exists (w : world) : bool :=
  match data_folder w with
  | Missing => false
  | _ => true
  end.

Definition main (w : world) (ui : session) : M unit :=
  emit StPageConfig;;
  emit StTitle;;
  if negb (path_exists w)
  then emit (StError FolderNotFound)
  else
    loaded ← lift (load_all_students_from_data_folder w);
    df ← new_frame loaded;
    if negb (issubset required_cols loaded)
    then emit (StError MissingRequiredColumns)
    else
      emit (StSidebarWidget "Menu");;
      if String.eqb (menu ui) "House Distribution"
      then house_distribution_page df ui
      else if String.eqb (menu ui) "Visualize"
      then
        global_house_counts ← new_dict fresh_counts;
        assigned_df ← assign_houses shuffle df global_house_counts;
        visualize_page assigned_df ui
      else if String.eqb (menu ui) "View Data"
      then
        granted ← verify_password ui;
        if negb granted
        then emit (StWarning AccessDenied)
        else view_data_page df ui
      else mret ().

End pages.

(** The store a run starts from. *)
Definition initial : state := mkState [] [] 0 [].

(** * Vocabulary of the specification *)

(** The store [s0] with the frame at [la] and the counters at [ghc]
    replaced, after [n] calls of the generator. *)
Definition with_objs (s0 : state) (la : loc) (adf : DataFrame) (ghc : loc) (c : counters) (n : nat) : state :=
  mkState (<[la := adf]> (frames s0)) (<[ghc := c]> (dicts s0)) n (screen s0).

(** What a [defaultdict(int)] answers for the key [h]. *)
Definition count_of (d : gmap string nat) (h : string) : nat := default 0 (d !! h).

(** The counter of the house [h] for the gender [g]. *)
Definition counter_value (c : counters) (g : value) (h : string) : nat :=
  default 0 (c !! g ≫= λ d, d !! h).

(** A [defaultdict(int)] after a read of the key [h]. *)
Definition touch (d : gmap string nat) (h : string) : gmap string nat :=
  <[h := count_of d h]> d.

(** The order [sorted_houses] computes from the counters [d] of a gender. *)
Definition house_order (d : gmap string nat) : list string :=
  map fst (py_sorted (λ a b : string * nat, bool_decide (a.2 ≤ b.2))
             (zip (keys HOUSE_COLORS) (map (count_of d) (keys HOUSE_COLORS)))).

(** The house the [i]-th student of a group gets from the order [order]. *)
Definition dealt (order : list string) (i : nat) : string := order !!! (i mod 4).

(** How many of the first [n] students get the house [h]. *)
Definition dealt_count (order : list string) (h : string) (n : nat) : nat :=
  length (filter (λ i, dealt order i = h) (seq 0 n)).

(** The state of the two objects after the first [i] students of
    [students] were dealt their houses, starting from [adf] and [d]. *)
Definition dealt_to (order : list string) (students : list nat) (adf : DataFrame)
    (d : gmap string nat) (i : nat) (adf' : DataFrame) (d' : gmap string nat) : Prop :=
  columns adf' = columns adf ∧
  length (rows adf') = length (rows adf) ∧
  (∀ j p, j < i → students !! j = Some p →
     rows adf' !! p = insert "House" (VStr (dealt order j)) <$> rows adf !! p) ∧
  (∀ p, p ∉ take i students → rows adf' !! p = rows adf !! p) ∧
  (∀ h, count_of d' h = count_of d h + dealt_count order h i).

(** What the loop of [assign_houses] iterates over. *)
Definition group_keys (c1 c2 c3 : string) (df : DataFrame) : list key :=
  py_sorted key_leb (remove_dups (omap (row_key c1 c2 c3) (rows df))).

(** The groups handed to the loop: each index is duplicate free and within
    the frame, and two groups share no row. *)
Definition well_grouped (d0 : DataFrame) (groups : list (key * list nat)) : Prop :=
  (∀ j ky index, groups !! j = Some (ky, index) →
     NoDup index ∧ ∀ p, p ∈ index → p < length (rows d0)) ∧
  (∀ j j' ky ky' index index' p, j ≠ j' →
     groups !! j = Some (ky, index) → groups !! j' = Some (ky', index') →
     p ∈ index → p ∉ index').

(** The assigned frame [adf] and the counters [c] after the first [k]
    groups, for the input frame [d0], the counters [c0] and [n0] earlier
    calls of the generator. *)
Definition assigned_upto (shuffle : nat → list nat → list nat) (d0 : DataFrame)
    (c0 : counters) (n0 : nat) (groups : list (key * list nat)) (k : nat)
    (adf : DataFrame) (c : counters) : Prop :=
  columns adf = columns (setitem d0 "House" VNone) ∧
  length (rows adf) = length (rows d0) ∧
  (∀ j ky index, j < k → groups !! j = Some (ky, index) →
     ∃ d, ∀ i p, shuffle (n0 + j) index !! i = Some p →
       rows adf !! p = insert "House" (VStr (dealt (house_order d) i)) <$> rows d0 !! p) ∧
  (∀ p, (∀ j ky index, j < k → groups !! j = Some (ky, index) → p ∉ index) →
     rows adf !! p = insert "House" VNone <$> rows d0 !! p) ∧
  (∀ g, is_Some (c !! g) ↔ is_Some (c0 !! g)).

(** The store after [assign_houses]: the frames and counters of [s] with
    one frame added and the counters at [ghc] replaced. *)
Definition after_assign (s : state) (ghc : loc) (adf : DataFrame) (c : counters) (n : nat) : state :=
  mkState (frames s ++ [adf]) (<[ghc := c]> (dicts s)) n (screen s).

(** [P] holds of the element at position [i]. *)
Definition holds_at {A} (P : A → Prop) (l : list A) (i : nat) : Prop :=
  from_option P False (l !! i).

Global Instance holds_at_dec {A} (P : A → Prop) `{∀ x, Decision (P x)} (l : list A) i :
  Decision (holds_at P l i).
Proof. unfold holds_at. destruct (l !! i); simpl; apply _. Defined.

(** The number of rows of the group [k] that hold the house [h]. *)
Definition group_house_count (df : DataFrame) (k : key) (h : string) : nat :=
  length (filter (λ r, row_key "Stream" "Semester" "Gender" r = Some k ∧
                       cell r "House" = VStr h) (rows df)).

(** The number of rows of the group [k]. *)
Definition group_size (df : DataFrame) (k : key) : nat :=
  length (filter (λ r, row_key "Stream" "Semester" "Gender" r = Some k) (rows df)).

(** The place of a house in the palette. *)
Definition palette_index (h : string) : nat :=
  default (length HOUSE_COLORS) (fst <$> list_find (eq h) (keys HOUSE_COLORS)).

(** [h1] is visited before [h2]: it has the smaller counter, or the same
    counter and the earlier place in the palette. *)
Definition visits_before (d : gmap string nat) (h1 h2 : string) : Prop :=
  count_of d h1 < count_of d h2 ∨
  (count_of d h1 = count_of d h2 ∧ palette_index h1 < palette_index h2).


(** The store [s] with the events [es] added to the screen. *)
Definition shows (s : state) (es : list event) : state :=
  mkState (frames s) (dicts s) (rng_calls s) (screen s ++ es).

(** A computation that shows only events that satisfy [ok], whatever its
    outcome. *)
Definition emits_only (ok : event → Prop) {A} (m : M A) : Prop :=
  ∀ s o s', m s = (o, s') → ∃ es, screen s' = screen s ++ es ∧ Forall ok es.

(** The selection [sel] keeps the row [r] on the dimension [c]. *)
Definition keeps (c : string) (sel : list value) (r : row) : Prop :=
  sel = [] ∨ cell r c ∈ sel.

(** The two conditions under which [main] stops with an error message:
    there is nothing at [DATA_FOLDER], or the loaded table lacks a
    required column. *)
Definition folder_missing (w : world) : Prop := data_folder w = Missing.

Definition columns_missing (w : world) : Prop :=
  ∃ loaded, load_all_students_from_data_folder w = Ret loaded ∧
            ∃ c, c ∈ required_cols ∧ c ∉ columns loaded.

(** The store when the page of the menu starts. *)
Definition at_menu (loaded : DataFrame) : state :=
  mkState [loaded] [] 0 [StPageConfig; StTitle; StSidebarWidget "Menu"].

(** The dispatch on the menu, lines 219 to 229. *)
Definition menu_page (shuffle : nat → list nat → list nat) (ui : session) : M unit :=
  if String.eqb (menu ui) "House Distribution"
  then house_distribution_page shuffle 0 ui
  else if String.eqb (menu ui) "Visualize"
  then
    global_house_counts ← new_dict fresh_counts;
    assigned_df ← assign_houses shuffle 0 global_house_counts;
    visualize_page assigned_df ui
  else if String.eqb (menu ui) "View Data"
  then
    granted ← verify_password ui;
    if negb granted
    then emit (StWarning AccessDenied)
    else view_data_page 0 ui
  else mret ().

(** ** Vocabulary for the Excel download *)

(** The name of the worksheet of a (stream, gender) pair, line 67. *)
Definition sheet_name (stream gender : string) : string :=
  str_take 25 stream +:+ "-" +:+ str_take 5 gender.

(** The (stream, gender) pairs the two loops of [get_excel_download] go
    through, in their order. *)
Definition export_pairs (df : DataFrame) : list (value * string) :=
  flat_map (λ stream, [(stream, "M"); (stream, "F")])
    (py_sorted value_leb (unique (map (λ r, cell r "Stream") (rows df)))).

(** The rows of a pair ([gender_df]). *)
Definition exported (df : DataFrame) (p : value * string) : DataFrame :=
  select (λ r, eq_mask "Stream" p.1 r && eq_mask "Gender" (VStr p.2) r) df.

(** The pairs that have rows. *)
Definition active_pairs (df : DataFrame) : list (value * string) :=
  List.filter (λ p, negb (empty (exported df p))) (export_pairs df).

(** The worksheet written for a pair: its name and its cells. *)
Definition export_sheet (df : DataFrame) (p : value * string) : string * sheet :=
  (match p.1 with
   | VStr stream => sheet_name stream p.2
   | _ => ""
   end,
   frame_cells (sort_values "House"
     {| columns := display_cols;
        rows := map (restrict display_cols) (rows (exported df p)) |})).

Definition sheet_names (df : DataFrame) : list string :=
  map (λ p, (export_sheet df p).1) (active_pairs df).

(** Modelled from the spec: re-reading the produced workbook.  The source
    has no reader for the workbook it writes; the spec's round trip reads
    every worksheet back, its first line as the column labels, and puts
    the rows of all worksheets together. *)
Definition read_sheet (sh : sheet) : list row :=
  match sh with
  | [] => []
  | header :: data =>
      let labels := omap (λ v, match v with VStr c => Some c | _ => None end) header in
      map (λ cells, list_to_map (zip labels cells)) data
  end.

Definition read_workbook (wb : workbook) : list row :=
  flat_map (λ sh, read_sheet sh.2) wb.

(** The (enrollment identifier, house) pairs of a list of rows. *)
Definition enrollment_houses (rs : list row) : list (value * value) :=
  map (λ r, (cell r "Enrollment No", cell r "House")) rs.

(** The rows the download is about: those of the two genders it loops
    over. *)
Definition has_export_gender (r : row) : Prop :=
  cell r "Gender" = VStr "M" ∨ cell r "Gender" = VStr "F".

(** The pair of the loops a row is written under, if any. *)
Definition export_key (r : row) : option (value * string) :=
  match cell r "Stream", cell r "Gender" with
  | VNone, _ => None
  | stream, VStr gender => Some (stream, gender)
  | _, _ => None
  end.

(** ** Two folders to run the program on *)

Definition student (enrollment name gender : string) (semester : Z) : row :=
  {[ "Enrollment No" := VStr enrollment; "Student Name" := VStr name;
     "Gender" := VStr gender; "Semester" := VNum semester ]}.

Definition roster_columns : list string :=
  ["Enrollment No"; "Student Name"; "Gender"; "Semester"].

(** One workbook, seven students of one semester; the gender cell of the
    third is blank. *)
Definition physics_world : world :=
  mkWorld (Directory
    [("Physics.xlsx",
      Ret (mkDataFrame roster_columns
        [student "E1" "Asha" "M" 1; student "E2" "Bina" "F" 1;
         <["Gender" := VNone]> (student "E3" "Chitra" "" 1);
         student "E4" "Dev" "M" 1; student "E5" "Eshan" "M" 1;
         student "E6" "Farid" "M" 1; student "E7" "Gopal" "M" 1]))]).

Definition physics : DataFrame :=
  match load_all_students_from_data_folder physics_world with
  | Ret df => df
  | Raise _ => empty_frame
  end.

(** The store when [house_distribution_page] calls [assign_houses]: the
    loaded table at 0 and fresh counters at 0. *)
Definition physics_store : state := mkState [physics] [fresh_counts] 0 [].

(** A generator that reverses. *)
Definition reversing (n : nat) (l : list nat) : list nat := reverse l.

Definition physics_assigned_store : state :=
  (assign_houses reversing 0 0 physics_store).2.

Definition physics_assigned : DataFrame :=
  default empty_frame (frames physics_assigned_store !! 1).

(** Two workbooks whose names agree on their first 25 characters, one
    student each. *)
Definition twin_world : world :=
  mkWorld (Directory
    [("M.Tech Artificial Intelligence (Cyber).xlsx",
      Ret (mkDataFrame roster_columns [student "E1" "Asha" "M" 1]));
     ("M.Tech Artificial Intelligence (Data).xlsx",
      Ret (mkDataFrame roster_columns [student "E2" "Dev" "M" 1]))]).

Definition twin : DataFrame :=
  match load_all_students_from_data_folder twin_world with
  | Ret df => df
  | Raise _ => empty_frame
  end.

Definition twin_assigned : DataFrame :=
  default empty_frame
    (frames (assign_houses reversing 0 0 (mkState [twin] [fresh_counts] 0 [])).2 !! 1).

(** ** Vocabulary for the counters and the pages *)

(** The number of rows of the gender [g] that hold the house [h]. *)
Definition gender_house_count (df : DataFrame) (g : value) (h : string) : nat :=
  length (filter (λ r, cell r "Gender" = g ∧ cell r "House" = VStr h) (rows df)).

(** The counters [c] are the counters [c0] plus the houses of the table
    [adf], gender by gender. *)
Definition counts_rows (c0 c : counters) (adf : DataFrame) : Prop :=
  ∀ g h, counter_value c g h = counter_value c0 g h + gender_house_count adf g h.

(** For no gender is a house ahead of another by more than one. *)
Definition balanced (c : counters) : Prop :=
  ∀ g h1 h2, h1 ∈ keys HOUSE_COLORS → h2 ∈ keys HOUSE_COLORS →
    counter_value c g h1 ≤ counter_value c g h2 + 1.

(** ** More stores and folders to run the program on *)

(** The store when a page calls [assign_houses] on the table of the two
    workbooks of [twin_world]. *)
Definition twin_store : state := mkState [twin] [fresh_counts] 0 [].

Definition twin_assigned_store : state :=
  (assign_houses reversing 0 0 twin_store).2.

(** One workbook whose gender cells spell the genders out. *)
Definition spelled_world : world :=
  mkWorld (Directory
    [("Chemistry.xlsx",
      Ret (mkDataFrame roster_columns
        [student "E1" "Asha" "Male" 1; student "E2" "Bina" "Female" 1]))]).

Definition spelled : DataFrame :=
  match load_all_students_from_data_folder spelled_world with
  | Ret df => df
  | Raise _ => empty_frame
  end.

Definition spelled_store : state := mkState [spelled] [fresh_counts] 0 [].

(** The rows a folder entry adds to the loaded table: those of its
    workbook, each with the name of the workbook in its Stream cell, and
    none for an entry that is not an [.xlsx] file. *)
Definition workbook_rows (e : string * outcome DataFrame) : list row :=
  if endswith e.1 ".xlsx"
  then match e.2 with
       | Ret df => rows (setitem df "Stream" (VStr (splitext_root e.1)))
       | Raise _ => []
       end
  else [].

(** The entries of the folder of a world. *)
Definition folder_listing (w : world) : list (string * outcome DataFrame) :=
  match data_folder w with
  | Directory listing => listing
  | _ => []
  end.

(** One workbook that also has the column of the e-mail addresses. *)
Definition maths_world : world :=
  mkWorld (Directory
    [("Maths.xlsx",
      Ret (mkDataFrame (roster_columns ++ ["Email-ID"])
        [<["Email-ID" := VStr "asha@example.org"]> (student "E1" "Asha" "F" 1);
         <["Email-ID" := VStr "dev@example.org"]> (student "E2" "Dev" "M" 3)]))]).

Definition maths : DataFrame :=
  match load_all_students_from_data_folder maths_world with
  | Ret df => df
  | Raise _ => empty_frame
  end.

(** The widgets of a run on the house distribution page that selects the
    male students, and the store the page leaves on the Physics table. *)
Definition male_houses : session :=
  mkSession "House Distribution" "" [] [] [VStr "M"] [] "All".

Definition physics_page_store : state :=
  (house_distribution_page reversing 0 male_houses (mkState [physics] [] 0 [])).2.

(** The store when the loop of [assign_houses] over the groups starts:
    the copy of the table [d0], with its House column of missing cells,
    is the new last frame. *)
Definition assign_start (s : state) (d0 : DataFrame) : state :=
  mkState (frames s ++ [setitem d0 "House" VNone]) (dicts s) (rng_calls s) (screen s).

(** * Reasoning about the monad *)

Lemma bind_run {A B} (m : M A) (f : A → M B) s :
  (m ≫= f) s = match m s with
               | (Ret a, s') => f a s'
               | (Raise e, s') => (Raise e, s')
               end.
Proof. reflexivity. Qed.

Lemma bind_Ret_inv {A B} (m : M A) (f : A → M B) s b s' :
  (m ≫= f) s = (Ret b, s') →
  ∃ a s1, m s = (Ret a, s1) ∧ f a s1 = (Ret b, s').
Proof.
  rewrite bind_run. destruct (m s) as [[a|e] s1]; [eauto | discriminate].
Qed.

Lemma bind_inv {A B} (m : M A) (f : A → M B) s o s' :
  (m ≫= f) s = (o, s') →
  (∃ a s1, m s = (Ret a, s1) ∧ f a s1 = (o, s')) ∨
  (∃ e, m s = (Raise e, s') ∧ o = Raise e).
Proof.
  rewrite bind_run. destruct (m s) as [[a|e] s1]; [eauto | ].
  intros [= <- <-]. eauto.
Qed.

(** A property of the store that every run of the body keeps, whatever
    the outcome, is kept by the loop. *)
Lemma for_each_preserves {A} (P : state → Prop) (l : list A) (body : A → M unit) :
  (∀ a s o s', a ∈ l → P s → body a s = (o, s') → P s') →
  ∀ s o s', P s → for_each l body s = (o, s') → P s'.
Proof.
  induction l as [|a l IH]; intros Hbody s o s' HP Hrun.
  - injection Hrun as <- <-. done.
  - simpl in Hrun. apply bind_inv in Hrun as [(u & s1 & H1 & H2) | (e & H1 & ->)].
    + eapply IH; [ | | exact H2].
      * intros; eapply Hbody; [by right | done..].
      * eapply Hbody; [by left | done..].
    + eapply Hbody; [by left | done..].
Qed.

(** The loop returns when every iteration does, and an invariant indexed
    by the number of iterations done goes through. *)
Lemma for_each_returns {A} (I : nat → state → Prop) (l : list A) (body : A → M unit) s :
  I 0 s →
  (∀ i a s1, l !! i = Some a → I i s1 →
     ∃ s2, body a s1 = (Ret (), s2) ∧ I (S i) s2) →
  ∃ s', for_each l body s = (Ret (), s') ∧ I (length l) s'.
Proof.
  revert I s. induction l as [|a l IH]; intros I s H0 Hstep.
  - exists s. done.
  - destruct (Hstep 0 a s eq_refl H0) as (s1 & Hb & H1).
    destruct (IH (λ i, I (S i)) s1 H1) as (s' & Hl & HI).
    { intros i b s2 Hi. apply (Hstep (S i)). done. }
    exists s'. split; [ | done].
    simpl. rewrite bind_run, Hb. done.
Qed.

(** When the loop returned, every iteration returned. *)
Lemma for_each_returned {A} (I : nat → state → Prop) (l : list A) (body : A → M unit) s s' :
  for_each l body s = (Ret (), s') →
  I 0 s →
  (∀ i a s1 s2, l !! i = Some a → I i s1 → body a s1 = (Ret (), s2) → I (S i) s2) →
  I (length l) s'.
Proof.
  revert I s. induction l as [|a l IH]; intros I s Hrun H0 Hstep.
  - injection Hrun as <-. done.
  - simpl in Hrun. apply bind_Ret_inv in Hrun as (u & s1 & H1 & H2).
    destruct u.
    apply (IH (λ i, I (S i)) s1 H2).
    + by apply (Hstep 0 a s).
    + intros i b s2 s3 Hi. by apply (Hstep (S i)).
Qed.

Lemma enumerate_lookup {A} (l : list A) i p :
  enumerate l !! i = Some p ↔ ∃ a, p = (i, a) ∧ l !! i = Some a.
Proof.
  unfold enumerate. rewrite list_lookup_imap.
  destruct (l !! i) as [a|]; simpl; split.
  - intros [= <-]. eauto.
  - intros (b & -> & [= ->]). done.
  - done.
  - intros (b & _ & ?). done.
Qed.

Lemma enumerate_length {A} (l : list A) : length (enumerate l) = length l.
Proof. apply length_imap. Qed.

(** * The two objects [assign_houses] works on *)

Lemma with_objs_id s la adf ghc c :
  frames s !! la = Some adf → dicts s !! ghc = Some c →
  with_objs s la adf ghc c (rng_calls s) = s.
Proof.
  intros Hf Hd. unfold with_objs. rewrite !list_insert_id by done. by destruct s.
Qed.

Section object_operations.
Context (s0 : state) (la ghc : loc).
Hypothesis Hla : la < length (frames s0).
Hypothesis Hghc : ghc < length (dicts s0).

Lemma get_frame_with_objs adf c n :
  get_frame la (with_objs s0 la adf ghc c n) = (Ret adf, with_objs s0 la adf ghc c n).
Proof.
  unfold get_frame. cbn [frames with_objs]. by rewrite list_lookup_insert_eq.
Qed.

Lemma get_dict_with_objs adf c n :
  get_dict ghc (with_objs s0 la adf ghc c n) = (Ret c, with_objs s0 la adf ghc c n).
Proof.
  unfold get_dict. cbn [dicts with_objs]. by rewrite list_lookup_insert_eq.
Qed.

Lemma set_frame_with_objs adf adf' c n :
  set_frame la adf' (with_objs s0 la adf ghc c n) = (Ret (), with_objs s0 la adf' ghc c n).
Proof.
  unfold set_frame, with_objs. cbn [frames dicts rng_calls screen].
  by rewrite list_insert_insert_eq.
Qed.

Lemma set_dict_with_objs adf c c' n :
  set_dict ghc c' (with_objs s0 la adf ghc c n) = (Ret (), with_objs s0 la adf ghc c' n).
Proof.
  unfold set_dict, with_objs. cbn [frames dicts rng_calls screen].
  by rewrite list_insert_insert_eq.
Qed.

Lemma frame_at_setitem_with_objs adf c n idx col v :
  frame_at_setitem la idx col v (with_objs s0 la adf ghc c n)
  = (Ret (), with_objs s0 la (at_setitem adf idx col v) ghc c n).
Proof.
  unfold frame_at_setitem. rewrite bind_run, get_frame_with_objs.
  apply set_frame_with_objs.
Qed.

Lemma counter_read_with_objs adf c n g d h :
  c !! g = Some d →
  counter_read ghc g h (with_objs s0 la adf ghc c n)
  = (Ret (count_of d h),
     with_objs s0 la adf ghc (<[g := <[h := count_of d h]> d]> c) n).
Proof.
  intros Hg. unfold counter_read. rewrite bind_run, get_dict_with_objs.
  cbv beta iota. rewrite Hg. unfold count_of.
  destruct (d !! h) as [m|] eqn:Hh; simpl.
  - rewrite (insert_id d h m Hh), (insert_id c g d Hg). done.
  - rewrite bind_run, set_dict_with_objs. done.
Qed.

Lemma counter_read_KeyError adf c n g h :
  c !! g = None →
  counter_read ghc g h (with_objs s0 la adf ghc c n)
  = (Raise (KeyError g), with_objs s0 la adf ghc c n).
Proof.
  intros Hg. unfold counter_read. rewrite bind_run, get_dict_with_objs.
  cbv beta iota. by rewrite Hg.
Qed.

Lemma counter_incr_with_objs adf c n g d h :
  c !! g = Some d →
  counter_incr ghc g h (with_objs s0 la adf ghc c n)
  = (Ret (), with_objs s0 la adf ghc (<[g := <[h := count_of d h + 1]> d]> c) n).
Proof.
  intros Hg. unfold counter_incr.
  rewrite bind_run, (counter_read_with_objs _ _ _ _ d) by done. cbv beta iota.
  rewrite bind_run, get_dict_with_objs. cbv beta iota.
  rewrite lookup_insert_eq, set_dict_with_objs.
  by rewrite !insert_insert_eq.
Qed.

End object_operations.

(** * Sorting *)

Lemma insert_sorted_Permutation {A} (leb : A → A → bool) x l :
  insert_sorted leb x l ≡ₚ x :: l.
Proof.
  induction l as [|y l IH]; simpl; [done|].
  destruct (leb x y); [done|]. rewrite IH. apply Permutation_swap.
Qed.

Lemma py_sorted_Permutation {A} (leb : A → A → bool) l : py_sorted leb l ≡ₚ l.
Proof.
  induction l as [|x l IH]; simpl; [done|].
  unfold py_sorted in *. simpl. rewrite insert_sorted_Permutation. by f_equiv.
Qed.

(** * Reading the counters *)

Lemma count_of_touch d h' h : count_of (touch d h') h = count_of d h.
Proof.
  unfold touch, count_of. destruct (decide (h' = h)) as [->|Hne].
  - by rewrite lookup_insert_eq.
  - by rewrite lookup_insert_ne.
Qed.

Lemma count_of_foldl_touch hs d h : count_of (foldl touch d hs) h = count_of d h.
Proof.
  revert d. induction hs as [|h' hs IH]; intros d; simpl; [done|].
  by rewrite IH, count_of_touch.
Qed.

Section counter_reads.
Context (shuffle : nat → list nat → list nat).
Context (s0 : state) (la ghc : loc).
Hypothesis Hla : la < length (frames s0).
Hypothesis Hghc : ghc < length (dicts s0).

Lemma random_shuffle_with_objs adf c n l :
  random_shuffle shuffle l (with_objs s0 la adf ghc c n)
  = (Ret (shuffle n l), with_objs s0 la adf ghc c (S n)).
Proof. reflexivity. Qed.

Lemma map_each_counter_read adf c n g hs : ∀ d,
  c !! g = Some d →
  map_each (counter_read ghc g) hs (with_objs s0 la adf ghc c n)
  = (Ret (map (count_of d) hs),
     with_objs s0 la adf ghc (<[g := foldl touch d hs]> c) n).
Proof.
  revert c. induction hs as [|h hs IH]; intros c d Hg.
  - simpl. by rewrite insert_id.
  - cbn [map_each]. rewrite bind_run, (counter_read_with_objs s0 la ghc Hghc _ _ _ _ d) by done.
    cbv beta iota. rewrite bind_run.
    rewrite (IH _ (touch d h)) by (by rewrite lookup_insert_eq).
    cbv beta iota. rewrite insert_insert_eq. cbn [map foldl].
    rewrite (map_ext (count_of (touch d h)) (count_of d)) by (intros; apply count_of_touch).
    done.
Qed.

Lemma sorted_houses_with_objs adf c n g d :
  c !! g = Some d →
  sorted_houses ghc g (with_objs s0 la adf ghc c n)
  = (Ret (house_order d),
     with_objs s0 la adf ghc (<[g := foldl touch d (keys HOUSE_COLORS)]> c) n).
Proof.
  intros Hg. unfold sorted_houses.
  rewrite bind_run, (map_each_counter_read _ _ _ _ _ d) by done. done.
Qed.

Lemma sorted_houses_KeyError adf c n g :
  c !! g = None →
  sorted_houses ghc g (with_objs s0 la adf ghc c n)
  = (Raise (KeyError g), with_objs s0 la adf ghc c n).
Proof.
  intros Hg. unfold sorted_houses. rewrite bind_run.
  change (keys HOUSE_COLORS) with ("House A" :: keys (tail HOUSE_COLORS)).
  cbn [map_each]. rewrite bind_run, counter_read_KeyError by done. done.
Qed.

End counter_reads.

(** * Dealing the houses of one group *)

Lemma dealt_count_S order h n :
  dealt_count order h (S n)
  = dealt_count order h n + (if decide (dealt order n = h) then 1 else 0).
Proof.
  unfold dealt_count. rewrite seq_S, list.filter_app, length_app. f_equal.
  rewrite filter_cons, filter_nil. simpl. by case_decide.
Qed.

Lemma list_repeat_S {A} (l : list A) n : list_repeat l (S n) = l ++ list_repeat l n.
Proof. reflexivity. Qed.

Lemma house_cycle_lookup order n i :
  length order = 4 →
  list_getitem (list_repeat order (n / 4 + 1)) (i mod 4) = Ret (dealt order i).
Proof.
  intros Hlen. unfold list_getitem, dealt.
  assert (i mod 4 < 4) as Hlt by (apply Nat.mod_upper_bound; lia).
  replace (n / 4 + 1) with (S (n / 4)) by lia.
  rewrite list_repeat_S, lookup_app_l by lia.
  destruct (lookup_lt_is_Some_2 order (i mod 4)) as [h Hh]; [lia|].
  rewrite Hh. f_equal. symmetry. by apply list_lookup_total_correct.
Qed.

Lemma house_order_Permutation d : house_order d ≡ₚ keys HOUSE_COLORS.
Proof.
  unfold house_order. rewrite py_sorted_Permutation.
  rewrite fst_zip; [done|]. by rewrite length_map.
Qed.

Lemma house_order_length d : length (house_order d) = 4.
Proof. by rewrite house_order_Permutation. Qed.

Lemma at_setitem_rows adf idx c v :
  idx < length (rows adf) →
  rows (at_setitem adf idx c v) = alter (insert c v) idx (rows adf).
Proof. intros. unfold at_setitem. cbn [rows]. by case_decide. Qed.

Section dealing.
Context (s0 : state) (la ghc : loc).
Hypothesis Hla : la < length (frames s0).
Hypothesis Hghc : ghc < length (dicts s0).

Lemma assign_student_with_objs order cyc students adf d c g n i idx adf' d' :
  length order = 4 →
  (∀ j, list_getitem cyc (j mod 4) = Ret (dealt order j)) →
  NoDup students →
  (∀ p, p ∈ students → p < length (rows adf)) →
  students !! i = Some idx →
  dealt_to order students adf d i adf' d' →
  ∃ adf'' d'',
    assign_student la ghc g cyc (i, idx) (with_objs s0 la adf' ghc (<[g := d']> c) n)
    = (Ret (), with_objs s0 la adf'' ghc (<[g := d'']> c) n) ∧
    dealt_to order students adf d (S i) adf'' d''.
Proof.
  intros Hlen Hcyc Hnd Hrange Hi (Hcols & Hrows & Hdone & Hrest & Hcnt).
  assert (idx < length (rows adf')) as Hidx.
  { rewrite Hrows. apply Hrange. by eapply list_elem_of_lookup_2. }
  exists (at_setitem adf' idx "House" (VStr (dealt order i))),
         (<[dealt order i := count_of d' (dealt order i) + 1]> d').
  split.
  - unfold assign_student. rewrite bind_run. unfold lift at 1. rewrite Hcyc.
    cbv beta iota. rewrite bind_run, frame_at_setitem_with_objs by done.
    cbv beta iota.
    rewrite (counter_incr_with_objs s0 la ghc Hghc _ _ _ _ d') by apply lookup_insert_eq.
    by rewrite insert_insert_eq.
  - assert (idx ∉ take i students) as Hfresh.
    { intros [j Hj]%list_elem_of_lookup_1.
      apply lookup_take_Some in Hj as [Hj Hji].
      assert (j = i) by (eapply NoDup_lookup; eauto). lia. }
    split; [done|]. split.
    { rewrite at_setitem_rows by done. by rewrite length_alter. }
    split; [|split].
    + intros j p Hj Hp. rewrite at_setitem_rows by done.
      destruct (decide (j = i)) as [->|Hne].
      * assert (p = idx) as -> by congruence.
        rewrite list_lookup_alter_eq, Hrest by done. done.
      * assert (p ≠ idx).
        { intros ->. apply Hne. eapply NoDup_lookup; eauto. }
        rewrite list_lookup_alter_ne by done. apply Hdone; [lia | done].
    + intros p Hp. rewrite at_setitem_rows by done.
      rewrite (take_S_r _ _ idx) in Hp by done.
      apply not_elem_of_app in Hp as [Hp1 Hp2].
      rewrite list_lookup_alter_ne by set_solver. by apply Hrest.
    + intros h. rewrite dealt_count_S. unfold count_of at 1.
      destruct (decide (dealt order i = h)) as [->|Hne].
      * rewrite lookup_insert_eq. simpl. rewrite Hcnt. lia.
      * rewrite lookup_insert_ne by done. fold (count_of d' h). rewrite Hcnt. lia.
Qed.

Lemma dealt_to_0 order students adf d : dealt_to order students adf d 0 adf d.
Proof.
  repeat split; try done; intros; unfold dealt_count; simpl; lia.
Qed.

Lemma for_each_assign_student order cyc students adf d c g n :
  length order = 4 →
  (∀ j, list_getitem cyc (j mod 4) = Ret (dealt order j)) →
  NoDup students →
  (∀ p, p ∈ students → p < length (rows adf)) →
  c !! g = Some d →
  ∃ adf' d',
    for_each (enumerate students) (assign_student la ghc g cyc)
      (with_objs s0 la adf ghc c n)
    = (Ret (), with_objs s0 la adf' ghc (<[g := d']> c) n) ∧
    dealt_to order students adf d (length students) adf' d'.
Proof.
  intros Hlen Hcyc Hnd Hrange Hg.
  destruct (for_each_returns
    (λ i s, ∃ adf' d', s = with_objs s0 la adf' ghc (<[g := d']> c) n ∧
                       dealt_to order students adf d i adf' d')
    (enumerate students) (assign_student la ghc g cyc)
    (with_objs s0 la adf ghc c n)) as (s' & Hrun & adf' & d' & -> & Hd).
  - exists adf, d. split; [by rewrite insert_id | apply dealt_to_0].
  - intros i [i' idx] s1 (a & [= -> ->] & Hi)%enumerate_lookup (adf' & d' & -> & Hd).
    destruct (assign_student_with_objs order cyc students adf d c g n i a adf' d')
      as (adf'' & d'' & Hrun & Hd'); try done.
    eauto 10.
  - rewrite enumerate_length in Hd. eauto.
Qed.

End dealing.

(** * Groups *)

Lemma getitem_Ret df c l : getitem df c = Ret l → c ∈ columns df.
Proof. unfold getitem. by case_decide. Qed.

Lemma getitem_In df c : c ∈ columns df → getitem df c = Ret (map (λ r, cell r c) (rows df)).
Proof. intros. unfold getitem. by case_decide. Qed.

Lemma group_index_elem c1 c2 c3 df k p :
  p ∈ group_index c1 c2 c3 df k ↔
  ∃ r, rows df !! p = Some r ∧ row_key c1 c2 c3 r = Some k.
Proof.
  unfold group_index. rewrite list_elem_of_filter, elem_of_seq. split.
  - intros [Hk _]. destruct (rows df !! p) as [r|]; [|done].
    injection Hk as Hk. eauto.
  - intros (r & Hr & Hk). split; [by rewrite Hr, <- Hk|].
    apply lookup_lt_Some in Hr. lia.
Qed.

Lemma group_index_NoDup c1 c2 c3 df k : NoDup (group_index c1 c2 c3 df k).
Proof. apply list.NoDup_filter, NoDup_seq. Qed.

Lemma group_index_lt c1 c2 c3 df k p :
  p ∈ group_index c1 c2 c3 df k → p < length (rows df).
Proof. intros (r & Hr & _)%group_index_elem. by eapply lookup_lt_Some. Qed.

Lemma group_keys_NoDup c1 c2 c3 df : NoDup (group_keys c1 c2 c3 df).
Proof.
  unfold group_keys. rewrite py_sorted_Permutation. apply NoDup_remove_dups.
Qed.

Lemma group_keys_elem c1 c2 c3 df k :
  k ∈ group_keys c1 c2 c3 df ↔ ∃ r, r ∈ rows df ∧ row_key c1 c2 c3 r = Some k.
Proof.
  unfold group_keys. rewrite py_sorted_Permutation, elem_of_remove_dups.
  apply list_elem_of_omap.
Qed.

Lemma groupby_Ret df c1 c2 c3 groups :
  groupby df c1 c2 c3 = Ret groups →
  groups = map (λ k, (k, group_index c1 c2 c3 df k)) (group_keys c1 c2 c3 df) ∧
  c1 ∈ columns df ∧ c2 ∈ columns df ∧ c3 ∈ columns df.
Proof.
  unfold groupby, getitem. repeat case_decide; try done.
  intros [= <-]. done.
Qed.

Lemma groupby_columns df c1 c2 c3 :
  c1 ∈ columns df → c2 ∈ columns df → c3 ∈ columns df →
  groupby df c1 c2 c3
  = Ret (map (λ k, (k, group_index c1 c2 c3 df k)) (group_keys c1 c2 c3 df)).
Proof. intros. unfold groupby. rewrite !getitem_In by done. done. Qed.

Lemma groups_lookup c1 c2 c3 df j k index :
  map (λ k, (k, group_index c1 c2 c3 df k)) (group_keys c1 c2 c3 df) !! j = Some (k, index) →
  group_keys c1 c2 c3 df !! j = Some k ∧ index = group_index c1 c2 c3 df k.
Proof.
  rewrite list_lookup_fmap. destruct (group_keys c1 c2 c3 df !! j); [|done].
  by intros [= -> ->].
Qed.

(** * One group *)

Section group.
Context (shuffle : nat → list nat → list nat).
Hypothesis Hshuffle : ∀ n l, shuffle n l ≡ₚ l.
Context (s0 : state) (la ghc : loc).
Hypothesis Hla : la < length (frames s0).
Hypothesis Hghc : ghc < length (dicts s0).

Lemma assign_group_with_objs adf c n st sem g index d :
  c !! g = Some d →
  NoDup index →
  (∀ p, p ∈ index → p < length (rows adf)) →
  ∃ adf' d',
    assign_group shuffle la ghc ((st, sem, g), index) (with_objs s0 la adf ghc c n)
    = (Ret (), with_objs s0 la adf' ghc (<[g := d']> c) (S n)) ∧
    dealt_to (house_order d) (shuffle n index) adf d (length index) adf' d'.
Proof.
  intros Hg Hnd Hrange.
  set (d1 := foldl touch d (keys HOUSE_COLORS)).
  destruct (for_each_assign_student s0 la ghc Hla Hghc (house_order d)
              (list_repeat (house_order d) (length (shuffle n index) / 4 + 1))
              (shuffle n index) adf d1 (<[g := d1]> c) g (S n))
    as (adf' & d' & Hrun & Hd).
  - apply house_order_length.
  - intros j. apply house_cycle_lookup, house_order_length.
  - by rewrite Hshuffle.
  - intros p Hp. apply Hrange. by rewrite <- (Hshuffle n index).
  - apply lookup_insert_eq.
  - exists adf', d'. split.
    + unfold assign_group.
      rewrite bind_run, random_shuffle_with_objs. cbv beta iota.
      rewrite bind_run, (sorted_houses_with_objs s0 la ghc Hghc _ _ _ _ d) by done.
      cbv beta iota. fold d1. by rewrite Hrun, insert_insert_eq.
    + rewrite (Permutation_length (Hshuffle n index)) in Hd.
      destruct Hd as (? & ? & ? & ? & Hcnt).
      repeat split; try done.
      intros h. rewrite Hcnt. unfold d1. by rewrite count_of_foldl_touch.
Qed.

Lemma assign_group_KeyError adf c n st sem g index :
  c !! g = None →
  assign_group shuffle la ghc ((st, sem, g), index) (with_objs s0 la adf ghc c n)
  = (Raise (KeyError g), with_objs s0 la adf ghc c (S n)).
Proof.
  intros Hg. unfold assign_group.
  rewrite bind_run, random_shuffle_with_objs. cbv beta iota.
  rewrite bind_run, sorted_houses_KeyError by done. done.
Qed.

End group.

(** * The loop over the groups *)

Lemma assigned_upto_0 shuffle d0 c0 n0 groups :
  assigned_upto shuffle d0 c0 n0 groups 0 (setitem d0 "House" VNone) c0.
Proof.
  repeat split; try done.
  - unfold setitem. cbn [rows]. by rewrite length_map.
  - intros; lia.
  - intros p _. unfold setitem. cbn [rows]. by rewrite list_lookup_fmap.
Qed.

Section groups.
Context (shuffle : nat → list nat → list nat).
Hypothesis Hshuffle : ∀ n l, shuffle n l ≡ₚ l.
Context (s0 : state) (la ghc : loc).
Hypothesis Hla : la < length (frames s0).
Hypothesis Hghc : ghc < length (dicts s0).
Context (d0 : DataFrame) (c0 : counters) (n0 : nat) (groups : list (key * list nat)).
Hypothesis Hgroups : well_grouped d0 groups.

Lemma assign_group_step k st sem g index adf c :
  groups !! k = Some ((st, sem, g), index) →
  assigned_upto shuffle d0 c0 n0 groups k adf c →
  match c !! g with
  | Some d =>
      ∃ adf' c',
        assign_group shuffle la ghc ((st, sem, g), index)
          (with_objs s0 la adf ghc c (n0 + k))
        = (Ret (), with_objs s0 la adf' ghc c' (n0 + S k)) ∧
        assigned_upto shuffle d0 c0 n0 groups (S k) adf' c'
  | None =>
      assign_group shuffle la ghc ((st, sem, g), index)
        (with_objs s0 la adf ghc c (n0 + k))
      = (Raise (KeyError g), with_objs s0 la adf ghc c (n0 + S k))
  end.
Proof.
  intros Hk (Hcols & Hlen & Hdone & Hrest & Hdom).
  destruct Hgroups as [Hwf Hdisj].
  destruct (Hwf _ _ _ Hk) as [Hnd Hrange].
  destruct (c !! g) as [d|] eqn:Hg.
  2: { rewrite (assign_group_KeyError shuffle s0 la ghc Hghc) by done.
       by replace (n0 + S k) with (S (n0 + k)) by lia. }
  destruct (assign_group_with_objs shuffle Hshuffle s0 la ghc Hla Hghc
              adf c (n0 + k) st sem g index d)
    as (adf' & d' & Hrun & Hc' & Hl' & Hdealt & Hother & Hcnt); try done.
  { intros p Hp. rewrite Hlen. by apply Hrange. }
  exists adf', (<[g := d']> c). split.
  { rewrite Hrun. by replace (n0 + S k) with (S (n0 + k)) by lia. }
  assert (∀ p, p ∉ index → rows adf' !! p = rows adf !! p) as Hother'.
  { intros p Hp. apply Hother. rewrite firstn_all2.
    - by rewrite Hshuffle.
    - by rewrite (Permutation_length (Hshuffle _ _)). }
  split; [congruence|]. split; [congruence|]. split; [|split].
  - intros j ky' index' Hj Hj'.
    destruct (decide (j = k)) as [->|Hne].
    + assert ((st, sem, g, index) = (ky', index')) as [= <- <-].
      { apply (inj Some). etrans; [symmetry; exact Hk|exact Hj']. }
      exists d. intros i p Hi.
      assert (p ∈ index) as Hp.
      { rewrite <- (Hshuffle (n0 + k) index). by eapply list_elem_of_lookup_2. }
      rewrite (Hdealt i p); [|by apply lookup_lt_Some in Hi;
                               rewrite (Permutation_length (Hshuffle _ _)) in Hi|done].
      rewrite Hrest.
      * rewrite <- option_fmap_compose. apply option_fmap_ext.
        intros r. simpl. by rewrite insert_insert_eq.
      * intros j0 ky0 index0 Hj0 Hj0'. intros Hp0.
        eapply (Hdisj k j0); [lia|exact Hk|exact Hj0'|exact Hp|exact Hp0].
    + destruct (Hdone j ky' index') as [dj Hdj]; [lia|done|].
      exists dj. intros i p Hi. rewrite Hother'; [by apply Hdj|].
      assert (p ∈ index') as Hp.
      { rewrite <- (Hshuffle (n0 + j) index'). by eapply list_elem_of_lookup_2. }
      eapply Hdisj; [exact Hne|exact Hj'|exact Hk|exact Hp].
  - intros p Hp. rewrite Hother'.
    + apply Hrest. intros j ky' index' Hj. apply Hp. lia.
    + eapply Hp; [|exact Hk]. lia.
  - intros g'. rewrite <- Hdom. destruct (decide (g = g')) as [<-|Hne].
    + rewrite lookup_insert_eq, Hg. split; eauto.
    + by rewrite lookup_insert_ne.
Qed.

(** The loop returns as soon as every gender of a group is a key of the
    counters, and when it returns all groups have been dealt. *)
Lemma for_each_assign_group_returns :
  (∀ j st sem g index, groups !! j = Some ((st, sem, g), index) → is_Some (c0 !! g)) →
  ∃ adf' c',
    for_each groups (assign_group shuffle la ghc)
      (with_objs s0 la (setitem d0 "House" VNone) ghc c0 n0)
    = (Ret (), with_objs s0 la adf' ghc c' (n0 + length groups)) ∧
    assigned_upto shuffle d0 c0 n0 groups (length groups) adf' c'.
Proof.
  intros Hkeys.
  destruct (for_each_returns
    (λ k s, ∃ adf c, s = with_objs s0 la adf ghc c (n0 + k) ∧
                     assigned_upto shuffle d0 c0 n0 groups k adf c)
    groups (assign_group shuffle la ghc)
    (with_objs s0 la (setitem d0 "House" VNone) ghc c0 n0))
    as (s' & Hrun & adf' & c' & -> & Hup).
  - exists (setitem d0 "House" VNone), c0. split; [by rewrite Nat.add_0_r|].
    apply assigned_upto_0.
  - intros k [[[st sem] g] index] s1 Hk (adf & c & -> & Hup).
    pose proof (assign_group_step k st sem g index adf c Hk Hup) as Hstep.
    destruct (c !! g) as [d|] eqn:Hg.
    + destruct Hstep as (adf' & c' & Hrun & Hup'). eauto 10.
    + destruct Hup as (_ & _ & _ & _ & Hdom).
      destruct (Hkeys _ _ _ _ _ Hk) as [d Hd].
      assert (is_Some (c !! g)) as [? ?] by (apply Hdom; eauto). congruence.
  - eauto.
Qed.

Lemma for_each_assign_group_returned s' :
  for_each groups (assign_group shuffle la ghc)
    (with_objs s0 la (setitem d0 "House" VNone) ghc c0 n0) = (Ret (), s') →
  ∃ adf' c',
    s' = with_objs s0 la adf' ghc c' (n0 + length groups) ∧
    assigned_upto shuffle d0 c0 n0 groups (length groups) adf' c' ∧
    (∀ j st sem g index, groups !! j = Some ((st, sem, g), index) → is_Some (c0 !! g)).
Proof.
  intros Hrun.
  pose proof (for_each_returned
    (λ k s, ∃ adf c, s = with_objs s0 la adf ghc c (n0 + k) ∧
                     assigned_upto shuffle d0 c0 n0 groups k adf c ∧
                     (∀ j st sem g index, j < k →
                        groups !! j = Some ((st, sem, g), index) → is_Some (c0 !! g)))
    groups (assign_group shuffle la ghc) _ _ Hrun) as H.
  destruct H as (adf' & c' & -> & Hup & Hkeys).
  - exists (setitem d0 "House" VNone), c0. split; [by rewrite Nat.add_0_r|].
    split; [apply assigned_upto_0|]. intros; lia.
  - intros k [[[st sem] g] index] s1 s2 Hk (adf & c & -> & Hup & Hkeys) Hbody.
    pose proof (assign_group_step k st sem g index adf c Hk Hup) as Hstep.
    destruct (c !! g) as [d|] eqn:Hg.
    + destruct Hstep as (adf' & c' & Hrun' & Hup').
      assert ((Ret (), s2) = (Ret (), with_objs s0 la adf' ghc c' (n0 + S k)))
        as [= ->] by (etrans; [symmetry; exact Hbody|exact Hrun']).
      exists adf', c'. split; [done|]. split; [done|].
      intros j st' sem' g' index' Hj Hj'.
      destruct (decide (j = k)) as [->|].
      * assert ((st, sem, g, index) = (st', sem', g', index')) as [= <- <- <- <-].
        { apply (inj Some). etrans; [symmetry; exact Hk|exact Hj']. }
        destruct Hup as (_ & _ & _ & _ & Hdom). apply Hdom. eauto.
      * eapply Hkeys; [|done]. lia.
    + assert ((Ret (), s2) = (Raise (KeyError g), with_objs s0 la adf ghc c (n0 + S k)))
        as [=] by (etrans; [symmetry; exact Hbody|exact Hstep]).
  - exists adf', c'. split; [done|]. split; [done|].
    intros j st sem g index Hj. eapply Hkeys; [|done].
    by eapply lookup_lt_Some.
Qed.

End groups.

Lemma for_each_outcome {A} (I : nat → state → Prop) (Q : state → Prop)
    (l : list A) (body : A → M unit) s o s' :
  for_each l body s = (o, s') →
  I 0 s →
  (∀ i a s1 s2, l !! i = Some a → I i s1 → body a s1 = (Ret (), s2) → I (S i) s2) →
  (∀ i a s1 e s2, l !! i = Some a → I i s1 → body a s1 = (Raise e, s2) → Q s2) →
  (o = Ret () ∧ I (length l) s') ∨ ((∃ e, o = Raise e) ∧ Q s').
Proof.
  revert I s. induction l as [|a l IH]; intros I s Hrun H0 Hret Hraise.
  - injection Hrun as <- <-. by left.
  - simpl in Hrun. apply bind_inv in Hrun as [([] & s1 & H1 & H2) | (e & H1 & ->)].
    + apply (IH (λ i, I (S i)) s1 H2).
      * by apply (Hret 0 a s).
      * intros i b s2 s3 Hi. by apply (Hret (S i)).
      * intros i b s2 e s3 Hi. by apply (Hraise (S i)).
    + right. split; [eauto|]. by apply (Hraise 0 a s e s').
Qed.

Lemma groupby_well_grouped d0 c1 c2 c3 groups :
  groupby d0 c1 c2 c3 = Ret groups → well_grouped d0 groups.
Proof.
  intros (-> & _)%groupby_Ret. split.
  - intros j ky index (_ & ->)%groups_lookup. split.
    + apply group_index_NoDup.
    + intros p. apply group_index_lt.
  - intros j j' ky ky' index index' p Hne (Hj & ->)%groups_lookup (Hj' & ->)%groups_lookup.
    intros (r & Hr & Hk)%group_index_elem (r' & Hr' & Hk')%group_index_elem.
    assert (ky = ky') as <- by congruence.
    apply Hne. eapply NoDup_lookup; [apply group_keys_NoDup|done..].
Qed.


(** Every row of the assigned frame is the input row with its [House]
    cell set: to nothing when the row is in no group dealt so far, and
    else to the house its place in the shuffled group selects. *)
Lemma assigned_upto_rows shuffle (Hshuffle : ∀ n l, shuffle n l ≡ₚ l)
    d0 c0 n0 groups k adf c :
  assigned_upto shuffle d0 c0 n0 groups k adf c →
  ∀ p r', rows adf !! p = Some r' →
  ∃ r, rows d0 !! p = Some r ∧
    ((r' = <["House" := VNone]> r ∧
      ∀ j ky index, j < k → groups !! j = Some (ky, index) → p ∉ index) ∨
     (∃ j ky index d i, j < k ∧ groups !! j = Some (ky, index) ∧
        shuffle (n0 + j) index !! i = Some p ∧
        r' = <["House" := VStr (dealt (house_order d) i)]> r)).
Proof.
  intros (Hcols & Hlen & Hdone & Hrest & _) p r' Hp.
  destruct (rows d0 !! p) as [r|] eqn:Hr.
  2: { apply lookup_lt_Some in Hp. apply lookup_ge_None in Hr. lia. }
  exists r. split; [done|].
  destruct (decide (Exists (λ g : key * list nat, p ∈ g.2) (take k groups)))
    as [Hex|Hno].
  - right. apply Exists_exists in Hex as ([ky index] & Hg & Hin).
    apply list_elem_of_In, list_elem_of_lookup_1 in Hg as [j Hj].
    apply lookup_take_Some in Hj as [Hj Hjk]. simpl in Hin.
    destruct (Hdone j ky index Hjk Hj) as [d Hd].
    rewrite <- (Hshuffle (n0 + j) index) in Hin.
    apply list_elem_of_lookup_1 in Hin as [i Hi].
    exists j, ky, index, d, i. repeat split; try done.
    rewrite (Hd i p Hi), Hr in Hp. by injection Hp.
  - assert (∀ j ky index, j < k → groups !! j = Some (ky, index) → p ∉ index) as Hout.
    { intros j ky index Hj Hg Hin. apply Hno, Exists_exists.
      exists (ky, index). split; [|done].
      apply list_elem_of_In. eapply list_elem_of_lookup_2.
      apply lookup_take_Some. eauto. }
    left. split; [|done]. rewrite (Hrest p Hout), Hr in Hp. by injection Hp.
Qed.

Section assign_houses.
Context (shuffle : nat → list nat → list nat).
Hypothesis Hshuffle : ∀ n l, shuffle n l ≡ₚ l.
Context (s : state) (df ghc : loc) (d0 : DataFrame) (c0 : counters).
Hypothesis Hdf : frames s !! df = Some d0.
Hypothesis Hghc : dicts s !! ghc = Some c0.

Let la := length (frames s).
Let adf0 := setitem d0 "House" VNone.
Let sb := mkState (frames s ++ [adf0]) (dicts s) (rng_calls s) (screen s).

Lemma sb_la : la < length (frames sb).
Proof. unfold sb, la. cbn [frames]. rewrite length_app. simpl. lia. Qed.

Lemma sb_ghc : ghc < length (dicts sb).
Proof. unfold sb. cbn [dicts]. by eapply lookup_lt_Some. Qed.

Lemma with_objs_sb adf c n :
  with_objs sb la adf ghc c n = after_assign s ghc adf c n.
Proof.
  unfold with_objs, after_assign, sb, la. cbn [frames dicts screen]. f_equal.
  rewrite insert_app_r_alt, Nat.sub_diag by lia. done.
Qed.

Lemma assign_houses_run :
  assign_houses shuffle df ghc s
  = match groupby d0 "Stream" "Semester" "Gender" with
    | Raise e => (Raise e, sb)
    | Ret groups =>
        match for_each groups (assign_group shuffle la ghc)
                (with_objs sb la adf0 ghc c0 (rng_calls s)) with
        | (Ret _, s') => (Ret la, s')
        | (Raise e, s') => (Raise e, s')
        end
    end.
Proof.
  unfold assign_houses.
  rewrite bind_run. unfold get_frame at 1. rewrite Hdf.
  rewrite bind_run. unfold new_frame at 1. cbv beta iota. fold la.
  rewrite bind_run. unfold frame_setitem at 1.
  rewrite bind_run. unfold get_frame at 1. cbn [frames].
  rewrite lookup_app_r, Nat.sub_diag by (unfold la; lia). cbn [lookup list_lookup].
  unfold set_frame at 1. cbn [frames dicts rng_calls screen].
  rewrite insert_app_r_alt, Nat.sub_diag by (unfold la; lia). cbn [insert list_insert].
  fold adf0. fold sb.
  rewrite bind_run. unfold get_frame at 1.
  replace (frames sb !! df) with (Some d0).
  2: { unfold sb. cbn [frames]. rewrite lookup_app_l; [done|]. by eapply lookup_lt_Some. }
  rewrite bind_run. unfold lift at 1.
  destruct (groupby d0 "Stream" "Semester" "Gender") as [groups|e]; [|done].
  rewrite bind_run.
  replace sb with (with_objs sb la adf0 ghc c0 (rng_calls s)) at 1.
  2: { apply (with_objs_id sb); unfold sb; cbn [frames dicts]; [|done].
       rewrite lookup_app_r, Nat.sub_diag by (unfold la; lia). done. }
  destruct (for_each _ _ _) as [[[]|e] s']; done.
Qed.

Lemma assign_houses_returned l s' :
  assign_houses shuffle df ghc s = (Ret l, s') →
  ∃ groups adf' c',
    groupby d0 "Stream" "Semester" "Gender" = Ret groups ∧
    l = length (frames s) ∧
    s' = after_assign s ghc adf' c' (rng_calls s + length groups) ∧
    assigned_upto shuffle d0 c0 (rng_calls s) groups (length groups) adf' c' ∧
    (∀ j st sem g index, groups !! j = Some ((st, sem, g), index) → is_Some (c0 !! g)).
Proof.
  rewrite assign_houses_run.
  destruct (groupby d0 "Stream" "Semester" "Gender") as [groups|e] eqn:Hgb; [|done].
  destruct (for_each _ _ _) as [[[]|e] s1] eqn:Hloop; [|done].
  intros [= <- <-].
  apply (for_each_assign_group_returned shuffle Hshuffle sb la ghc sb_la sb_ghc
           d0 c0 (rng_calls s) groups (groupby_well_grouped _ _ _ _ _ Hgb)) in Hloop
    as (adf' & c' & -> & Hup & Hkeys).
  exists groups, adf', c'. by rewrite with_objs_sb.
Qed.

Lemma assign_houses_returns groups :
  groupby d0 "Stream" "Semester" "Gender" = Ret groups →
  (∀ j st sem g index, groups !! j = Some ((st, sem, g), index) → is_Some (c0 !! g)) →
  ∃ adf' c',
    assign_houses shuffle df ghc s
    = (Ret (length (frames s)), after_assign s ghc adf' c' (rng_calls s + length groups)) ∧
    assigned_upto shuffle d0 c0 (rng_calls s) groups (length groups) adf' c'.
Proof.
  intros Hgb Hkeys.
  destruct (for_each_assign_group_returns shuffle Hshuffle sb la ghc sb_la sb_ghc
              d0 c0 (rng_calls s) groups (groupby_well_grouped _ _ _ _ _ Hgb) Hkeys)
    as (adf' & c' & Hrun & Hup).
  exists adf', c'. split; [|done].
  rewrite assign_houses_run, Hgb. unfold adf0. rewrite Hrun, with_objs_sb. done.
Qed.

(** Whatever the outcome, the call adds one frame, a copy of the input in
    all columns but [House], and touches no other object than the
    counters at [ghc]. *)
Lemma assign_houses_outcome o s' :
  assign_houses shuffle df ghc s = (o, s') →
  ∃ adf' c' n,
    s' = after_assign s ghc adf' c' n ∧
    columns adf' = columns adf0 ∧
    length (rows adf') = length (rows d0) ∧
    (∀ p r', rows adf' !! p = Some r' →
       ∃ r v, rows d0 !! p = Some r ∧ r' = <["House" := v]> r).
Proof.
  rewrite assign_houses_run.
  destruct (groupby d0 "Stream" "Semester" "Gender") as [groups|e] eqn:Hgb.
  2: { intros [= <- <-]. exists adf0, c0, (rng_calls s). split; [|split; [done|split]].
       - unfold sb, after_assign. by rewrite list_insert_id.
       - unfold adf0, setitem. cbn [rows]. by rewrite length_map.
       - intros p r'. unfold adf0, setitem. cbn [rows]. rewrite list_lookup_fmap.
         destruct (rows d0 !! p) as [r|]; [|done]. intros [= <-]. eauto. }
  destruct (for_each _ _ _) as [o1 s1] eqn:Hloop. intros Hres.
  assert (s1 = s') as -> by (destruct o1; congruence). clear Hres.
  set (P := λ s1 : state, ∃ adf' c' n,
         s1 = with_objs sb la adf' ghc c' n ∧
         ∃ k, assigned_upto shuffle d0 c0 (rng_calls s) groups k adf' c').
  assert (P s') as (adf' & c' & n & -> & k & Hup).
  { pose proof (groupby_well_grouped _ _ _ _ _ Hgb) as Hwg.
    destruct (for_each_outcome
      (λ k s1, ∃ adf c, s1 = with_objs sb la adf ghc c (rng_calls s + k) ∧
                        assigned_upto shuffle d0 c0 (rng_calls s) groups k adf c)
      P groups (assign_group shuffle la ghc) _ _ _ Hloop) as [[_ H]|[_ H]].
    - exists adf0, c0. split; [by rewrite Nat.add_0_r|]. apply assigned_upto_0.
    - intros k [[[st sem] g] index] s1 s2 Hk (adf & c & -> & Hup) Hbody.
      pose proof (assign_group_step shuffle Hshuffle sb la ghc sb_la sb_ghc
                    d0 c0 (rng_calls s) groups Hwg k st sem g index adf c Hk Hup) as Hstep.
      destruct (c !! g) as [d|].
      + destruct Hstep as (adf' & c' & Hrun' & Hup').
        assert ((Ret (), s2) = (Ret (), with_objs sb la adf' ghc c' (rng_calls s + S k)))
          as [= ->] by (etrans; [symmetry; exact Hbody|exact Hrun']).
        eauto.
      + assert ((Ret (), s2) = (Raise (KeyError g), with_objs sb la adf ghc c (rng_calls s + S k)))
          as [=] by (etrans; [symmetry; exact Hbody|exact Hstep]).
    - intros k [[[st sem] g] index] s1 e s2 Hk (adf & c & -> & Hup) Hbody.
      pose proof (assign_group_step shuffle Hshuffle sb la ghc sb_la sb_ghc
                    d0 c0 (rng_calls s) groups Hwg k st sem g index adf c Hk Hup) as Hstep.
      destruct (c !! g) as [d|].
      + destruct Hstep as (adf' & c' & Hrun' & Hup').
        assert ((Raise e, s2) = (Ret (), with_objs sb la adf' ghc c' (rng_calls s + S k)))
          as [=] by (etrans; [symmetry; exact Hbody|exact Hrun']).
      + assert ((Raise e, s2) = (Raise (KeyError g), with_objs sb la adf ghc c (rng_calls s + S k)))
          as [= -> ->] by (etrans; [symmetry; exact Hbody|exact Hstep]).
        exists adf, c, (rng_calls s + S k). eauto.
    - destruct H as (adf & c & -> & Hup). exists adf, c, (rng_calls s + length groups). eauto.
    - done. }
  exists adf', c', n. rewrite with_objs_sb.
  pose proof Hup as (Hcols & Hlen & _).
  split; [done|]. split; [done|]. split; [done|].
  intros p r' Hp.
  destruct (assigned_upto_rows shuffle Hshuffle d0 c0 (rng_calls s) groups k adf' c'
              Hup p r' Hp) as (r & Hr' & [[-> _]|(j & ky & index & d & i & _ & _ & _ & ->)]);
    eauto.
Qed.

End assign_houses.

(** * Counting the houses of a group *)

Lemma filter_ext_elem {A} (P Q : A → Prop) `{∀ x, Decision (P x)} `{∀ x, Decision (Q x)} (l : list A) :
  (∀ x, x ∈ l → P x ↔ Q x) → filter P l = filter Q l.
Proof.
  induction l as [|x l IH]; intros Hext; [done|].
  rewrite !filter_cons. rewrite IH by (intros; apply Hext; by right).
  destruct (decide (P x)), (decide (Q x)); try done; exfalso;
    pose proof (Hext x (list_elem_of_here _ _)); tauto.
Qed.

Lemma holds_at_Some {A} (P : A → Prop) (l : list A) i :
  holds_at P l i ↔ ∃ x, l !! i = Some x ∧ P x.
Proof.
  unfold holds_at. destruct (l !! i) as [x|]; simpl.
  - split; [eauto|]. by intros (y & [= ->] & ?).
  - split; [done|]. by intros (y & ? & ?).
Qed.

(** Counting the elements of a list that satisfy [P] is counting the
    positions that hold such an element. *)
Lemma filter_length_positions {A} (P : A → Prop) `{∀ x, Decision (P x)} (l : list A) :
  length (filter P l) = length (filter (holds_at P l) (seq 0 (length l))).
Proof.
  induction l as [|x l IH] using rev_ind; [done|].
  rewrite list.filter_app, !length_app, IH. cbn [length].
  rewrite Nat.add_1_r, seq_S, list.filter_app, length_app. cbn [plus]. f_equal.
  - f_equal. apply filter_ext_elem. intros i [_ Hi]%elem_of_seq.
    unfold holds_at. by rewrite lookup_app_l by lia.
  - rewrite !filter_cons, !filter_nil.
    assert (holds_at P (l ++ [x]) (length l) ↔ P x) as Hiff.
    { unfold holds_at. by rewrite list_lookup_middle. }
    destruct (decide (P x)), (decide (holds_at P (l ++ [x]) (length l)));
      try done; tauto.
Qed.

Lemma dealt_elem order i : length order = 4 → dealt order i ∈ order.
Proof.
  intros Hlen. unfold dealt. apply list_elem_of_lookup_total_2.
  rewrite Hlen. apply Nat.mod_upper_bound. lia.
Qed.

Lemma dealt_count_formula order j h n :
  NoDup order → length order = 4 → order !! j = Some h →
  dealt_count order h n = (n + 3 - j) / 4.
Proof.
  intros Hnd Hlen Hj. pose proof (lookup_lt_Some _ _ _ Hj) as Hj4.
  induction n as [|n IH].
  - change (dealt_count order h 0) with 0. symmetry. apply Nat.div_small. lia.
  - rewrite dealt_count_S, IH.
    pose proof (Nat.mod_upper_bound n 4 ltac:(lia)) as Hm.
    assert (dealt order n = h ↔ n mod 4 = j) as Hiff.
    { unfold dealt. split.
      - intros Hd. eapply NoDup_lookup; [done| |done].
        rewrite <- Hd. apply list_lookup_lookup_total_lt. lia.
      - intros <-. by apply list_lookup_total_correct. }
    pose proof (Nat.div_mod_eq n 4).
    pose proof (Nat.div_mod_eq (S n + 3 - j) 4).
    pose proof (Nat.mod_upper_bound (S n + 3 - j) 4).
    pose proof (Nat.div_mod_eq (n + 3 - j) 4).
    pose proof (Nat.mod_upper_bound (n + 3 - j) 4).
    rewrite Hlen in Hj4.
    case_decide as Hd; [apply Hiff in Hd|rewrite Hiff in Hd]; lia.
Qed.

Lemma dealt_count_balanced order h1 h2 n :
  NoDup order → length order = 4 → h1 ∈ order → h2 ∈ order →
  dealt_count order h1 n ≤ dealt_count order h2 n + 1.
Proof.
  intros Hnd Hlen [j1 H1]%list_elem_of_lookup_1 [j2 H2]%list_elem_of_lookup_1.
  rewrite (dealt_count_formula order j1 h1), (dealt_count_formula order j2 h2) by done.
  apply lookup_lt_Some in H1, H2.
  pose proof (Nat.div_mod_eq (n + 3 - j1) 4).
  pose proof (Nat.mod_upper_bound (n + 3 - j1) 4).
  pose proof (Nat.div_mod_eq (n + 3 - j2) 4).
  pose proof (Nat.mod_upper_bound (n + 3 - j2) 4).
  lia.
Qed.

Lemma keys_HOUSE_COLORS_NoDup : NoDup (keys HOUSE_COLORS).
Proof. by apply (bool_decide_unpack _). Qed.

Lemma house_order_NoDup d : NoDup (house_order d).
Proof. rewrite house_order_Permutation. apply keys_HOUSE_COLORS_NoDup. Qed.

(** Setting the [House] cell leaves the key of a row alone. *)
Lemma cell_insert_ne (r : row) c c' v : c ≠ c' → cell (<[c := v]> r) c' = cell r c'.
Proof. intros. unfold cell. by rewrite lookup_insert_ne. Qed.

Lemma cell_insert_eq (r : row) c v : cell (<[c := v]> r) c = v.
Proof. unfold cell. by rewrite lookup_insert_eq. Qed.

Lemma row_key_insert_House (r : row) v :
  row_key "Stream" "Semester" "Gender" (<["House" := v]> r)
  = row_key "Stream" "Semester" "Gender" r.
Proof. unfold row_key. by rewrite !cell_insert_ne. Qed.

Lemma group_size_index df k :
  group_size df k = length (group_index "Stream" "Semester" "Gender" df k).
Proof.
  unfold group_size. rewrite filter_length_positions. f_equal.
  apply filter_ext_elem. intros i _. rewrite holds_at_Some. split.
  - intros (r & -> & Hk). simpl. by rewrite Hk.
  - intros Hi. destruct (rows df !! i) as [r|]; [|done]. injection Hi as Hi. eauto.
Qed.

Section counting.
Context (shuffle : nat → list nat → list nat).
Hypothesis Hshuffle : ∀ n l, shuffle n l ≡ₚ l.

Lemma assigned_upto_group_count d0 c0 n0 adf c k :
  let groups := map (λ k, (k, group_index "Stream" "Semester" "Gender" d0 k))
                    (group_keys "Stream" "Semester" "Gender" d0) in
  assigned_upto shuffle d0 c0 n0 groups (length groups) adf c →
  ∃ d, ∀ h, group_house_count adf k h = dealt_count (house_order d) h (group_size d0 k).
Proof.
  intros groups Hup. pose proof Hup as (_ & Hlen & Hdone & _ & _).
  set (index := group_index "Stream" "Semester" "Gender" d0 k).
  set (holds := λ h p, (λ r, cell r "House") <$> rows adf !! p = Some (VStr h)).
  assert (∀ h p, Decision (holds h p)) as Hdec by (intros; unfold holds; apply _).
  assert (∀ h, group_house_count adf k h = length (filter (holds h) index)) as Hcount.
  { intros h. unfold group_house_count. rewrite filter_length_positions, Hlen.
    unfold index, group_index. rewrite list_filter_filter. f_equal.
    apply filter_ext_elem. intros p _. unfold holds. rewrite holds_at_Some. split.
    - intros (r' & Hr' & Hk & Hh).
      destruct (assigned_upto_rows shuffle Hshuffle _ _ _ _ _ _ _ Hup p r' Hr')
        as (r & Hr & Hcase).
      rewrite Hr' , Hr. simpl. split; [by rewrite Hh|].
      do 2 f_equal. rewrite <- Hk.
      destruct Hcase as [[-> _]|(? & ? & ? & ? & ? & _ & _ & _ & ->)];
        by rewrite row_key_insert_House.
    - intros [Hh Hk]. destruct (rows adf !! p) as [r'|] eqn:Hr'; [|done].
      destruct (assigned_upto_rows shuffle Hshuffle _ _ _ _ _ _ _ Hup p r' Hr')
        as (r & Hr & Hcase).
      exists r'. split; [done|]. rewrite Hr in Hk. simpl in Hk, Hh.
      split; [|congruence].
      injection Hk as <-.
      destruct Hcase as [[-> _]|(? & ? & ? & ? & ? & _ & _ & _ & ->)];
        by rewrite row_key_insert_House. }
  rewrite group_size_index. fold index.
  destruct (decide (k ∈ group_keys "Stream" "Semester" "Gender" d0)) as [Hk|Hk].
  - apply list_elem_of_lookup_1 in Hk as [j Hj].
    assert (groups !! j = Some (k, index)) as Hg.
    { unfold groups. by rewrite list_lookup_fmap, Hj. }
    destruct (Hdone j k index) as [d Hd]; [by eapply lookup_lt_Some|done|].
    exists d. intros h. rewrite Hcount.
    rewrite <- (Hshuffle (n0 + j) index) at 1.
    rewrite <- (Permutation_length (Hshuffle (n0 + j) index)).
    rewrite filter_length_positions. unfold dealt_count. f_equal.
    apply filter_ext_elem. intros i [_ Hi]%elem_of_seq. rewrite holds_at_Some. split.
    + intros (p & Hp & Hh). unfold holds in Hh.
      rewrite (Hd i p Hp) in Hh.
      destruct (rows d0 !! p) as [r|]; [|done]. simpl in Hh.
      rewrite cell_insert_eq in Hh. congruence.
    + intros Hh. destruct (lookup_lt_is_Some_2 (shuffle (n0 + j) index) i) as [p Hp]; [lia|].
      exists p. split; [done|]. unfold holds. rewrite (Hd i p Hp).
      assert (p ∈ index) as (r & Hr & _)%group_index_elem.
      { rewrite <- (Hshuffle (n0 + j) index). by eapply list_elem_of_lookup_2. }
      rewrite Hr. simpl. by rewrite cell_insert_eq, Hh.
  - exists ∅. intros h. rewrite Hcount. assert (index = []) as Hnil.
    { apply elem_of_nil_inv. intros p (r & Hr & Hkey)%group_index_elem.
      apply Hk, group_keys_elem. exists r. split; [|done].
      by eapply list_elem_of_lookup_2. }
    rewrite Hnil. done.
Qed.

End counting.

(** * The visiting order *)

Section stable.
Context {A : Type} (sort_key : A → nat) (pos : A → A → Prop).

Let leb (a b : A) : bool := bool_decide (sort_key a ≤ sort_key b).
Let lex (a b : A) : Prop :=
  sort_key a < sort_key b ∨ (sort_key a = sort_key b ∧ pos a b).

Lemma insert_sorted_stable x l :
  StronglySorted lex l → Forall (pos x) l →
  StronglySorted lex (insert_sorted leb x l).
Proof.
  induction 1 as [|y l Hl IH Hy]; intros Hx; simpl.
  - repeat constructor.
  - apply list.Forall_cons in Hx as [Hxy Hxl]. unfold leb at 1. case_bool_decide as Hle.
    + constructor; [by constructor|]. constructor.
      * unfold lex. destruct (decide (sort_key x = sort_key y)); [by right|left; lia].
      * rewrite Forall_forall in Hy, Hxl. apply Forall_forall. intros z Hz.
        specialize (Hy z Hz). specialize (Hxl z Hz). unfold lex in *.
        destruct (decide (sort_key x = sort_key z)); [by right|left; lia].
    + constructor; [by apply IH|].
      rewrite insert_sorted_Permutation. constructor; [|done].
      unfold lex. left. lia.
Qed.

Lemma py_sorted_stable l :
  StronglySorted pos l → StronglySorted lex (py_sorted leb l).
Proof.
  induction 1 as [|x l Hl IH Hx]; [constructor|].
  change (py_sorted leb (x :: l)) with (insert_sorted leb x (py_sorted leb l)).
  apply insert_sorted_stable; [done|]. by rewrite py_sorted_Permutation.
Qed.

End stable.

Lemma StronglySorted_map_Forall {A B} (f : A → B) (Q : A → Prop)
    (R : relation A) (R' : relation B) l :
  (∀ a b, Q a → Q b → R a b → R' (f a) (f b)) →
  Forall Q l → StronglySorted R l → StronglySorted R' (map f l).
Proof.
  intros Hf HQ. induction 1 as [|x l Hl IH Hx]; simpl; [constructor|].
  apply list.Forall_cons in HQ as [HQx HQl].
  constructor; [by apply IH|].
  apply Forall_map. rewrite Forall_forall in Hx, HQl. apply Forall_forall.
  intros y Hy. apply Hf; auto.
Qed.

Lemma house_order_sorted d : StronglySorted (visits_before d) (house_order d).
Proof.
  unfold house_order.
  set (l := zip (keys HOUSE_COLORS) (map (count_of d) (keys HOUSE_COLORS))).
  apply (StronglySorted_map_Forall fst (λ a, a.2 = count_of d a.1)
           (λ a b, a.2 < b.2 ∨ (a.2 = b.2 ∧ palette_index a.1 < palette_index b.1))).
  - intros [h1 n1] [h2 n2]. simpl. intros -> ->. done.
  - rewrite py_sorted_Permutation. unfold l. simpl. repeat constructor.
  - apply (py_sorted_stable snd (λ a b, palette_index a.1 < palette_index b.1)).
    unfold l. simpl. repeat constructor; vm_compute; lia.
Qed.

(** * Properties of [assign_houses] *)

Lemma after_assign_new s ghc adf c n :
  frames (after_assign s ghc adf c n) !! length (frames s) = Some adf.
Proof. unfold after_assign. cbn [frames]. by rewrite list_lookup_middle. Qed.

Lemma after_assign_old s ghc adf c n l :
  l < length (frames s) →
  frames (after_assign s ghc adf c n) !! l = frames s !! l.
Proof. intros. unfold after_assign. cbn [frames]. by rewrite lookup_app_l. Qed.

Section claims.
Context (shuffle : nat → list nat → list nat).
Hypothesis Hshuffle : ∀ n l, shuffle n l ≡ₚ l.

(** C1.  After a call of [assign_houses] that returns, in every (Stream,
    Semester, Gender) group of the table the numbers of rows given to any
    two houses differ by at most one.  The counters only choose the order
    [order] in which the four houses are dealt: the number of rows a house
    gets is [dealt_count order h n] for the size [n] of the group, whatever
    the counters hold. *)
Theorem assign_houses_balanced s df ghc d0 c0 l s' :
  frames s !! df = Some d0 →
  dicts s !! ghc = Some c0 →
  assign_houses shuffle df ghc s = (Ret l, s') →
  ∃ adf, frames s' !! l = Some adf ∧
    ∀ k, ∃ order,
      order ≡ₚ keys HOUSE_COLORS ∧
      (∀ h, group_house_count adf k h = dealt_count order h (group_size d0 k)) ∧
      (∀ h1 h2, h1 ∈ keys HOUSE_COLORS → h2 ∈ keys HOUSE_COLORS →
         group_house_count adf k h1 ≤ group_house_count adf k h2 + 1).
Proof.
  intros Hdf Hghc Hrun.
  destruct (assign_houses_returned shuffle Hshuffle s df ghc d0 c0 Hdf Hghc l s' Hrun)
    as (groups & adf & c' & Hgb & -> & -> & Hup & _).
  exists adf. split; [apply after_assign_new|]. intros k.
  apply groupby_Ret in Hgb as [-> _].
  destruct (assigned_upto_group_count shuffle Hshuffle d0 c0 _ adf c' k Hup) as [d Hd].
  exists (house_order d). split; [apply house_order_Permutation|]. split; [done|].
  intros h1 h2 H1 H2. rewrite !Hd.
  apply dealt_count_balanced.
  - apply house_order_NoDup.
  - apply house_order_length.
  - by rewrite house_order_Permutation.
  - by rewrite house_order_Permutation.
Qed.

(** C2, as the code has it.  After a call of [assign_houses] that returns,
    every row whose Stream, Semester and Gender cells are all present holds
    one of the four house labels, and every row with one of them missing
    holds no house. *)
Theorem assign_houses_labels s df ghc d0 c0 l s' :
  frames s !! df = Some d0 →
  dicts s !! ghc = Some c0 →
  assign_houses shuffle df ghc s = (Ret l, s') →
  ∃ adf, frames s' !! l = Some adf ∧
    length (rows adf) = length (rows d0) ∧
    ∀ p r r', rows d0 !! p = Some r → rows adf !! p = Some r' →
      match row_key "Stream" "Semester" "Gender" r with
      | Some _ => ∃ h, h ∈ keys HOUSE_COLORS ∧ cell r' "House" = VStr h
      | None => cell r' "House" = VNone
      end.
Proof.
  intros Hdf Hghc Hrun.
  destruct (assign_houses_returned shuffle Hshuffle s df ghc d0 c0 Hdf Hghc l s' Hrun)
    as (groups & adf & c' & Hgb & -> & -> & Hup & _).
  exists adf. split; [apply after_assign_new|].
  split; [by destruct Hup as (_ & ? & _)|].
  intros p r r' Hr Hr'.
  apply groupby_Ret in Hgb as [-> _].
  destruct (assigned_upto_rows shuffle Hshuffle _ _ _ _ _ _ _ Hup p r' Hr')
    as (r0 & Hr0 & Hcase).
  assert (r0 = r) as -> by congruence.
  destruct Hcase as [[-> Hout]|(j & ky & index & d & i & Hj & Hg & Hi & ->)].
  - destruct (row_key "Stream" "Semester" "Gender" r) as [k|] eqn:Hk;
      [|apply cell_insert_eq].
    exfalso.
    assert (k ∈ group_keys "Stream" "Semester" "Gender" d0) as [j Hj]%list_elem_of_lookup_1.
    { apply group_keys_elem. exists r. split; [|done]. by eapply list_elem_of_lookup_2. }
    eapply (Hout j k).
    + rewrite length_map. by eapply lookup_lt_Some.
    + by rewrite list_lookup_fmap, Hj.
    + apply group_index_elem. eauto.
  - apply groups_lookup in Hg as [_ ->].
    assert (p ∈ group_index "Stream" "Semester" "Gender" d0 ky)
      as (r0 & Hr0' & Hk)%group_index_elem.
    { rewrite <- (Hshuffle (rng_calls s + j)). by eapply list_elem_of_lookup_2. }
    assert (r0 = r) as -> by congruence. rewrite Hk.
    exists (dealt (house_order d) i). split; [|apply cell_insert_eq].
    rewrite <- (house_order_Permutation d). apply dealt_elem, house_order_length.
Qed.

(** C9.  Whatever its outcome, a call of [assign_houses] leaves every frame
    of the store as it was, the input table among them; it adds one frame,
    which it returns, and that frame has the rows of the input with only
    the [House] cell set; of the counter objects it changes none but the
    one it was given; it writes nothing on the screen. *)
Theorem assign_houses_frame s df ghc d0 c0 o s' :
  frames s !! df = Some d0 →
  dicts s !! ghc = Some c0 →
  assign_houses shuffle df ghc s = (o, s') →
  (∀ l, l < length (frames s) → frames s' !! l = frames s !! l) ∧
  frames s' !! df = Some d0 ∧
  (∀ l, l ≠ ghc → dicts s' !! l = dicts s !! l) ∧
  screen s' = screen s ∧
  ∃ adf, frames s' = frames s ++ [adf] ∧
    (∀ l, o = Ret l → l = length (frames s)) ∧
    (∀ c, c ≠ "House" → c ∈ columns adf ↔ c ∈ columns d0) ∧
    (∀ c, c ≠ "House" →
       map (λ r, cell r c) (rows adf) = map (λ r, cell r c) (rows d0)).
Proof.
  intros Hdf Hghc Hrun.
  destruct (assign_houses_outcome shuffle Hshuffle s df ghc d0 c0 Hdf Hghc o s' Hrun)
    as (adf & c' & n & -> & Hcols & Hlen & Hrows).
  split; [intros l Hl; by apply after_assign_old|].
  split; [rewrite after_assign_old; [done|by eapply lookup_lt_Some]|].
  split; [intros l Hl; unfold after_assign; cbn [dicts]; by rewrite list_lookup_insert_ne|].
  split; [done|].
  exists adf. split; [done|]. split; [|split].
  - intros l ->. rewrite (assign_houses_run _ _ _ _ d0 c0) in Hrun by done.
    destruct (groupby d0 _ _ _); [|done].
    destruct (for_each _ _ _) as [[[]|] ?]; congruence.
  - intros c Hc. rewrite Hcols. unfold setitem. cbn [columns].
    case_decide; [done|]. rewrite elem_of_app, list_elem_of_singleton.
    split; [intros [?|?]; [done|congruence]|by left].
  - intros c Hc. apply list_eq. intros p. rewrite !list_lookup_fmap.
    destruct (rows adf !! p) as [r'|] eqn:Hr'.
    + destruct (Hrows p r' Hr') as (r & v & -> & ->). simpl.
      by rewrite cell_insert_ne.
    + apply lookup_ge_None in Hr'. rewrite Hlen in Hr'.
      apply lookup_ge_None in Hr'. by rewrite Hr'.
Qed.

(** X4.  [assign_houses] returns on every table that has the three key
    columns when the counters hold the gender of every group, as the
    counters [fresh_counts] of the pages do for the genders M and F. *)
Lemma assign_houses_total s df ghc d0 c0 :
  frames s !! df = Some d0 →
  dicts s !! ghc = Some c0 →
  "Stream" ∈ columns d0 → "Semester" ∈ columns d0 → "Gender" ∈ columns d0 →
  (∀ r st sem g, r ∈ rows d0 →
     row_key "Stream" "Semester" "Gender" r = Some (st, sem, g) → is_Some (c0 !! g)) →
  ∃ s', assign_houses shuffle df ghc s = (Ret (length (frames s)), s').
Proof.
  intros Hdf Hghc H1 H2 H3 Hkeys.
  destruct (assign_houses_returns shuffle Hshuffle s df ghc d0 c0 Hdf Hghc _
              (groupby_columns d0 _ _ _ H1 H2 H3)) as (adf & c' & Hrun & _).
  - intros j st sem g index (Hj & _)%groups_lookup.
    apply list_elem_of_lookup_2, group_keys_elem in Hj as (r & Hr & Hk). eauto.
  - eauto.
Qed.

End claims.

(** * The visiting order, the cycle and the counters of one group *)

Lemma counter_value_insert_eq c g d h :
  counter_value (<[g := d]> c) g h = count_of d h.
Proof. unfold counter_value, count_of. by rewrite lookup_insert_eq. Qed.

Lemma counter_value_Some c g d h : c !! g = Some d → counter_value c g h = count_of d h.
Proof. intros Hg. unfold counter_value, count_of. by rewrite Hg. Qed.

Lemma counter_value_insert_ne c g g' d h :
  g ≠ g' → counter_value (<[g := d]> c) g' h = counter_value c g' h.
Proof. intros. unfold counter_value. by rewrite lookup_insert_ne. Qed.

Section visits.
Context (shuffle : nat → list nat → list nat).
Hypothesis Hshuffle : ∀ n l, shuffle n l ≡ₚ l.

Lemma assign_student_run s la ghc adf c g d cyc i idx h :
  frames s !! la = Some adf →
  dicts s !! ghc = Some c →
  c !! g = Some d →
  list_getitem cyc (i mod 4) = Ret h →
  assign_student la ghc g cyc (i, idx) s
  = (Ret (), with_objs s la (at_setitem adf idx "House" (VStr h)) ghc
               (<[g := <[h := count_of d h + 1]> d]> c) (rng_calls s)).
Proof.
  intros Hla Hghc Hg Hcyc.
  rewrite <- (with_objs_id s la adf ghc c Hla Hghc) at 1.
  apply lookup_lt_Some in Hla, Hghc.
  unfold assign_student. rewrite bind_run. unfold lift at 1. rewrite Hcyc.
  cbv beta iota. rewrite bind_run, frame_at_setitem_with_objs by done.
  cbv beta iota. by rewrite (counter_incr_with_objs s la ghc Hghc _ _ _ _ d).
Qed.

(** The turn of one group, with gender [g], on a store whose counters
    for [g] are [d]: the order [order] in which the houses are visited is
    the four house labels sorted by their counter in [d], labels with
    equal counters in palette order; the [i]-th row of the shuffled group gets the house
    at place [i mod 4] of that order; each single assignment adds one to
    the counter of [g] for the house it assigns and changes no other
    counter, so that the group adds to each counter the number of rows the
    house got. *)
Theorem assign_group_visits s la ghc adf c st sem g index d :
  frames s !! la = Some adf →
  dicts s !! ghc = Some c →
  c !! g = Some d →
  NoDup index →
  (∀ p, p ∈ index → p < length (rows adf)) →
  let students := shuffle (rng_calls s) index in
  let order := house_order d in
  let house_cycle := list_repeat order (length students / 4 + 1) in
  (order ≡ₚ keys HOUSE_COLORS ∧ StronglySorted (visits_before d) order) ∧
  (∃ s' adf' c',
     assign_group shuffle la ghc ((st, sem, g), index) s = (Ret (), s') ∧
     frames s' !! la = Some adf' ∧ dicts s' !! ghc = Some c' ∧
     (∀ i p, students !! i = Some p →
        (λ r, cell r "House") <$> rows adf' !! p = Some (VStr (dealt order i))) ∧
     (∀ h, counter_value c' g h
           = counter_value c g h + dealt_count order h (length students)) ∧
     (∀ g' h, g' ≠ g → counter_value c' g' h = counter_value c g' h)) ∧
  (∀ i p s1 adf1 c1,
     students !! i = Some p →
     frames s1 !! la = Some adf1 → dicts s1 !! ghc = Some c1 →
     is_Some (c1 !! g) → p < length (rows adf1) →
     ∃ s2 adf2 c2,
       assign_student la ghc g house_cycle (i, p) s1 = (Ret (), s2) ∧
       frames s2 !! la = Some adf2 ∧ dicts s2 !! ghc = Some c2 ∧
       (λ r, cell r "House") <$> rows adf2 !! p = Some (VStr (dealt order i)) ∧
       counter_value c2 g (dealt order i) = counter_value c1 g (dealt order i) + 1 ∧
       (∀ g' h, (g', h) ≠ (g, dealt order i) →
          counter_value c2 g' h = counter_value c1 g' h)).
Proof.
  intros Hla Hghc Hg Hnd Hrange students order house_cycle.
  split; [split; [apply house_order_Permutation|apply house_order_sorted]|].
  split.
  - pose proof (lookup_lt_Some _ _ _ Hla) as Hla'.
    pose proof (lookup_lt_Some _ _ _ Hghc) as Hghc'.
    destruct (assign_group_with_objs shuffle Hshuffle s la ghc Hla' Hghc'
                adf c (rng_calls s) st sem g index d Hg Hnd Hrange)
      as (adf' & d' & Hrun & _ & Hlen & Hdealt & _ & Hcnt).
    rewrite (with_objs_id s la adf ghc c Hla Hghc) in Hrun.
    eexists _, adf', (<[g := d']> c). split; [exact Hrun|].
    split; [unfold with_objs; cbn [frames]; by rewrite list_lookup_insert_eq|].
    split; [unfold with_objs; cbn [dicts]; by rewrite list_lookup_insert_eq|].
    split; [|split].
    + intros i p Hi. rewrite (Hdealt i p); [| |done].
      * assert (p ∈ index) as Hp.
        { rewrite <- (Hshuffle (rng_calls s) index). by eapply list_elem_of_lookup_2. }
        destruct (lookup_lt_is_Some_2 (rows adf) p (Hrange p Hp)) as [r Hr].
        rewrite Hr. simpl. by rewrite cell_insert_eq.
      * apply lookup_lt_Some in Hi. unfold students in Hi.
        by rewrite (Permutation_length (Hshuffle _ _)) in Hi.
    + intros h. rewrite counter_value_insert_eq, (counter_value_Some c g d) by done.
      unfold students. by rewrite (Permutation_length (Hshuffle _ _)).
    + intros g' h Hne. by apply counter_value_insert_ne.
  - intros i p s1 adf1 c1 Hi Hla1 Hghc1 [d1 Hd1] Hp.
    pose proof (lookup_lt_Some _ _ _ Hla1) as Hla'.
    pose proof (lookup_lt_Some _ _ _ Hghc1) as Hghc'.
    eexists _, _, _. split.
    { eapply assign_student_run; [done..|].
      apply house_cycle_lookup, house_order_length. }
    split; [unfold with_objs; cbn [frames]; by rewrite list_lookup_insert_eq|].
    split; [unfold with_objs; cbn [dicts]; by rewrite list_lookup_insert_eq|].
    split; [|split].
    + rewrite at_setitem_rows, list_lookup_alter_eq by done.
      destruct (lookup_lt_is_Some_2 (rows adf1) p Hp) as [r Hr].
      rewrite Hr. simpl. by rewrite cell_insert_eq.
    + rewrite counter_value_insert_eq, (counter_value_Some c1 g d1) by done.
      unfold count_of at 1. by rewrite lookup_insert_eq.
    + intros g' h Hne. destruct (decide (g = g')) as [<-|Hg'].
      * rewrite counter_value_insert_eq, (counter_value_Some c1 g d1) by done.
        unfold count_of at 1. rewrite lookup_insert_ne; [done|]. congruence.
      * by apply counter_value_insert_ne.
Qed.

End visits.

(** * The access gate *)

(** C6.  The gate grants access exactly when the entered string is the
    reference password; it shows an error for every other string that is
    not empty, and nothing but its input field for the empty string and
    for the password itself. *)
Theorem verify_password_gate ui s :
  ((verify_password ui s).1 = Ret true ↔ password ui = "nfsu@123") ∧
  (password ui = "nfsu@123" →
     verify_password ui s
     = (Ret true, shows s [StSidebarWidget "Enter Admin Password"])) ∧
  (password ui ≠ "nfsu@123" → password ui ≠ "" →
     verify_password ui s
     = (Ret false, shows s [StSidebarWidget "Enter Admin Password";
                            StSidebarError IncorrectPassword])) ∧
  (password ui = "" →
     verify_password ui s
     = (Ret false, shows s [StSidebarWidget "Enter Admin Password"])).
Proof.
  assert (password ui = "nfsu@123" →
          verify_password ui s
          = (Ret true, shows s [StSidebarWidget "Enter Admin Password"])) as Hok.
  { intros Heq. unfold verify_password. rewrite bind_run.
    change (emit ?e s) with (Ret (), shows s [e]). cbv beta iota.
    by rewrite Heq. }
  assert (password ui ≠ "nfsu@123" → password ui ≠ "" →
          verify_password ui s
          = (Ret false, shows s [StSidebarWidget "Enter Admin Password";
                                 StSidebarError IncorrectPassword])) as Hbad.
  { intros Hne Hne'. unfold verify_password. rewrite bind_run.
    change (emit ?e s) with (Ret (), shows s [e]). cbv beta iota.
    apply String.eqb_neq in Hne, Hne'. rewrite Hne, Hne'. cbn [negb].
    rewrite bind_run.
    change (emit ?e ?s0) with (Ret (), shows s0 [e]). cbv beta iota.
    unfold shows. cbn [frames dicts rng_calls screen]. by rewrite <- app_assoc. }
  assert (password ui = "" →
          verify_password ui s
          = (Ret false, shows s [StSidebarWidget "Enter Admin Password"])) as Hempty.
  { intros Heq. unfold verify_password. rewrite bind_run.
    change (emit ?e s) with (Ret (), shows s [e]). cbv beta iota.
    by rewrite Heq. }
  split; [|done]. split.
  - intros Hgranted.
    destruct (decide (password ui = "nfsu@123")) as [|Hne]; [done|].
    destruct (decide (password ui = "")) as [He|Hne'].
    + by rewrite Hempty in Hgranted.
    + by rewrite Hbad in Hgranted.
  - intros Heq. by rewrite Hok.
Qed.

(** * Row filters *)

Lemma filter_bool_decide {A} (P : A → Prop) `{∀ x, Decision (P x)} (l : list A) :
  List.filter (λ x, bool_decide (P x)) l = filter P l.
Proof.
  induction l as [|x l IH]; [done|].
  rewrite filter_cons. cbn [List.filter]. rewrite IH.
  destruct (decide (P x)) as [HP|HP];
    [rewrite bool_decide_eq_true_2 by done|rewrite bool_decide_eq_false_2 by done];
    done.
Qed.

Lemma filter_all {A} (P : A → Prop) `{∀ x, Decision (P x)} (l : list A) :
  (∀ x, P x) → filter P l = l.
Proof.
  intros HP. induction l as [|x l IH]; [done|].
  rewrite filter_cons, IH. destruct (decide (P x)) as [|Hx]; [done|].
  destruct (Hx (HP x)).
Qed.

Lemma outcome_bind_Ret_inv {A B} (m : outcome A) (f : A → outcome B) b :
  m ≫= f = Ret b → ∃ a, m = Ret a ∧ f a = Ret b.
Proof. destruct m as [a|e]; [eauto|done]. Qed.

Lemma filter_if_selected_Ret c sel df filtered :
  filter_if_selected c sel df = Ret filtered →
  columns filtered = columns df ∧
  rows filtered = filter (keeps c sel) (rows df).
Proof.
  unfold filter_if_selected. destruct sel as [|v sel].
  - intros [= <-]. split; [done|].
    symmetry. apply filter_all. intros r. by left.
  - unfold isin_filter.
    intros (col & _ & [= <-])%outcome_bind_Ret_inv. split; [done|].
    unfold select. cbn [rows]. rewrite filter_bool_decide.
    apply list_filter_iff. intros r. unfold keeps. split; [by right|].
    by intros [?|?].
Qed.

(** The table [apply_filters] computes for the pages is filtered by the three
    selections, one dimension after the other: on a dimension whose
    selection is empty every row is kept, and on a dimension with a
    selection exactly the rows whose cell is one of the selected values
    are kept ([keeps]).  The columns and the order of the rows are those
    of the table. *)
Theorem apply_filters_keeps df ui filtered :
  apply_filters df ui = Ret filtered →
  columns filtered = columns df ∧
  rows filtered
  = filter (λ r, keeps "Gender" (selected_gender ui) r ∧
                 keeps "Semester" (selected_sems ui) r ∧
                 keeps "Stream" (selected_streams ui) r) (rows df) ∧
  (∀ c sel f, filter_if_selected c sel df = Ret f →
     (sel = [] → f = df) ∧
     (sel ≠ [] → ∀ r, r ∈ rows f ↔ r ∈ rows df ∧ cell r c ∈ sel)).
Proof.
  unfold apply_filters.
  intros (f1 & (Hc1 & Hr1)%filter_if_selected_Ret &
          (f2 & (Hc2 & Hr2)%filter_if_selected_Ret &
           (Hc3 & Hr3)%filter_if_selected_Ret)%outcome_bind_Ret_inv)%outcome_bind_Ret_inv.
  split; [congruence|]. split.
  - rewrite Hr3, Hr2, Hr1, !list_filter_filter.
    apply list_filter_iff. intros r. tauto.
  - intros c sel f Hf. split.
    + intros ->. by injection Hf.
    + intros Hsel r. apply filter_if_selected_Ret in Hf as [_ ->].
      rewrite list_elem_of_filter. unfold keeps.
      split; [intros [[?|?] ?]; done|intros [? ?]; split; [by right|done]].
Qed.

Lemma lift_inv {A} (x : outcome A) s o s' : lift x s = (o, s') → x = o ∧ s' = s.
Proof. by intros [= <- <-]. Qed.

Lemma multiselect_Ret {A} `{EqDecision A} label (options default : list A) s s' :
  multiselect label options default s = (Ret (), s') →
  s' = shows s [StSidebarWidget label].
Proof. unfold multiselect. destruct (forallb _ _); [|done]. by intros [= <-]. Qed.

(** X12.  The raw-view page, when it returns, has shown its subheader and
    its four selectors and ends with the table it computed: the rows
    [apply_filters] keeps, cut down to the selected columns. *)
Lemma view_data_page_shows df ui s s' d :
  frames s !! df = Some d →
  view_data_page df ui s = (Ret (), s') →
  ∃ filtered shown,
    apply_filters d ui = Ret filtered ∧
    project (selected_cols ui) filtered = Ret shown ∧
    screen s'
    = screen s ++ [StSubheader "View Student Data";
                   StSidebarWidget "Filter by Stream";
                   StSidebarWidget "Filter by Semester";
                   StSidebarWidget "Filter by Gender";
                   StSidebarWidget "Select Columns to Display";
                   StDataframe shown []].
Proof.
  intros Hdf. unfold view_data_page.
  intros ([] & s1 & [= <-] & Hrun)%bind_Ret_inv.
  apply bind_Ret_inv in Hrun as (d' & s2 & Hget & Hrun).
  unfold get_frame in Hget. cbn [frames] in Hget. rewrite Hdf in Hget.
  injection Hget as <- <-.
  apply bind_Ret_inv in Hrun as (col & s3 & [_ ->]%lift_inv & Hrun).
  apply bind_Ret_inv in Hrun as (streams & s3 & [_ ->]%lift_inv & Hrun).
  apply bind_Ret_inv in Hrun as (col' & s3 & [_ ->]%lift_inv & Hrun).
  apply bind_Ret_inv in Hrun as (semesters & s3 & [_ ->]%lift_inv & Hrun).
  apply bind_Ret_inv in Hrun as ([] & s3 & ->%multiselect_Ret & Hrun).
  apply bind_Ret_inv in Hrun as ([] & s3 & ->%multiselect_Ret & Hrun).
  apply bind_Ret_inv in Hrun as ([] & s3 & ->%multiselect_Ret & Hrun).
  apply bind_Ret_inv in Hrun as ([] & s3 & ->%multiselect_Ret & Hrun).
  apply bind_Ret_inv in Hrun as (filtered & s3 & [Hf ->]%lift_inv & Hrun).
  apply bind_Ret_inv in Hrun as (shown & s3 & [Hp ->]%lift_inv & Hrun).
  injection Hrun as <-.
  exists filtered, shown. split; [done|]. split; [done|].
  cbn [shows screen]. by rewrite <- !app_assoc.
Qed.

(** * What a computation shows *)

Section emits.
Context (ok : event → Prop).

Lemma emits_only_ret {A} (a : A) : emits_only ok (mret a).
Proof. intros s o s' [= <- <-]. exists []. by rewrite app_nil_r. Qed.

Lemma emits_only_bind {A B} (m : M A) (f : A → M B) :
  emits_only ok m → (∀ a, emits_only ok (f a)) → emits_only ok (m ≫= f).
Proof.
  intros Hm Hf s o s' [(a & s1 & H1 & H2)|(e & H1 & ->)]%bind_inv.
  - destruct (Hm _ _ _ H1) as (es1 & E1 & Hes1).
    destruct (Hf a _ _ _ H2) as (es2 & E2 & Hes2).
    exists (es1 ++ es2). rewrite E2, E1, app_assoc. split; [done|]. by apply Forall_app.
  - eauto.
Qed.

Lemma emits_only_silent {A} (m : M A) :
  (∀ s, screen (m s).2 = screen s) → emits_only ok m.
Proof.
  intros Hm s o s' Hrun. exists []. rewrite app_nil_r.
  specialize (Hm s). by rewrite Hrun in Hm.
Qed.

Lemma emits_only_raise {A} e : emits_only ok (raise e : M A).
Proof. by apply emits_only_silent. Qed.

Lemma emits_only_lift {A} (x : outcome A) : emits_only ok (lift x).
Proof. by apply emits_only_silent. Qed.

Lemma emits_only_get_frame l : emits_only ok (get_frame l).
Proof. apply emits_only_silent. intros s. unfold get_frame. by destruct (_ !! _). Qed.

Lemma emits_only_set_frame l df : emits_only ok (set_frame l df).
Proof. by apply emits_only_silent. Qed.

Lemma emits_only_new_frame df : emits_only ok (new_frame df).
Proof. by apply emits_only_silent. Qed.

Lemma emits_only_get_dict l : emits_only ok (get_dict l).
Proof. apply emits_only_silent. intros s. unfold get_dict. by destruct (_ !! _). Qed.

Lemma emits_only_set_dict l c : emits_only ok (set_dict l c).
Proof. by apply emits_only_silent. Qed.

Lemma emits_only_new_dict c : emits_only ok (new_dict c).
Proof. by apply emits_only_silent. Qed.

Lemma emits_only_random_shuffle shuffle l : emits_only ok (random_shuffle shuffle l).
Proof. by apply emits_only_silent. Qed.

Lemma emits_only_emit e : ok e → emits_only ok (emit e).
Proof. intros He s o s' [= <- <-]. exists [e]. split; [done|]. by constructor. Qed.

Lemma emits_only_for_each {A} (l : list A) (body : A → M unit) :
  (∀ a, emits_only ok (body a)) → emits_only ok (for_each l body).
Proof.
  intros Hbody. induction l as [|a l IH]; simpl.
  - apply emits_only_ret.
  - apply emits_only_bind; [done|]. by intros _.
Qed.

Lemma emits_only_map_each {A B} (f : A → M B) (l : list A) :
  (∀ a, emits_only ok (f a)) → emits_only ok (map_each f l).
Proof.
  intros Hf. induction l as [|a l IH]; simpl.
  - apply emits_only_ret.
  - apply emits_only_bind; [done|]. intros b.
    apply emits_only_bind; [done|]. intros bs. apply emits_only_ret.
Qed.

End emits.

Create HintDb emits discriminated.

#[export] Hint Resolve emits_only_ret emits_only_raise emits_only_lift
  emits_only_get_frame emits_only_set_frame emits_only_new_frame
  emits_only_get_dict emits_only_set_dict emits_only_new_dict
  emits_only_random_shuffle : emits.

(** Goes through a computation built from the primitives above; [tac]
    solves the steps that are not primitive, such as showing an event. *)
Ltac emits_with tac :=
  repeat first
    [ progress intros
    | solve [auto with emits]
    | solve [tac]
    | apply emits_only_bind
    | apply emits_only_for_each
    | apply emits_only_map_each
    | match goal with
      | |- emits_only _ (if ?b then _ else _) => destruct b
      | |- emits_only _ (match ?x with _ => _ end) => destruct x
      end ].

Section assign_houses_emits.
Context (ok : event → Prop) (shuffle : nat → list nat → list nat).

Lemma emits_only_assign_houses df ghc : emits_only ok (assign_houses shuffle df ghc).
Proof.
  unfold assign_houses, frame_setitem, assign_group, sorted_houses, assign_student,
    frame_at_setitem, counter_incr, counter_read.
  emits_with fail.
Qed.

End assign_houses_emits.

(** * The pages and [main] *)

Section pages_emit.
Context (ok : event → Prop) (shuffle : nat → list nat → list nat).
Hypothesis Hok : ∀ e,
  e ≠ StWarning HouseDistributionNotFound → (∀ m, e ≠ StError m) → ok e.

Local Ltac allowed := apply Hok; [discriminate|intros ?; discriminate].
Local Ltac shown := apply emits_only_emit; allowed.

Lemma emits_only_multiselect {A} `{EqDecision A} label (options default : list A) :
  emits_only ok (multiselect label options default).
Proof. unfold multiselect. emits_with shown. Qed.

Lemma emits_only_verify_password ui : emits_only ok (verify_password ui).
Proof. unfold verify_password. emits_with shown. Qed.

Lemma emits_only_view_data_page df ui : emits_only ok (view_data_page df ui).
Proof.
  unfold view_data_page.
  emits_with ltac:(first [shown | apply emits_only_multiselect]).
Qed.

Lemma emits_only_house_distribution_page df ui :
  emits_only ok (house_distribution_page shuffle df ui).
Proof.
  unfold house_distribution_page.
  emits_with ltac:(first [shown | apply emits_only_multiselect
                          | apply emits_only_assign_houses]).
Qed.

(** The part of [visualize_page] that follows the test for the [House]
    column. *)
Lemma visualize_page_House df ui s adf o s' :
  frames s !! df = Some adf →
  "House" ∈ columns adf →
  visualize_page df ui s = (o, s') →
  ∃ es, screen s' = screen s ++ es ∧ Forall ok es.
Proof.
  intros Hdf HHouse. unfold visualize_page. rewrite bind_run.
  change (emit ?e s) with (Ret (), shows s [e]). cbv beta iota.
  rewrite bind_run. unfold get_frame at 1.
  change (frames (shows s ?es)) with (frames s). rewrite Hdf.
  rewrite bool_decide_eq_true_2 by done. cbn [negb].
  intros Hrun.
  match type of Hrun with ?m _ = _ => assert (emits_only ok m) as Hm end.
  { emits_with shown. }
  destruct (Hm _ _ _ Hrun) as (es & Hes & Hall).
  exists (StSubheader "House Distribution Visualization" :: es).
  split; [|constructor; [allowed|done]].
  rewrite Hes. unfold shows. cbn [screen]. by rewrite <- app_assoc.
Qed.

End pages_emit.

Lemma issubset_false cols df :
  issubset cols df = false ↔ ∃ c, c ∈ cols ∧ c ∉ columns df.
Proof.
  unfold issubset. induction cols as [|c cols IH]; simpl.
  - split; [done|]. intros (c & Hc & _). by apply elem_of_nil in Hc.
  - rewrite andb_false_iff, IH, bool_decide_eq_false. split.
    + intros [Hc|(c' & Hc' & Hn)]; [exists c|exists c']; split; try done;
        [by left|by right].
    + intros (c' & [->|Hc']%elem_of_cons & Hn); [by left|right; eauto].
Qed.

Section main.
Context (shuffle : nat → list nat → list nat).

Lemma main_run w ui :
  main shuffle w ui initial
  = match data_folder w with
    | Missing =>
        (Ret (), shows initial [StPageConfig; StTitle; StError FolderNotFound])
    | _ =>
        match load_all_students_from_data_folder w with
        | Raise e => (Raise e, shows initial [StPageConfig; StTitle])
        | Ret loaded =>
            if issubset required_cols loaded
            then menu_page shuffle ui (at_menu loaded)
            else (Ret (), mkState [loaded] [] 0
                            [StPageConfig; StTitle; StError MissingRequiredColumns])
        end
    end.
Proof.
  unfold main, path_exists.
  destruct (data_folder w) eqn:Hw; [done| |].
  all: rewrite !bind_run; cbn [emit initial frames dicts rng_calls screen app negb];
    rewrite !bind_run; cbn [emit initial frames dicts rng_calls screen app negb].
  all: unfold lift at 1; cbv beta iota;
    destruct (load_all_students_from_data_folder w) as [loaded|e]; [|done].
  all: rewrite bind_run; unfold new_frame at 1;
    cbn [frames dicts rng_calls screen app length];
    destruct (issubset required_cols loaded); [|done].
  all: cbn [negb]; rewrite bind_run; done.
Qed.

End main.

Section main_claims.
Context (shuffle : nat → list nat → list nat).

Lemma menu_page_no_error ui :
  emits_only (λ e, ∀ m, e ≠ StError m) (menu_page shuffle ui).
Proof.
  unfold menu_page, visualize_page.
  emits_with ltac:(first
    [ apply emits_only_emit; intros ?; discriminate
    | apply emits_only_house_distribution_page; auto
    | apply emits_only_view_data_page; auto
    | apply emits_only_verify_password; auto
    | apply emits_only_assign_houses ]).
Qed.

(** C5.  [main] shows an error message in the main area in exactly two
    cases: nothing exists at [DATA_FOLDER], or the loaded table lacks one
    of the required columns.  In both it returns with the page
    configuration, the title and the message on the screen and nothing
    else: no menu, no page, no counters, no call of the generator. *)
Theorem main_error_halts w ui :
  ((∃ m, StError m ∈ screen (main shuffle w ui initial).2) ↔
   folder_missing w ∨ columns_missing w) ∧
  (folder_missing w →
     main shuffle w ui initial
     = (Ret (), mkState [] [] 0 [StPageConfig; StTitle; StError FolderNotFound])) ∧
  (columns_missing w →
     ∃ loaded, load_all_students_from_data_folder w = Ret loaded ∧
       main shuffle w ui initial
       = (Ret (), mkState [loaded] [] 0
                    [StPageConfig; StTitle; StError MissingRequiredColumns])).
Proof.
  assert (folder_missing w →
          main shuffle w ui initial
          = (Ret (), mkState [] [] 0 [StPageConfig; StTitle; StError FolderNotFound]))
    as Hmissing.
  { unfold folder_missing. intros Hw. by rewrite main_run, Hw. }
  assert (columns_missing w →
          ∃ loaded, load_all_students_from_data_folder w = Ret loaded ∧
            main shuffle w ui initial
            = (Ret (), mkState [loaded] [] 0
                         [StPageConfig; StTitle; StError MissingRequiredColumns]))
    as Hcolumns.
  { intros (loaded & Hload & Hc). exists loaded. split; [done|].
    apply issubset_false in Hc. rewrite main_run, Hload, Hc.
    destruct (data_folder w) eqn:Hw; [|done..].
    unfold load_all_students_from_data_folder in Hload. by rewrite Hw in Hload. }
  split; [|done]. split.
  - clear Hmissing Hcolumns. intros [m Hm]. rewrite main_run in Hm.
    destruct (data_folder w) eqn:Hw; [by left| |].
    all: right; unfold columns_missing.
    all: destruct (load_all_students_from_data_folder w) as [loaded|e];
      [|exfalso; cbn in Hm;
        repeat (apply elem_of_cons in Hm as [Hm|Hm]; [discriminate|]);
        by apply elem_of_nil in Hm].
    all: exists loaded; split; [done|]; apply issubset_false.
    all: destruct (issubset required_cols loaded); [exfalso|done].
    all: destruct (menu_page shuffle ui (at_menu loaded)) as [o s'] eqn:Hrun;
      destruct (menu_page_no_error ui _ _ _ Hrun) as (es & Hes & Hall);
      cbn [snd] in Hm; rewrite Hes in Hm; cbn [at_menu screen] in Hm;
      apply elem_of_app in Hm as [Hm|Hm];
      [repeat (apply elem_of_cons in Hm as [Hm|Hm]; [discriminate|]);
       by apply elem_of_nil in Hm|];
      rewrite list.Forall_forall in Hall; by apply (Hall _ Hm m).
  - intros [Hw|Hc].
    + rewrite (Hmissing Hw). exists FolderNotFound. cbn.
      do 2 apply list_elem_of_further. apply list_elem_of_here.
    + destruct (Hcolumns Hc) as (loaded & _ & ->).
      exists MissingRequiredColumns. cbn.
      do 2 apply list_elem_of_further. apply list_elem_of_here.
Qed.

End main_claims.

Lemma setitem_column df c v : c ∈ columns (setitem df c v).
Proof.
  unfold setitem. cbn [columns]. case_decide; [done|].
  apply elem_of_app. right. apply list_elem_of_here.
Qed.

Section visualize.
Context (shuffle : nat → list nat → list nat).
Hypothesis Hshuffle : ∀ n l, shuffle n l ≡ₚ l.

Lemma assign_houses_House s df ghc d0 c0 l s' :
  frames s !! df = Some d0 →
  dicts s !! ghc = Some c0 →
  assign_houses shuffle df ghc s = (Ret l, s') →
  ∃ adf, frames s' !! l = Some adf ∧ "House" ∈ columns adf ∧ screen s' = screen s.
Proof.
  intros Hdf Hghc Hrun.
  destruct (assign_houses_returned shuffle Hshuffle s df ghc d0 c0 Hdf Hghc l s' Hrun)
    as (groups & adf & c' & _ & -> & -> & (Hcols & _) & _).
  exists adf. split; [apply after_assign_new|]. split; [|done].
  rewrite Hcols. apply setitem_column.
Qed.

Lemma menu_page_no_House_warning ui loaded o s' :
  menu_page shuffle ui (at_menu loaded) = (o, s') →
  ∃ es, screen s' = screen (at_menu loaded) ++ es ∧
        Forall (λ e, e ≠ StWarning HouseDistributionNotFound) es.
Proof.
  set (ok := λ e, e ≠ StWarning HouseDistributionNotFound).
  assert (∀ e, e ≠ StWarning HouseDistributionNotFound →
               (∀ m, e ≠ StError m) → ok e) as Hok by (intros e He _; exact He).
  unfold menu_page.
  destruct (String.eqb (menu ui) "House Distribution").
  { apply (emits_only_house_distribution_page ok shuffle Hok). }
  destruct (String.eqb (menu ui) "Visualize").
  2: { destruct (String.eqb (menu ui) "View Data"); [|apply emits_only_ret].
       apply emits_only_bind; [by apply emits_only_verify_password|].
       intros []; cbn [negb].
       - by apply emits_only_view_data_page.
       - apply emits_only_emit. discriminate. }
  rewrite bind_run. unfold new_dict at 1. cbv beta iota.
  cbn [at_menu frames dicts rng_calls screen length app].
  set (s2 := mkState [loaded] [fresh_counts] 0 _).
  rewrite bind_run.
  destruct (assign_houses shuffle 0 0 s2) as [[l|e] s3] eqn:Hassign.
  - destruct (assign_houses_House s2 0 0 loaded fresh_counts l s3)
      as (adf & Hadf & HHouse & Hscreen); [done..|].
    intros Hviz.
    destruct (visualize_page_House ok Hok l ui s3 adf o s' Hadf HHouse Hviz)
      as (es & Hes & Hall).
    exists es. by rewrite Hes, Hscreen.
  - intros [= <- <-].
    apply (emits_only_assign_houses ok shuffle 0 0) in Hassign as (es & Hes & Hall).
    exists es. by rewrite Hes.
Qed.

(** C10.  [main] hands [visualize_page] the frame [assign_houses] returned,
    and that frame has a [House] column; so the warning of the page for a
    table without that column is never shown, whatever [main] finds in
    the folder and whatever the user selects. *)
Theorem visualize_page_has_House w ui :
  (∀ s df ghc d0 c0 l s',
     frames s !! df = Some d0 → dicts s !! ghc = Some c0 →
     assign_houses shuffle df ghc s = (Ret l, s') →
     ∃ adf, frames s' !! l = Some adf ∧ "House" ∈ columns adf) ∧
  Forall (λ e, e ≠ StWarning HouseDistributionNotFound)
         (screen (main shuffle w ui initial).2).
Proof.
  split.
  { intros s df ghc d0 c0 l s' Hdf Hghc Hrun.
    destruct (assign_houses_House s df ghc d0 c0 l s' Hdf Hghc Hrun)
      as (adf & ? & ? & _). eauto. }
  rewrite main_run.
  destruct (data_folder w); [cbn; repeat constructor; discriminate| |].
  all: destruct (load_all_students_from_data_folder w) as [loaded|e];
    [|cbn; repeat constructor; discriminate].
  all: destruct (issubset required_cols loaded);
    [|cbn; repeat constructor; discriminate].
  all: destruct (menu_page shuffle ui (at_menu loaded)) as [o s'] eqn:Hrun;
    destruct (menu_page_no_House_warning ui loaded o s' Hrun) as (es & Hes & Hall);
    cbn [snd]; rewrite Hes; apply Forall_app; split; [|done];
    cbn; repeat constructor; discriminate.
Qed.

End visualize.

(** * The Excel download *)

Lemma writer_bind_run {A B} (m : W A) (f : A → W B) writer :
  (m ≫= f) writer = match m writer with
                    | (Ret a, writer') => f a writer'
                    | (Raise e, writer') => (Raise e, writer')
                    end.
Proof. done. Qed.

Lemma writer_bind_Ret_inv {A B} (m : W A) (f : A → W B) writer b writer' :
  (m ≫= f) writer = (Ret b, writer') →
  ∃ a writer1, m writer = (Ret a, writer1) ∧ f a writer1 = (Ret b, writer').
Proof.
  rewrite writer_bind_run. destruct (m writer) as [[a|e] writer1]; [eauto|done].
Qed.

Lemma lift_writer_inv {A} (x : outcome A) writer o writer' :
  lift_writer x writer = (o, writer') → x = o ∧ writer' = writer.
Proof. by intros [= <- <-]. Qed.

Lemma for_each_writer_app {A} (l1 l2 : list A) (body : A → W unit) writer :
  for_each_writer (l1 ++ l2) body writer
  = (for_each_writer l1 body;; for_each_writer l2 body) writer.
Proof.
  revert writer. induction l1 as [|a l1 IH]; intros writer.
  - cbn [app for_each_writer]. by rewrite writer_bind_run.
  - cbn [app for_each_writer]. rewrite !writer_bind_run.
    destruct (body a writer) as [[[]|e] writer1]; [|done].
    by rewrite IH, writer_bind_run.
Qed.

(** Two nested loops are one loop over the pairs. *)
Lemma for_each_writer_nested {A C} (l : list A) (inner : A → list C)
    (body : A → C → W unit) writer :
  for_each_writer l (λ a, for_each_writer (inner a) (body a)) writer
  = for_each_writer (flat_map (λ a, map (pair a) (inner a)) l)
      (λ p, body p.1 p.2) writer.
Proof.
  revert writer. induction l as [|a l IH]; intros writer; [done|].
  cbn [for_each_writer flat_map]. rewrite for_each_writer_app, !writer_bind_run.
  assert (∀ cs writer, for_each_writer cs (body a) writer
            = for_each_writer (map (pair a) cs) (λ p, body p.1 p.2) writer) as Hin.
  { induction cs as [|c cs IHc]; intros writer0; [done|].
    cbn [map for_each_writer fst snd]. rewrite !writer_bind_run.
    destruct (body a c writer0) as [[[]|e] writer1]; [apply IHc|done]. }
  rewrite <- Hin.
  destruct (for_each_writer (inner a) (body a) writer) as [[[]|e] writer1]; [apply IH|done].
Qed.

Lemma project_Ret cols df p :
  project cols df = Ret p →
  p = {| columns := cols; rows := map (restrict cols) (rows df) |}.
Proof. unfold project. destruct (first_missing cols df); [done|]. by intros [= <-]. Qed.

(** What one turn of the inner loop does when it returns. *)
Lemma to_excel_Ret name df writer writer' :
  to_excel name df writer = (Ret (), writer') →
  writer' = write_cells writer name (frame_cells df).
Proof.
  unfold to_excel. case_bool_decide; [by intros [= <-]|].
  destruct (existsb _ _); [done|]. by intros [= <-].
Qed.

Lemma export_group_Ret df stream gender writer writer' :
  export_group df stream gender writer = (Ret (), writer') →
  if empty (exported df (stream, gender))
  then writer' = writer
  else is_str stream = true ∧
       writer' = write_cells writer (export_sheet df (stream, gender)).1
                                    (export_sheet df (stream, gender)).2.
Proof.
  unfold export_group.
  intros (? & w1 & [_ ->]%lift_writer_inv & Hrun)%writer_bind_Ret_inv.
  apply writer_bind_Ret_inv in Hrun as (? & w1 & [_ ->]%lift_writer_inv & Hrun).
  cbv zeta in Hrun.
  change (select _ df) with (exported df (stream, gender)) in Hrun.
  destruct (empty (exported df (stream, gender))); [by injection Hrun|].
  apply writer_bind_Ret_inv in Hrun as (p & w1 & [->%project_Ret ->]%lift_writer_inv & Hrun).
  destruct stream as [|z|s]; try done. split; [done|].
  by apply to_excel_Ret in Hrun.
Qed.

Lemma fold_export_group df pairs : ∀ acc wb,
  for_each_writer pairs (λ p, export_group df p.1 p.2) acc = (Ret (), wb) →
  wb = foldl (λ w sh, write_cells w sh.1 sh.2) acc
         (map (export_sheet df)
              (List.filter (λ p, negb (empty (exported df p))) pairs)) ∧
  Forall (λ p, empty (exported df p) = false → is_str p.1 = true) pairs.
Proof.
  induction pairs as [|[st g] pairs IH]; intros acc wb Hrun.
  - injection Hrun as <-. done.
  - cbn [for_each_writer] in Hrun.
    apply writer_bind_Ret_inv in Hrun as ([] & acc' & Hstep & Hrun).
    apply export_group_Ret in Hstep. cbn [fst snd] in Hstep.
    destruct (IH _ _ Hrun) as [-> Hall]. cbn [List.filter].
    destruct (empty (exported df (st, g))) eqn:He; cbn [negb].
    + subst acc'. split; [done|]. constructor; [intros ?; congruence|done].
    + destruct Hstep as [Hstr ->]. split; [done|]. constructor; [done|done].
Qed.

Lemma write_cells_fresh writer name cells :
  name ∉ map fst writer → write_cells writer name cells = writer ++ [(name, cells)].
Proof.
  induction writer as [|[n old] writer IH]; intros Hfresh; [done|].
  cbn [write_cells]. cbn [map fst] in Hfresh.
  apply not_elem_of_cons in Hfresh as [Hne Hfresh].
  destruct (String.eqb_spec n name) as [->|_]; [done|].
  by rewrite IH.
Qed.

Lemma foldl_write_cells_fresh sheets : ∀ acc,
  NoDup (map fst (acc ++ sheets)) →
  foldl (λ w sh, write_cells w sh.1 sh.2) acc sheets = acc ++ sheets.
Proof.
  induction sheets as [|[n cells] sheets IH]; intros acc Hnd.
  - by rewrite app_nil_r.
  - cbn [foldl fst snd]. rewrite write_cells_fresh.
    + rewrite IH; [by rewrite <- app_assoc|]. by rewrite <- app_assoc.
    + rewrite map_app in Hnd. apply list.NoDup_app in Hnd as (_ & Hnd & _).
      intros Hin. apply (Hnd _ Hin). cbn. left.
Qed.

Lemma export_pairs_elem df st g :
  (st, g) ∈ export_pairs df ↔
  (∃ r, r ∈ rows df ∧ cell r "Stream" = st) ∧ (g = "M" ∨ g = "F").
Proof.
  unfold export_pairs. rewrite list_elem_of_In, in_flat_map. split.
  - intros (st' & Hst & Hin). apply list_elem_of_In in Hst.
    rewrite py_sorted_Permutation in Hst. unfold unique in Hst.
    rewrite elem_of_remove_dups in Hst.
    apply list_elem_of_In, in_map_iff in Hst as (r & <- & Hr%list_elem_of_In).
    destruct Hin as [[= <- <-]|[[= <- <-]|[]]]; eauto.
  - intros [(r & Hr & <-) Hg]. exists (cell r "Stream"). split.
    + apply list_elem_of_In. rewrite py_sorted_Permutation. unfold unique.
      rewrite elem_of_remove_dups. apply list_elem_of_In.
      apply (in_map (λ r, cell r "Stream")). by apply list_elem_of_In.
    + destruct Hg as [-> | ->]; cbn; auto.
Qed.

(** Under distinct worksheet names the download holds one worksheet per
    pair that has rows, in the order of the loops; and a download that
    returns found a string in every Stream cell. *)
Lemma get_excel_download_sheets df wb :
  get_excel_download df = Ret wb →
  NoDup (sheet_names df) →
  wb = map (export_sheet df) (active_pairs df) ∧
  "Stream" ∈ columns df ∧
  (∀ r, r ∈ rows df → is_str (cell r "Stream") = true).
Proof.
  unfold get_excel_download, with_ExcelWriter.
  match goal with
  | |- context [match ?block [] with _ => _ end] =>
      destruct (block []) as [[[]|e] writer] eqn:Hblock
  end; intros Hsave Hnd.
  2: { by destruct writer. }
  assert (writer = wb ∧ wb ≠ []) as [-> Hne].
  { destruct writer; [done|]. by injection Hsave as <-. }
  clear Hsave.
  apply writer_bind_Ret_inv in Hblock as (col & w1 & [Hcol ->]%lift_writer_inv & Hblock).
  apply writer_bind_Ret_inv in Hblock
    as (streams & w1 & [Hstreams ->]%lift_writer_inv & Hfold).
  rewrite (for_each_writer_nested streams (λ _, ["M"; "F"]) (export_group df)) in Hfold.
  apply fold_export_group in Hfold as [Hwb Hall]. cbn [foldl] in Hwb.
  unfold getitem in Hcol. case_decide as HStream; [|done]. injection Hcol as <-.
  unfold sorted_values in Hstreams.
  destruct (_ || _) eqn:Hkinds; [|done]. injection Hstreams as <-.
  change (flat_map _ _) with (export_pairs df) in Hwb, Hall.
  change (List.filter _ (export_pairs df)) with (active_pairs df) in Hwb.
  rewrite foldl_write_cells_fresh in Hwb
    by (cbn [app]; unfold sheet_names in Hnd; by rewrite map_map).
  cbn [app] in Hwb. split; [done|]. split; [done|].
  rewrite list.Forall_forall in Hall.
  assert (∀ v, v ∈ unique (map (λ r, cell r "Stream") (rows df)) ↔
               ∃ r, r ∈ rows df ∧ cell r "Stream" = v) as Hunique.
  { intros v. unfold unique. rewrite elem_of_remove_dups, list_elem_of_In, in_map_iff.
    split; intros (r & ? & ?); exists r; by rewrite ?list_elem_of_In in *. }
  apply orb_true_iff in Hkinds as [Hstr|Hnostr].
  - rewrite forallb_forall in Hstr. intros r Hr. apply Hstr.
    apply list_elem_of_In, Hunique. eauto.
  - exfalso. destruct (active_pairs df) as [|[st g] rest] eqn:Hact; [by subst wb|].
    assert ((st, g) ∈ active_pairs df) as Hin by (rewrite Hact; left).
    unfold active_pairs in Hin.
    apply list_elem_of_In, filter_In in Hin as [Hin%list_elem_of_In Hne'].
    apply negb_true_iff in Hne'.
    pose proof (Hall _ Hin Hne') as Hs. cbn [fst] in Hs.
    apply export_pairs_elem in Hin as [(r & Hr & <-) _].
    rewrite forallb_forall in Hnostr.
    assert (negb (is_str (cell r "Stream")) = true) as Hn.
    { apply Hnostr, list_elem_of_In, Hunique. eauto. }
    by rewrite Hs in Hn.
Qed.

(** * Reading the download back *)

Lemma cell_restrict cols r c : c ∈ cols → cell (restrict cols r) c = cell r c.
Proof.
  unfold restrict, cell. induction cols as [|c' cols IH]; intros Hc.
  - by apply elem_of_nil in Hc.
  - cbn [map list_to_map foldr]. destruct (decide (c' = c)) as [->|Hne].
    + by rewrite lookup_insert_eq.
    + rewrite lookup_insert_ne by done. apply IH.
      by apply elem_of_cons in Hc as [?|?]; [congruence|].
Qed.

Lemma zip_map_self {A B} (f : A → B) (l : list A) :
  zip l (map f l) = map (λ a, (a, f a)) l.
Proof. induction l as [|a l IH]; [done|]. simpl. by rewrite IH. Qed.

Lemma omap_VStr cols :
  omap (λ v, match v with VStr c => Some c | _ => None end) (map VStr cols) = cols.
Proof. induction cols as [|c cols IH]; [done|]. simpl. f_equal. exact IH. Qed.

Lemma read_sheet_frame_cells df :
  read_sheet (frame_cells df) = map (restrict (columns df)) (rows df).
Proof.
  unfold read_sheet, frame_cells. rewrite omap_VStr, map_map.
  apply map_ext. intros r. unfold restrict. by rewrite zip_map_self.
Qed.

Lemma enrollment_houses_restrict rs :
  enrollment_houses (map (restrict display_cols) rs) = enrollment_houses rs.
Proof.
  unfold enrollment_houses. rewrite map_map. apply map_ext. intros r.
  rewrite !cell_restrict; [done|by apply (bool_decide_unpack _)..].
Qed.

Lemma enrollment_houses_Permutation rs rs' :
  rs ≡ₚ rs' → enrollment_houses rs ≡ₚ enrollment_houses rs'.
Proof. intros H. unfold enrollment_houses. by apply Permutation_map. Qed.

Lemma enrollment_houses_export_sheet df p :
  enrollment_houses (read_sheet (export_sheet df p).2)
  ≡ₚ enrollment_houses (rows (exported df p)).
Proof.
  unfold export_sheet. cbn [snd]. rewrite read_sheet_frame_cells.
  cbn [columns rows sort_values]. rewrite enrollment_houses_restrict.
  rewrite (enrollment_houses_Permutation _ _ (py_sorted_Permutation _ _)).
  by rewrite enrollment_houses_restrict.
Qed.

Lemma flat_map_Permutation_ext {A B} (f g : A → list B) (l : list A) :
  (∀ a, a ∈ l → f a ≡ₚ g a) → flat_map f l ≡ₚ flat_map g l.
Proof.
  induction l as [|a l IH]; intros Hfg; [done|].
  cbn [flat_map]. rewrite (Hfg a) by left. rewrite IH; [done|].
  intros b Hb. apply Hfg. by right.
Qed.

Lemma flat_map_filter_nil {A B} (f : A → list B) (P : A → bool) (l : list A) :
  (∀ a, P a = false → f a = []) → flat_map f (List.filter P l) = flat_map f l.
Proof.
  intros Hf. induction l as [|a l IH]; [done|].
  cbn [List.filter flat_map]. destruct (P a) eqn:HP.
  - cbn [flat_map]. by rewrite IH.
  - by rewrite (Hf a HP), IH.
Qed.

Lemma flat_map_app_Permutation {A B} (f g : A → list B) (l : list A) :
  flat_map (λ a, f a ++ g a) l ≡ₚ flat_map f l ++ flat_map g l.
Proof.
  induction l as [|a l IH]; [done|].
  cbn [flat_map]. rewrite IH, <- !app_assoc. apply Permutation_app_head.
  rewrite !app_assoc. apply Permutation_app_tail, Permutation_app_comm.
Qed.

Lemma flat_map_nil {A B} (l : list A) : flat_map (λ _, @nil B) l = [].
Proof. by induction l. Qed.

(** Among duplicate free keys at most one equals [k]. *)
Lemma flat_map_select_one {A B} `{EqDecision A} (k : A) (x : B) (l : list A) :
  NoDup l →
  flat_map (λ a, if bool_decide (a = k) then [x] else []) l
  = if bool_decide (k ∈ l) then [x] else [].
Proof.
  induction 1 as [|a l Ha Hl IH]; [done|].
  cbn [flat_map]. rewrite IH. destruct (decide (a = k)) as [->|Hak].
  - rewrite (bool_decide_eq_true_2 (k = k)) by done.
    rewrite (bool_decide_eq_true_2 (k ∈ k :: l)) by left.
    by rewrite bool_decide_eq_false_2.
  - rewrite (bool_decide_eq_false_2 (a = k)) by done. cbn [app].
    apply (f_equal (λ b : bool, if b then [x] else [])).
    apply bool_decide_ext. rewrite elem_of_cons.
    split; [by right|]. by intros [?|?]; [congruence|].
Qed.

(** Splitting a list by a key over duplicate free keys loses and repeats
    nothing. *)
Lemma flat_map_filter_key {A K} `{EqDecision K} (key_of : A → option K)
    (ks : list K) (l : list A) :
  NoDup ks →
  flat_map (λ k, List.filter (λ a, bool_decide (key_of a = Some k)) l) ks
  ≡ₚ filter (λ a, key_of a ∈ map Some ks) l.
Proof.
  intros Hnd. induction l as [|a l IH].
  - cbn [List.filter]. by rewrite flat_map_nil.
  - cbn [List.filter].
    rewrite (flat_map_Permutation_ext _
      (λ k, (if bool_decide (Some k = key_of a) then [a] else [])
            ++ List.filter (λ a, bool_decide (key_of a = Some k)) l)).
    2: { intros k _. case_bool_decide as H1; case_bool_decide as H2;
           try done; congruence. }
    rewrite flat_map_app_Permutation, IH, filter_cons.
    assert (flat_map (λ k, if bool_decide (Some k = key_of a) then [a] else []) ks
            = if decide (key_of a ∈ map Some ks) then [a] else []) as ->.
    { destruct (key_of a) as [k0|] eqn:Hk0.
      - erewrite (flat_map_ext _ (λ k, if bool_decide (k = k0) then [a] else [])).
        2: { intros k. apply (f_equal (λ b : bool, if b then [a] else [])).
             apply bool_decide_ext. split; congruence. }
        rewrite flat_map_select_one by done.
        destruct (decide (Some k0 ∈ map Some ks)) as [Hin|Hno].
        + rewrite bool_decide_eq_true_2; [done|].
          apply list_elem_of_In, in_map_iff in Hin as (k & [= ->] & Hk).
          by apply list_elem_of_In.
        + rewrite bool_decide_eq_false_2; [done|]. intros Hin. apply Hno.
          apply list_elem_of_In, in_map. by apply list_elem_of_In.
      - erewrite (flat_map_ext _ (λ _, [])).
        2: { intros k. by rewrite bool_decide_eq_false_2. }
        rewrite flat_map_nil.
        destruct (decide (None ∈ map Some ks)) as [Hin|Hno]; [|done].
        by apply list_elem_of_In, in_map_iff in Hin as (k & [=] & _). }
    by destruct (decide (key_of a ∈ map Some ks)).
Qed.

Lemma flat_map_map {A B C} (f : B → list C) (g : A → B) (l : list A) :
  flat_map f (map g l) = flat_map (λ a, f (g a)) l.
Proof. induction l as [|a l IH]; [done|]. simpl. by rewrite IH. Qed.

Lemma map_flat_map {A B C} (f : A → list B) (g : B → C) (l : list A) :
  map g (flat_map f l) = flat_map (λ a, map g (f a)) l.
Proof. induction l as [|a l IH]; [done|]. simpl. by rewrite map_app, IH. Qed.

Lemma eq_mask_export_key st g r :
  eq_mask "Stream" st r && eq_mask "Gender" (VStr g) r
  = bool_decide (export_key r = Some (st, g)).
Proof.
  unfold eq_mask, export_key.
  destruct (cell r "Stream") as [|z|s] eqn:Hs, (cell r "Gender") as [|z'|s'] eqn:Hg;
    repeat case_bool_decide; simplify_eq; try done.
Qed.

Lemma export_pairs_NoDup df : NoDup (export_pairs df).
Proof.
  unfold export_pairs.
  assert (NoDup (py_sorted value_leb (unique (map (λ r, cell r "Stream") (rows df)))))
    as Hnd by (rewrite py_sorted_Permutation; apply NoDup_remove_dups).
  induction Hnd as [|st l Hst Hl IH]; [constructor|].
  cbn [flat_map app].
  assert (∀ g, (st, g) ∉ flat_map (λ stream, [(stream, "M"); (stream, "F")]) l) as Hfresh.
  { intros g (st' & Hin & Hg)%list_elem_of_In%in_flat_map.
    apply Hst. apply list_elem_of_In in Hin.
    destruct Hg as [[= ->]|[[= ->]|[]]]; done. }
  constructor.
  - intros [[=]|Hin]%elem_of_cons. by apply (Hfresh "M").
  - constructor; [apply Hfresh|done].
Qed.

(** C3, as the code has it.  When the download returns and no two of its
    worksheets share a name, reading all worksheets back gives the
    (enrollment identifier, house) pairs of the rows of the table whose
    gender is M or F, each as often as the table has it; the rows of any
    other gender, or of none, are not in the workbook. *)
Theorem excel_round_trip df wb :
  get_excel_download df = Ret wb →
  NoDup (sheet_names df) →
  enrollment_houses (read_workbook wb)
  ≡ₚ enrollment_houses (filter has_export_gender (rows df)).
Proof.
  intros Hrun Hnd.
  destruct (get_excel_download_sheets df wb Hrun Hnd) as (-> & HStream & Hstr).
  unfold read_workbook, enrollment_houses at 1.
  rewrite flat_map_map, map_flat_map.
  rewrite (flat_map_Permutation_ext _ (λ p, enrollment_houses (rows (exported df p))))
    by (intros p _; apply enrollment_houses_export_sheet).
  unfold active_pairs. rewrite flat_map_filter_nil.
  2: { intros p [Hrows|Hcols]%negb_false_iff%orb_true_iff.
       - apply bool_decide_eq_true in Hrows. by rewrite Hrows.
       - apply bool_decide_eq_true in Hcols. unfold exported, select in Hcols.
         cbn [columns] in Hcols. rewrite Hcols in HStream.
         by apply elem_of_nil in HStream. }
  unfold enrollment_houses at 1. rewrite <- map_flat_map.
  apply enrollment_houses_Permutation.
  rewrite (flat_map_ext _
    (λ p, List.filter (λ r, bool_decide (export_key r = Some p)) (rows df))).
  2: { intros [st g]. unfold exported, select. cbn [rows fst snd].
       apply filter_ext. intros r. apply eq_mask_export_key. }
  rewrite (flat_map_filter_key export_key) by apply export_pairs_NoDup.
  erewrite filter_ext_elem; [done|]. intros r Hr. unfold has_export_gender.
  specialize (Hstr r Hr). split.
  - intros ([st g] & Hk & Hin%list_elem_of_In%export_pairs_elem)
      %list_elem_of_In%in_map_iff.
    destruct Hin as [_ Hg]. unfold export_key in Hk.
    destruct (cell r "Stream"), (cell r "Gender"); try done.
    all: injection Hk as _ Heq; rewrite <- Heq; destruct Hg as [-> | ->]; auto.
  - intros Hg. apply list_elem_of_In, in_map_iff.
    destruct (cell r "Stream") as [|z|st] eqn:Hs; try done.
    assert (∃ g, cell r "Gender" = VStr g ∧ (g = "M" ∨ g = "F")) as (g & Hgen & Hmf)
      by (destruct Hg as [-> | ->]; eauto).
    exists (VStr st, g). split.
    + unfold export_key. by rewrite Hs, Hgen.
    + apply list_elem_of_In, export_pairs_elem. eauto.
Qed.

(** * The loader *)

Lemma fold_each_invariant {A B} (P : B → Prop) (l : list A)
    (body : B → A → outcome B) acc r :
  fold_each l body acc = Ret r →
  P acc →
  (∀ a x y, a ∈ l → P x → body x a = Ret y → P y) →
  P r.
Proof.
  revert acc. induction l as [|a l IH]; intros acc Hrun Hacc Hbody.
  - by injection Hrun as <-.
  - cbn [fold_each] in Hrun.
    apply outcome_bind_Ret_inv in Hrun as (acc' & Hstep & Hrun).
    apply (IH acc' Hrun).
    + eapply Hbody; [left|done..].
    + intros b x y Hb. apply Hbody. by right.
Qed.

(** Every row of the loaded table carries the name of its workbook as a
    string in its Stream cell: no Stream cell is missing. *)
Lemma load_Stream_is_str w df :
  load_all_students_from_data_folder w = Ret df →
  ∀ r, r ∈ rows df → is_str (cell r "Stream") = true.
Proof.
  unfold load_all_students_from_data_folder.
  destruct (data_folder w) as [| |listing]; [done..|].
  intros Hrun.
  apply (fold_each_invariant
           (λ d, ∀ r, r ∈ rows d → is_str (cell r "Stream") = true) _ _ _ _ Hrun).
  - intros r Hr. by apply elem_of_nil in Hr.
  - intros [filename read] x y _ Hx.
    destruct (endswith filename ".xlsx"); [|by intros [= <-]].
    intros (d & _ & [= <-])%outcome_bind_Ret_inv r.
    unfold concat, setitem. cbn [rows].
    intros [Hr|Hr]%elem_of_app; [by apply Hx|].
    apply list_elem_of_In, in_map_iff in Hr as (r0 & <- & _).
    by rewrite cell_insert_eq.
Qed.

(** * The worksheets *)



Section sorted.
Context {A : Type} (leb : A → A → bool).
Hypothesis leb_total : ∀ a b, leb a b = true ∨ leb b a = true.
Hypothesis leb_trans : ∀ a b c, leb a b = true → leb b c = true → leb a c = true.



End sorted.





(** * The program on the two folders *)

(** Decides a closed decidable proposition by evaluation. *)
Ltac by_evaluation := apply (bool_decide_unpack _); vm_compute; reflexivity.

Lemma reversing_Permutation n l : reversing n l ≡ₚ l.
Proof. apply reverse_Permutation. Qed.

Lemma physics_loaded :
  load_all_students_from_data_folder physics_world = Ret physics.
Proof. vm_compute. reflexivity. Qed.

Lemma physics_assign_houses :
  assign_houses reversing 0 0 physics_store = (Ret 1, physics_assigned_store).
Proof. vm_compute. reflexivity. Qed.

Lemma physics_assigned_frame :
  frames physics_assigned_store !! 1 = Some physics_assigned.
Proof. vm_compute. reflexivity. Qed.

Lemma assign_houses_balanced_witness :
  ∃ adf, frames physics_assigned_store !! 1 = Some adf ∧
    ∀ k, ∃ order,
      order ≡ₚ keys HOUSE_COLORS ∧
      (∀ h, group_house_count adf k h = dealt_count order h (group_size physics k)) ∧
      (∀ h1 h2, h1 ∈ keys HOUSE_COLORS → h2 ∈ keys HOUSE_COLORS →
         group_house_count adf k h1 ≤ group_house_count adf k h2 + 1).
Proof.
  apply (assign_houses_balanced reversing reversing_Permutation
           physics_store 0 0 physics fresh_counts 1 physics_assigned_store).
  - reflexivity.
  - reflexivity.
  - vm_compute. reflexivity.
Defined.

(** C2 as stated fails: the third student of the Physics folder has a
    blank gender cell, belongs to no group, and comes out of
    [assign_houses] with no house. *)
Lemma assign_houses_labels_counterexample :
  assign_houses reversing 0 0 physics_store = (Ret 1, physics_assigned_store) ∧
  frames physics_assigned_store !! 1 = Some physics_assigned ∧
  ∃ r, rows physics_assigned !! 2 = Some r ∧
       cell r "Enrollment No" = VStr "E3" ∧
       cell r "House" = VNone ∧
       ¬ ∃ h, h ∈ keys HOUSE_COLORS ∧ cell r "House" = VStr h.
Proof.
  split; [vm_compute; reflexivity|]. split; [vm_compute; reflexivity|].
  eexists. split; [vm_compute; reflexivity|].
  split; [vm_compute; reflexivity|]. split; [vm_compute; reflexivity|].
  intros (h & _ & Hh). vm_compute in Hh. discriminate.
Qed.

Lemma assign_houses_labels_witness :
  ∃ adf, frames physics_assigned_store !! 1 = Some adf ∧
    length (rows adf) = length (rows physics) ∧
    ∀ p r r', rows physics !! p = Some r → rows adf !! p = Some r' →
      match row_key "Stream" "Semester" "Gender" r with
      | Some _ => ∃ h, h ∈ keys HOUSE_COLORS ∧ cell r' "House" = VStr h
      | None => cell r' "House" = VNone
      end.
Proof.
  apply (assign_houses_labels reversing reversing_Permutation
           physics_store 0 0 physics fresh_counts 1 physics_assigned_store).
  - reflexivity.
  - reflexivity.
  - vm_compute. reflexivity.
Defined.

Lemma assign_houses_frame_witness :
  (∀ l, l < length (frames physics_store) →
     frames physics_assigned_store !! l = frames physics_store !! l) ∧
  frames physics_assigned_store !! 0 = Some physics ∧
  (∀ l, l ≠ 0 → dicts physics_assigned_store !! l = dicts physics_store !! l) ∧
  screen physics_assigned_store = screen physics_store ∧
  ∃ adf, frames physics_assigned_store = frames physics_store ++ [adf] ∧
    (∀ l, Ret 1 = Ret l → l = length (frames physics_store)) ∧
    (∀ c, c ≠ "House" → c ∈ columns adf ↔ c ∈ columns physics) ∧
    (∀ c, c ≠ "House" →
       map (λ r, cell r c) (rows adf) = map (λ r, cell r c) (rows physics)).
Proof.
  apply (assign_houses_frame reversing reversing_Permutation
           physics_store 0 0 physics fresh_counts (Ret 1) physics_assigned_store).
  - reflexivity.
  - reflexivity.
  - vm_compute. reflexivity.
Defined.

Lemma assign_group_visits_witness :
  house_order ∅ ≡ₚ keys HOUSE_COLORS ∧
  StronglySorted (visits_before ∅) (house_order ∅).
Proof.
  apply (assign_group_visits reversing reversing_Permutation
           physics_store 0 0 physics fresh_counts
           (VStr "Physics") (VNum 1) (VStr "M") [0; 3; 4; 5; 6] ∅).
  - reflexivity.
  - reflexivity.
  - reflexivity.
  - by_evaluation.
  - intros p Hp. apply (bool_decide_unpack _).
    repeat (apply elem_of_cons in Hp as [->|Hp]; [vm_compute; reflexivity|]).
    by apply elem_of_nil in Hp.
Defined.

Lemma apply_filters_keeps_witness :
  let ui := mkSession "View Data" "nfsu@123" [] [] [VStr "F"] [] "All" in
  let filtered := select (λ r, bool_decide (cell r "Gender" ∈ [VStr "F"])) physics in
  columns filtered = columns physics ∧
  rows filtered
  = filter (λ r, keeps "Gender" (selected_gender ui) r ∧
                 keeps "Semester" (selected_sems ui) r ∧
                 keeps "Stream" (selected_streams ui) r) (rows physics) ∧
  (∀ c sel f, filter_if_selected c sel physics = Ret f →
     (sel = [] → f = physics) ∧
     (sel ≠ [] → ∀ r, r ∈ rows f ↔ r ∈ rows physics ∧ cell r c ∈ sel)).
Proof.
  apply (apply_filters_keeps physics
           (mkSession "View Data" "nfsu@123" [] [] [VStr "F"] [] "All")).
  vm_compute. reflexivity.
Defined.

Lemma visualize_page_has_House_witness :
  (∀ s df ghc d0 c0 l s',
     frames s !! df = Some d0 → dicts s !! ghc = Some c0 →
     assign_houses reversing df ghc s = (Ret l, s') →
     ∃ adf, frames s' !! l = Some adf ∧ "House" ∈ columns adf) ∧
  Forall (λ e, e ≠ StWarning HouseDistributionNotFound)
    (screen (main reversing physics_world
               (mkSession "Visualize" "" [] [] [] [] "All") initial).2).
Proof.
  apply (visualize_page_has_House reversing reversing_Permutation).
Defined.

(** The Visualize page of the Physics folder is reached and draws its
    three charts. *)
Lemma physics_visualize_charts :
  let run := main reversing physics_world
               (mkSession "Visualize" "" [] [] [] [] "All") initial in
  run.1 = Ret () ∧
  length (List.filter (λ e, match e with StPlotlyChart _ _ => true | _ => false end)
            (screen run.2)) = 3.
Proof. vm_compute. done. Qed.

(** C3 as stated fails: the student with the blank gender cell is in the
    table that is exported, under the enrollment identifier E3, and in no
    worksheet of the workbook. *)
Lemma excel_round_trip_counterexample :
  ∃ wb, get_excel_download physics_assigned = Ret wb ∧
    VStr "E3" ∈ map fst (enrollment_houses (rows physics_assigned)) ∧
    (VStr "E3" ∉ map fst (enrollment_houses (read_workbook wb))) ∧
    ¬ (enrollment_houses (read_workbook wb)
       ≡ₚ enrollment_houses (rows physics_assigned)).
Proof.
  eexists. split; [vm_compute; reflexivity|].
  split; [by_evaluation|]. split; [by_evaluation|].
  intros Hperm. apply Permutation_length in Hperm. vm_compute in Hperm. discriminate.
Qed.

Lemma excel_round_trip_witness :
  ∃ wb, get_excel_download physics_assigned = Ret wb ∧
    enrollment_houses (read_workbook wb)
    ≡ₚ enrollment_houses (filter has_export_gender (rows physics_assigned)).
Proof.
  eexists. split; [vm_compute; reflexivity|].
  apply (excel_round_trip physics_assigned).
  - vm_compute. reflexivity.
  - by_evaluation.
Defined.

(** C8 fails on the folder of the two workbooks with a common prefix: the
    assigned table has two (stream, gender) pairs with rows, both are
    written to the worksheet named by the common prefix, and the workbook
    keeps one worksheet, with the second student only. *)
Theorem get_excel_download_collision :
  load_all_students_from_data_folder twin_world = Ret twin ∧
  (assign_houses reversing 0 0 (mkState [twin] [fresh_counts] 0 [])).1 = Ret 1 ∧
  active_pairs twin_assigned
  = [(VStr "M.Tech Artificial Intelligence (Cyber)", "M");
     (VStr "M.Tech Artificial Intelligence (Data)", "M")] ∧
  get_excel_download twin_assigned
  = Ret [("M.Tech Artificial Intelli-M",
          [map VStr display_cols;
           [VStr "E2"; VStr "Dev"; VStr "M";
            VStr "M.Tech Artificial Intelligence (Data)"; VNum 1; VStr "House B"]])].
Proof. repeat split; vm_compute; reflexivity. Qed.

(** * The counters across the groups *)

Lemma row_key_Gender r st sem g :
  row_key "Stream" "Semester" "Gender" r = Some (st, sem, g) →
  cell r "Gender" = g ∧ g ≠ VNone.
Proof.
  unfold row_key.
  destruct (cell r "Stream"), (cell r "Semester"), (cell r "Gender");
    intros [= <- <- <-]; done.
Qed.

(** The positions of a frame are those of a duplicate-free list of its
    positions and the others. *)
Lemma seq_split (S : list nat) n :
  NoDup S → (∀ p, p ∈ S → p < n) →
  seq 0 n ≡ₚ S ++ filter (λ p, p ∉ S) (seq 0 n).
Proof.
  intros Hnd Hlt. apply NoDup_Permutation.
  - apply NoDup_seq.
  - apply list.NoDup_app. split; [done|]. split.
    + intros p Hp [Hq _]%list_elem_of_filter. done.
    + apply list.NoDup_filter, NoDup_seq.
  - intros p. rewrite elem_of_app, list_elem_of_filter, elem_of_seq. split.
    + intros Hp. destruct (decide (p ∈ S)); [by left|right; done].
    + intros [Hp|[_ Hp]]; [|done]. specialize (Hlt p Hp). lia.
Qed.

Lemma filter_length_split {A} (P : A → Prop) `{∀ x, Decision (P x)} (l l1 l2 : list A) :
  l ≡ₚ l1 ++ l2 →
  length (filter P l) = length (filter P l1) + length (filter P l2).
Proof. intros ->. by rewrite list.filter_app, length_app. Qed.

Lemma StronglySorted_lookup {A} (R : relation A) l i j x y :
  StronglySorted R l → i < j → l !! i = Some x → l !! j = Some y → R x y.
Proof.
  intros Hs. revert i j. induction Hs as [|a l Hs IH Hall]; intros i j Hij Hi Hj; [done|].
  destruct j as [|j]; [lia|]. destruct i as [|i].
  - injection Hi as <-. rewrite list.Forall_forall in Hall. apply Hall.
    by eapply list_elem_of_lookup_2.
  - eapply (IH i j); [lia|done..].
Qed.

Lemma filter_none {A} (P : A → Prop) `{∀ x, Decision (P x)} (l : list A) :
  (∀ x, x ∈ l → ¬ P x) → filter P l = [].
Proof.
  induction l as [|x l IH]; intros Hno; [done|].
  rewrite filter_cons. destruct (decide (P x)) as [HP|_].
  - destruct (Hno x); [left|done].
  - apply IH. intros y Hy. apply Hno. by right.
Qed.

(** Dealing the houses to the students of a group adds, for the gender of
    the group, as many rows to each house as the deal gives it, and none
    for another gender. *)
Lemma dealt_to_gender_count order students adf d adf' d' g :
  NoDup students →
  (∀ p, p ∈ students →
     ∃ r, rows adf !! p = Some r ∧ cell r "Gender" = g ∧ cell r "House" = VNone) →
  dealt_to order students adf d (length students) adf' d' →
  ∀ g' h, gender_house_count adf' g' h
          = gender_house_count adf g' h
            + (if decide (g' = g) then dealt_count order h (length students) else 0).
Proof.
  intros Hnd Hrows (_ & Hlen & Hdealt & Hother & _) g' h.
  unfold gender_house_count.
  set (P := λ r : row, cell r "Gender" = g' ∧ cell r "House" = VStr h).
  rewrite !(filter_length_positions P), Hlen.
  assert (∀ p, p ∈ students → p < length (rows adf)) as Hlt.
  { intros p (r & Hr & _)%Hrows. by eapply lookup_lt_Some. }
  pose proof (seq_split students (length (rows adf)) Hnd Hlt) as Hsplit.
  rewrite (filter_length_split _ _ _ _ Hsplit).
  rewrite (filter_length_split (holds_at P (rows adf)) _ _ _ Hsplit).
  rewrite (filter_none (holds_at P (rows adf)) students).
  2: { intros p Hp. rewrite holds_at_Some. intros (r & Hr & _ & Hh).
       destruct (Hrows p Hp) as (r0 & Hr0 & _ & Hnone). congruence. }
  cbn [length plus].
  rewrite (filter_ext_elem (holds_at P (rows adf')) (holds_at P (rows adf))
             (filter (λ p, p ∉ students) (seq 0 (length (rows adf))))).
  2: { intros p [Hp _]%list_elem_of_filter. unfold holds_at.
       rewrite Hother; [done|]. by rewrite firstn_all. }
  rewrite Nat.add_comm. f_equal.
  rewrite filter_length_positions.
  case_decide as Hg.
  - subst g'. unfold dealt_count. f_equal. apply filter_ext_elem.
    intros i [_ Hi]%elem_of_seq. rewrite holds_at_Some. split.
    + intros (p & Hp & Hh). apply holds_at_Some in Hh as (r' & Hr' & _ & Hh).
      rewrite (Hdealt i p) in Hr' by (done || lia).
      destruct (rows adf !! p) as [r|]; [|done]. injection Hr' as <-.
      rewrite cell_insert_eq in Hh. congruence.
    + intros Hh. destruct (lookup_lt_is_Some_2 students i) as [p Hp]; [lia|].
      exists p. split; [done|]. apply holds_at_Some.
      destruct (Hrows p) as (r & Hr & Hgen & _); [by eapply list_elem_of_lookup_2|].
      exists (<["House" := VStr (dealt order i)]> r). split.
      * rewrite (Hdealt i p) by (done || lia). by rewrite Hr.
      * split; [by rewrite cell_insert_ne|by rewrite cell_insert_eq, Hh].
  - rewrite filter_none; [done|].
    intros i [_ Hi]%elem_of_seq. rewrite holds_at_Some.
    intros (p & Hp & Hh). apply holds_at_Some in Hh as (r' & Hr' & Hgen & _).
    rewrite (Hdealt i p) in Hr' by (done || lia).
    destruct (Hrows p) as (r & Hr & Hgen' & _); [by eapply list_elem_of_lookup_2|].
    rewrite Hr in Hr'. injection Hr' as <-.
    rewrite cell_insert_ne in Hgen by done. congruence.
Qed.

(** The houses are dealt in the order of their counters, so a deal keeps
    counters that are within one of each other within one of each other. *)
Lemma house_order_keeps_balance d d' n :
  (∀ h1 h2, h1 ∈ keys HOUSE_COLORS → h2 ∈ keys HOUSE_COLORS →
     count_of d h1 ≤ count_of d h2 + 1) →
  (∀ h, count_of d' h = count_of d h + dealt_count (house_order d) h n) →
  ∀ h1 h2, h1 ∈ keys HOUSE_COLORS → h2 ∈ keys HOUSE_COLORS →
    count_of d' h1 ≤ count_of d' h2 + 1.
Proof.
  intros Hbal Hcnt h1 h2 H1 H2. rewrite !Hcnt.
  pose proof (Hbal h1 h2 H1 H2) as Hb12.
  pose proof (house_order_sorted d) as Hsorted.
  pose proof (house_order_NoDup d) as Hnd.
  pose proof (house_order_length d) as Hlen.
  rewrite <- (house_order_Permutation d) in H1, H2.
  apply list_elem_of_lookup_1 in H1 as [j1 Hj1], H2 as [j2 Hj2].
  rewrite (dealt_count_formula _ j1 h1), (dealt_count_formula _ j2 h2) by done.
  pose proof (lookup_lt_Some _ _ _ Hj1). pose proof (lookup_lt_Some _ _ _ Hj2).
  pose proof (Nat.div_mod_eq (n + 3 - j1) 4).
  pose proof (Nat.mod_upper_bound (n + 3 - j1) 4).
  pose proof (Nat.div_mod_eq (n + 3 - j2) 4).
  pose proof (Nat.mod_upper_bound (n + 3 - j2) 4).
  destruct (Nat.lt_trichotomy j1 j2) as [Hlt|[->|Hgt]].
  - assert (count_of d h1 ≤ count_of d h2).
    { destruct (StronglySorted_lookup _ _ _ _ _ _ Hsorted Hlt Hj1 Hj2) as [?|[? _]]; lia. }
    lia.
  - assert (h1 = h2) as -> by congruence. lia.
  - assert (count_of d h2 ≤ count_of d h1).
    { destruct (StronglySorted_lookup _ _ _ _ _ _ Hsorted Hgt Hj2 Hj1) as [?|[? _]]; lia. }
    lia.
Qed.

Lemma with_objs_inj s0 la ghc adf c n adf' c' n' :
  la < length (frames s0) → ghc < length (dicts s0) →
  with_objs s0 la adf ghc c n = with_objs s0 la adf' ghc c' n' →
  adf = adf' ∧ c = c'.
Proof.
  intros Hla Hghc [= Hf Hd _].
  apply (f_equal (λ l, l !! la)) in Hf. apply (f_equal (λ l, l !! ghc)) in Hd.
  simpl in Hf, Hd. rewrite !list_lookup_insert_eq in Hf by done.
  rewrite !list_lookup_insert_eq in Hd by done. split; congruence.
Qed.

Lemma counter_value_fresh_counts g h : counter_value fresh_counts g h = 0.
Proof.
  unfold counter_value, fresh_counts.
  destruct (decide (g = VStr "M")) as [->|].
  { rewrite lookup_insert_eq. simpl. by rewrite lookup_empty. }
  rewrite lookup_insert_ne by done.
  destruct (decide (g = VStr "F")) as [->|].
  { rewrite lookup_singleton_eq. simpl. by rewrite lookup_empty. }
  by rewrite lookup_singleton_ne.
Qed.

Lemma balanced_fresh_counts : balanced fresh_counts.
Proof. intros g h1 h2 _ _. rewrite !counter_value_fresh_counts. lia. Qed.

Lemma counts_rows_0 d0 c0 : counts_rows c0 c0 (setitem d0 "House" VNone).
Proof.
  intros g h. unfold gender_house_count. rewrite filter_none; [simpl; lia|].
  intros r Hr [_ Hh]. unfold setitem in Hr. cbn [rows] in Hr.
  apply list_elem_of_fmap in Hr as (r0 & -> & _).
  by rewrite cell_insert_eq in Hh.
Qed.

Section counted.
Context (shuffle : nat → list nat → list nat).
Hypothesis Hshuffle : ∀ n l, shuffle n l ≡ₚ l.
Context (s0 : state) (la ghc : loc).
Hypothesis Hla : la < length (frames s0).
Hypothesis Hghc : ghc < length (dicts s0).
Context (d0 : DataFrame) (c0 : counters) (n0 : nat) (groups : list (key * list nat)).
Hypothesis Hgb : groupby d0 "Stream" "Semester" "Gender" = Ret groups.

(** One group more: the counters still count the rows of the table, and
    stay balanced if they were. *)
Lemma assign_group_counted k st sem g index adf c s2 :
  groups !! k = Some ((st, sem, g), index) →
  assigned_upto shuffle d0 c0 n0 groups k adf c →
  counts_rows c0 c adf →
  assign_group shuffle la ghc ((st, sem, g), index)
    (with_objs s0 la adf ghc c (n0 + k)) = (Ret (), s2) →
  ∃ adf' c',
    s2 = with_objs s0 la adf' ghc c' (n0 + S k) ∧
    assigned_upto shuffle d0 c0 n0 groups (S k) adf' c' ∧
    counts_rows c0 c' adf' ∧
    (balanced c → balanced c').
Proof.
  intros Hk Hup Hcounts Hbody.
  pose proof (groupby_well_grouped _ _ _ _ _ Hgb) as Hwg.
  pose proof (assign_group_step shuffle Hshuffle s0 la ghc Hla Hghc
                d0 c0 n0 groups Hwg k st sem g index adf c Hk Hup) as Hstep.
  destruct (c !! g) as [d|] eqn:Hg.
  2: { assert ((Ret (), s2)
               = (Raise (KeyError g), with_objs s0 la adf ghc c (n0 + S k))) as [=].
       etrans; [symmetry; exact Hbody|exact Hstep]. }
  destruct Hstep as (adf' & c' & Hrun & Hup').
  assert (s2 = with_objs s0 la adf' ghc c' (n0 + S k)) as ->.
  { assert ((Ret (), s2) = (Ret (), with_objs s0 la adf' ghc c' (n0 + S k))) as H
      by (etrans; [symmetry; exact Hbody|exact Hrun]).
    exact (f_equal snd H). }
  destruct Hwg as [Hwf Hdisj]. destruct (Hwf _ _ _ Hk) as [Hnd Hrange].
  pose proof Hup as (_ & Hlen & _ & Hrest & _).
  destruct (assign_group_with_objs shuffle Hshuffle s0 la ghc Hla Hghc
              adf c (n0 + k) st sem g index d Hg Hnd) as (adf2 & d' & Hrun2 & Hdealt).
  { intros p Hp. rewrite Hlen. by apply Hrange. }
  assert (adf' = adf2 ∧ c' = <[g := d']> c) as [-> ->].
  { eapply (with_objs_inj s0 la ghc); [done..|].
    assert ((Ret (), with_objs s0 la adf' ghc c' (n0 + S k))
            = (Ret (), with_objs s0 la adf2 ghc (<[g := d']> c) (S (n0 + k)))) as H
      by (etrans; [symmetry; exact Hrun|exact Hrun2]).
    exact (f_equal snd H). }
  exists adf2, (<[g := d']> c). split; [done|]. split; [done|].
  pose proof (groupby_Ret _ _ _ _ _ Hgb) as (Hgroups & _).
  assert (index = group_index "Stream" "Semester" "Gender" d0 (st, sem, g)) as Hidx.
  { pose proof Hk as Hk'. rewrite Hgroups in Hk'. by apply groups_lookup in Hk' as [_ ->]. }
  assert (∀ p, p ∈ shuffle (n0 + k) index →
            ∃ r, rows adf !! p = Some r ∧ cell r "Gender" = g ∧ cell r "House" = VNone)
    as Hstudents.
  { intros p Hp. rewrite (Hshuffle (n0 + k) index) in Hp.
    pose proof Hp as Hp'. rewrite Hidx in Hp'.
    apply group_index_elem in Hp' as (r0 & Hr0 & Hkey).
    exists (<["House" := VNone]> r0). split; [|split].
    - rewrite Hrest; [by rewrite Hr0|].
      intros j ky' index' Hj Hj' Hp''.
      eapply (Hdisj k j); [lia|exact Hk|exact Hj'|exact Hp|exact Hp''].
    - rewrite cell_insert_ne by done. by apply row_key_Gender in Hkey as [? _].
    - by rewrite cell_insert_eq. }
  pose proof (dealt_to_gender_count (house_order d) (shuffle (n0 + k) index) adf d adf2 d' g)
    as Hcount.
  rewrite (Permutation_length (Hshuffle (n0 + k) index)) in Hcount.
  specialize (Hcount ltac:(by rewrite Hshuffle) Hstudents Hdealt).
  destruct Hdealt as (_ & _ & _ & _ & Hcnt).
  split.
  - intros g' h. rewrite Hcount. destruct (decide (g' = g)) as [->|Hne].
    + rewrite counter_value_insert_eq, Hcnt, <- (counter_value_Some c g d h Hg), Hcounts. lia.
    + rewrite counter_value_insert_ne by done. rewrite Hcounts. lia.
  - intros Hbal g' h1 h2 H1 H2. destruct (decide (g' = g)) as [->|Hne].
    + rewrite !counter_value_insert_eq.
      apply (house_order_keeps_balance d d' (length index)); [|done..].
      intros h1' h2' H1' H2'. rewrite <- !(counter_value_Some c g d _ Hg). by apply Hbal.
    + rewrite !counter_value_insert_ne by done. by apply Hbal.
Qed.

Lemma for_each_assign_group_counted s' :
  for_each groups (assign_group shuffle la ghc)
    (with_objs s0 la (setitem d0 "House" VNone) ghc c0 n0) = (Ret (), s') →
  ∃ adf' c',
    s' = with_objs s0 la adf' ghc c' (n0 + length groups) ∧
    counts_rows c0 c' adf' ∧ (balanced c0 → balanced c').
Proof.
  intros Hrun.
  pose proof (for_each_returned
    (λ k s, ∃ adf c, s = with_objs s0 la adf ghc c (n0 + k) ∧
                     assigned_upto shuffle d0 c0 n0 groups k adf c ∧
                     counts_rows c0 c adf ∧ (balanced c0 → balanced c))
    groups (assign_group shuffle la ghc) _ _ Hrun) as H.
  destruct H as (adf' & c' & -> & _ & Hcounts & Hbal).
  - exists (setitem d0 "House" VNone), c0. split; [by rewrite Nat.add_0_r|].
    split; [apply assigned_upto_0|]. split; [apply counts_rows_0|done].
  - intros k [[[st sem] g] index] s1 s2 Hk (adf & c & -> & Hup & Hcounts & Hbal) Hbody.
    destruct (assign_group_counted k st sem g index adf c s2 Hk Hup Hcounts Hbody)
      as (adf' & c' & -> & Hup' & Hcounts' & Hbal').
    exists adf', c'. split; [done|]. split; [done|]. split; [done|]. intros ?. by apply Hbal', Hbal.
  - eauto.
Qed.

End counted.

Section assign_houses_counted.
Context (shuffle : nat → list nat → list nat).
Hypothesis Hshuffle : ∀ n l, shuffle n l ≡ₚ l.

(** When [assign_houses] returns, its counters have counted the houses of
    the table it made, and are balanced if they were. *)
Lemma assign_houses_counted s df ghc d0 c0 l s' :
  frames s !! df = Some d0 →
  dicts s !! ghc = Some c0 →
  assign_houses shuffle df ghc s = (Ret l, s') →
  ∃ adf c',
    l = length (frames s) ∧
    frames s' !! l = Some adf ∧ dicts s' !! ghc = Some c' ∧
    counts_rows c0 c' adf ∧ (balanced c0 → balanced c').
Proof.
  intros Hdf Hghc.
  pose proof (assign_houses_run shuffle s df ghc d0 c0 Hdf Hghc) as Hrun.
  cbv zeta in Hrun. rewrite Hrun. clear Hrun.
  destruct (groupby d0 "Stream" "Semester" "Gender") as [groups|e] eqn:Hgb; [|done].
  destruct (for_each _ _ _) as [[[]|e] s1] eqn:Hloop; [|done].
  intros [= <- <-].
  apply lookup_lt_Some in Hghc as Hghc'.
  apply (for_each_assign_group_counted shuffle Hshuffle) in Hloop
    as (adf' & c' & -> & Hcounts & Hbal); [| |done|done].
  - exists adf', c'. split; [done|]. unfold with_objs. cbn [frames dicts].
    split; [|split; [|done]].
    + apply list_lookup_insert_eq. rewrite length_app. simpl. lia.
    + by apply list_lookup_insert_eq.
  - cbn [frames]. rewrite length_app. simpl. lia.
Qed.
End assign_houses_counted.

(** * A gender the counters do not know *)

(** A loop that raises does so in the body of one element, reached
    through bodies that returned. *)
Lemma for_each_raised {A} (I : nat → state → Prop) (l : list A) (body : A → M unit) s e s' :
  for_each l body s = (Raise e, s') →
  I 0 s →
  (∀ i a s1 s2, l !! i = Some a → I i s1 → body a s1 = (Ret (), s2) → I (S i) s2) →
  ∃ i a s1, l !! i = Some a ∧ I i s1 ∧ body a s1 = (Raise e, s').
Proof.
  revert I s. induction l as [|a l IH]; intros I s Hrun H0 Hstep; [done|].
  cbn [for_each] in Hrun. rewrite bind_run in Hrun.
  destruct (body a s) as [[[]|e1] s1] eqn:Hbody.
  - destruct (IH (λ i, I (S i)) s1 Hrun) as (i & b & s2 & Hi & HI & Hb).
    + by eapply (Hstep 0).
    + intros i b s2 s3 Hi. by apply (Hstep (S i)).
    + exists (S i), b, s2. done.
  - injection Hrun as <- <-. exists 0, a, s. done.
Qed.

Section unknown_gender.
Context (shuffle : nat → list nat → list nat).
Hypothesis Hshuffle : ∀ n l, shuffle n l ≡ₚ l.

(** The outcome of [assign_houses] on a table that has the three key
    columns: it returns when the counters hold the gender of every group,
    and raises [KeyError] for the gender of a group when they do not. *)
Lemma assign_houses_Ret_or_KeyError s df ghc d0 c0 :
  frames s !! df = Some d0 →
  dicts s !! ghc = Some c0 →
  "Stream" ∈ columns d0 → "Semester" ∈ columns d0 → "Gender" ∈ columns d0 →
  ∃ o s', assign_houses shuffle df ghc s = (o, s') ∧
    match o with
    | Ret l =>
        ∀ r st sem g, r ∈ rows d0 →
          row_key "Stream" "Semester" "Gender" r = Some (st, sem, g) → is_Some (c0 !! g)
    | Raise e =>
        ∃ r st sem g, e = KeyError g ∧ c0 !! g = None ∧ r ∈ rows d0 ∧
          row_key "Stream" "Semester" "Gender" r = Some (st, sem, g)
    end.
Proof.
  intros Hdf Hghc H1 H2 H3.
  pose proof (assign_houses_run shuffle s df ghc d0 c0 Hdf Hghc) as Hrun.
  cbv zeta in Hrun. rewrite Hrun. clear Hrun.
  pose proof (groupby_columns d0 _ _ _ H1 H2 H3) as Hgb. rewrite Hgb.
  set (groups := map (λ k, (k, group_index "Stream" "Semester" "Gender" d0 k))
                    (group_keys "Stream" "Semester" "Gender" d0)) in *.
  pose proof (groupby_well_grouped _ _ _ _ _ Hgb) as Hwg.
  set (sb := mkState (frames s ++ [setitem d0 "House" VNone]) (dicts s)
                     (rng_calls s) (screen s)).
  assert (length (frames s) < length (frames sb)) as Hla.
  { unfold sb. cbn [frames]. rewrite length_app. simpl. lia. }
  assert (ghc < length (dicts sb)) as Hghc' by (by eapply lookup_lt_Some).
  destruct (for_each _ _ _) as [[[]|e] s1] eqn:Hloop.
  - exists (Ret (length (frames s))), s1. split; [done|].
    apply (for_each_assign_group_returned shuffle Hshuffle sb _ ghc Hla Hghc'
             d0 c0 (rng_calls s) groups Hwg) in Hloop as (_ & _ & _ & _ & Hkeys).
    intros r st sem g Hr Hkey.
    assert ((st, sem, g) ∈ group_keys "Stream" "Semester" "Gender" d0) as Hin.
    { apply group_keys_elem. eauto. }
    apply list_elem_of_lookup_1 in Hin as [j Hj].
    apply (Hkeys j st sem g (group_index "Stream" "Semester" "Gender" d0 (st, sem, g))).
    unfold groups. rewrite list_lookup_fmap.
    etrans; [exact (f_equal (fmap _) Hj)|done].
  - exists (Raise e), s1. split; [done|].
    destruct (for_each_raised
      (λ k s1, ∃ adf c, s1 = with_objs sb (length (frames s)) adf ghc c (rng_calls s + k) ∧
                        assigned_upto shuffle d0 c0 (rng_calls s) groups k adf c)
      groups _ _ _ _ Hloop) as (k & [[[st sem] g] index] & s2 & Hk & (adf & c & -> & Hup) & Hbody).
    + exists (setitem d0 "House" VNone), c0. split; [by rewrite Nat.add_0_r|].
      apply assigned_upto_0.
    + intros k [[[st sem] g] index] s2 s3 Hk (adf & c & -> & Hup) Hbody.
      pose proof (assign_group_step shuffle Hshuffle sb _ ghc Hla Hghc'
                    d0 c0 (rng_calls s) groups Hwg k st sem g index adf c Hk Hup) as Hstep.
      destruct (c !! g) as [d|].
      * destruct Hstep as (adf' & c' & Hrun' & Hup'). exists adf', c'. split; [|done].
        assert ((Ret (), s3) = (Ret (), with_objs sb (length (frames s)) adf' ghc c'
                                          (rng_calls s + S k))) as H
          by (etrans; [symmetry; exact Hbody|exact Hrun']).
        exact (f_equal snd H).
      * assert ((Ret (), s3) = (Raise (KeyError g), with_objs sb (length (frames s)) adf ghc c
                                          (rng_calls s + S k))) as [=].
        etrans; [symmetry; exact Hbody|exact Hstep].
    + pose proof (assign_group_step shuffle Hshuffle sb _ ghc Hla Hghc'
                    d0 c0 (rng_calls s) groups Hwg k st sem g index adf c Hk Hup) as Hstep.
      destruct (c !! g) as [d|] eqn:Hg.
      * destruct Hstep as (adf' & c' & Hrun' & _).
        assert ((Raise e, s1) = (Ret (), with_objs sb (length (frames s)) adf' ghc c'
                                          (rng_calls s + S k))) as [=].
        etrans; [symmetry; exact Hbody|exact Hrun'].
      * assert ((Raise e, s1) = (Raise (KeyError g), with_objs sb (length (frames s)) adf ghc c
                                          (rng_calls s + S k))) as H
          by (etrans; [symmetry; exact Hbody|exact Hstep]).
        injection H as -> _.
        unfold groups in Hk. apply groups_lookup in Hk as [Hk _].
        apply list_elem_of_lookup_2, group_keys_elem in Hk as (r & Hr & Hkey).
        exists r, st, sem, g. split; [done|]. split; [|done].
        destruct Hup as (_ & _ & _ & _ & Hdom).
        destruct (c0 !! g) eqn:Hc0; [|done].
        assert (is_Some (c !! g)) as [? ?] by (apply Hdom; eauto). congruence.
Qed.
End unknown_gender.

(** * [assign_houses]: the counters and the genders *)

Section assign_houses_counters.
Context (shuffle : nat → list nat → list nat).
Hypothesis Hshuffle : ∀ n l, shuffle n l ≡ₚ l.

(** X1.  The counters are a running count of the assignments: when
    [assign_houses] returns, the counter of every gender and house has
    grown by the number of rows of that gender that hold that house in the
    returned table. *)
Theorem assign_houses_counters s df ghc d0 c0 l s' :
  frames s !! df = Some d0 →
  dicts s !! ghc = Some c0 →
  assign_houses shuffle df ghc s = (Ret l, s') →
  ∃ adf c', frames s' !! l = Some adf ∧ dicts s' !! ghc = Some c' ∧
    ∀ g h, counter_value c' g h = counter_value c0 g h + gender_house_count adf g h.
Proof.
  intros Hdf Hghc Hrun.
  destruct (assign_houses_counted shuffle Hshuffle s df ghc d0 c0 l s' Hdf Hghc Hrun)
    as (adf & c' & _ & Hadf & Hc' & Hcounts & _).
  exists adf, c'. done.
Qed.

(** X2.  Counters in which, for every gender, no house is ahead of
    another by more than one are still so when [assign_houses] returns:
    every group deals its first houses to those that are behind. *)
Theorem assign_houses_keeps_balance s df ghc d0 c0 l s' :
  frames s !! df = Some d0 →
  dicts s !! ghc = Some c0 →
  balanced c0 →
  assign_houses shuffle df ghc s = (Ret l, s') →
  ∃ c', dicts s' !! ghc = Some c' ∧ balanced c'.
Proof.
  intros Hdf Hghc Hbal Hrun.
  destruct (assign_houses_counted shuffle Hshuffle s df ghc d0 c0 l s' Hdf Hghc Hrun)
    as (adf & c' & _ & _ & Hc' & _ & Hbal').
  exists c'. split; [done|]. by apply Hbal'.
Qed.

(** X3.  Started on counters that are all zero, as the pages start it,
    [assign_houses] returns a table that is balanced over each gender as
    a whole, and not only inside each group: the numbers of rows of a
    gender that hold any two houses differ by at most one. *)
Theorem assign_houses_gender_balance s df ghc d0 c0 l s' :
  frames s !! df = Some d0 →
  dicts s !! ghc = Some c0 →
  (∀ g h, counter_value c0 g h = 0) →
  assign_houses shuffle df ghc s = (Ret l, s') →
  ∃ adf, frames s' !! l = Some adf ∧
    ∀ g h1 h2, h1 ∈ keys HOUSE_COLORS → h2 ∈ keys HOUSE_COLORS →
      gender_house_count adf g h1 ≤ gender_house_count adf g h2 + 1.
Proof.
  intros Hdf Hghc Hzero Hrun.
  destruct (assign_houses_counted shuffle Hshuffle s df ghc d0 c0 l s' Hdf Hghc Hrun)
    as (adf & c' & _ & Hadf & _ & Hcounts & Hbal).
  exists adf. split; [done|]. intros g h1 h2 H1 H2.
  assert (balanced c0) as Hbal0 by (intros g' ? ? _ _; rewrite !Hzero; lia).
  pose proof (Hbal Hbal0 g h1 h2 H1 H2) as Hle.
  rewrite !Hcounts, !Hzero in Hle. exact Hle.
Qed.

(** X5.  A plain dictionary of counters that lacks the gender of a group
    stops [assign_houses] with the [KeyError] of such a gender. *)
Theorem assign_houses_KeyError s df ghc d0 c0 p r st sem g :
  frames s !! df = Some d0 →
  dicts s !! ghc = Some c0 →
  "Stream" ∈ columns d0 → "Semester" ∈ columns d0 → "Gender" ∈ columns d0 →
  rows d0 !! p = Some r →
  row_key "Stream" "Semester" "Gender" r = Some (st, sem, g) →
  c0 !! g = None →
  ∃ g' s', assign_houses shuffle df ghc s = (Raise (KeyError g'), s') ∧
    c0 !! g' = None ∧ g' ≠ VNone ∧
    ∃ r', r' ∈ rows d0 ∧ cell r' "Gender" = g'.
Proof.
  intros Hdf Hghc H1 H2 H3 Hp Hkey Hg.
  destruct (assign_houses_Ret_or_KeyError shuffle Hshuffle s df ghc d0 c0 Hdf Hghc H1 H2 H3)
    as ([l|e] & s' & Hrun & Hout).
  - destruct (Hout r st sem g) as [d Hd]; [by eapply list_elem_of_lookup_2|done|].
    congruence.
  - destruct Hout as (r' & st' & sem' & g' & -> & Hg' & Hr' & Hkey').
    apply row_key_Gender in Hkey' as [Hgen Hne].
    exists g', s'. eauto 10.
Qed.

End assign_houses_counters.

Lemma twin_assign_houses :
  assign_houses reversing 0 0 twin_store = (Ret 1, twin_assigned_store).
Proof. vm_compute. reflexivity. Qed.

Lemma assign_houses_counters_witness :
  ∃ adf c', frames twin_assigned_store !! 1 = Some adf ∧
    dicts twin_assigned_store !! 0 = Some c' ∧
    ∀ g h, counter_value c' g h
           = counter_value fresh_counts g h + gender_house_count adf g h.
Proof.
  apply (assign_houses_counters reversing reversing_Permutation
           twin_store 0 0 twin fresh_counts 1 twin_assigned_store).
  - reflexivity.
  - reflexivity.
  - vm_compute. reflexivity.
Defined.

Lemma assign_houses_keeps_balance_witness :
  ∃ c', dicts twin_assigned_store !! 0 = Some c' ∧ balanced c'.
Proof.
  apply (assign_houses_keeps_balance reversing reversing_Permutation
           twin_store 0 0 twin fresh_counts 1 twin_assigned_store).
  - reflexivity.
  - reflexivity.
  - exact balanced_fresh_counts.
  - vm_compute. reflexivity.
Defined.

Lemma assign_houses_gender_balance_witness :
  ∃ adf, frames twin_assigned_store !! 1 = Some adf ∧
    ∀ g h1 h2, h1 ∈ keys HOUSE_COLORS → h2 ∈ keys HOUSE_COLORS →
      gender_house_count adf g h1 ≤ gender_house_count adf g h2 + 1.
Proof.
  apply (assign_houses_gender_balance reversing reversing_Permutation
           twin_store 0 0 twin fresh_counts 1 twin_assigned_store).
  - reflexivity.
  - reflexivity.
  - exact counter_value_fresh_counts.
  - vm_compute. reflexivity.
Defined.

Lemma assign_houses_total_witness :
  ∃ s', assign_houses reversing 0 0 physics_store = (Ret (length (frames physics_store)), s').
Proof.
  apply (assign_houses_total reversing reversing_Permutation
           physics_store 0 0 physics fresh_counts).
  - reflexivity.
  - reflexivity.
  - by_evaluation.
  - by_evaluation.
  - by_evaluation.
  - intros r st sem g Hr Hkey.
    assert (forallb (λ r, match row_key "Stream" "Semester" "Gender" r with
                          | Some k => bool_decide (is_Some (fresh_counts !! k.2))
                          | None => true
                          end) (rows physics) = true) as Hall
      by (vm_compute; reflexivity).
    rewrite forallb_forall in Hall. apply list_elem_of_In in Hr.
    specialize (Hall r Hr). rewrite Hkey in Hall.
    exact (bool_decide_eq_true_1 _ Hall).
Defined.

Lemma assign_houses_KeyError_witness :
  ∃ g' s', assign_houses reversing 0 0 spelled_store = (Raise (KeyError g'), s') ∧
    fresh_counts !! g' = None ∧ g' ≠ VNone ∧
    ∃ r', r' ∈ rows spelled ∧ cell r' "Gender" = g'.
Proof.
  apply (assign_houses_KeyError reversing reversing_Permutation
           spelled_store 0 0 spelled fresh_counts
           0 (<["Stream" := VStr "Chemistry"]> (student "E1" "Asha" "Male" 1))
           (VStr "Chemistry") (VNum 1) (VStr "Male")).
  - reflexivity.
  - reflexivity.
  - by_evaluation.
  - by_evaluation.
  - by_evaluation.
  - vm_compute. reflexivity.
  - vm_compute. reflexivity.
  - vm_compute. reflexivity.
Defined.

(** * [main]: what a run comes to *)

Lemma issubset_true cols df c :
  issubset cols df = true → c ∈ cols → c ∈ columns df.
Proof.
  unfold issubset. intros Hall Hc. rewrite forallb_forall in Hall.
  apply list_elem_of_In, Hall in Hc. by apply bool_decide_eq_true_1 in Hc.
Qed.

Lemma load_Ret_Directory w df :
  load_all_students_from_data_folder w = Ret df →
  ∃ listing, data_folder w = Directory listing.
Proof.
  unfold load_all_students_from_data_folder.
  destruct (data_folder w); [done..|]. eauto.
Qed.

(** [main] on a folder whose table has the required columns: the page of
    the menu, run after the title and the menu. *)
Lemma main_menu_page shuffle w ui loaded :
  load_all_students_from_data_folder w = Ret loaded →
  issubset required_cols loaded = true →
  main shuffle w ui initial = menu_page shuffle ui (at_menu loaded).
Proof.
  intros Hload Hsub. rewrite main_run.
  destruct (load_Ret_Directory w loaded Hload) as [listing ->].
  by rewrite Hload, Hsub.
Qed.

Section main_pages.
Context (shuffle : nat → list nat → list nat).
Hypothesis Hshuffle : ∀ n l, shuffle n l ≡ₚ l.

(** The two pages that assign houses start by calling [assign_houses] on
    the loaded table and fresh counters. *)
Lemma menu_page_assigns ui loaded :
  menu ui = "House Distribution" ∨ menu ui = "Visualize" →
  ∃ es, ∀ e s',
    assign_houses shuffle 0 0 (mkState [loaded] [fresh_counts] 0
                                 ([StPageConfig; StTitle; StSidebarWidget "Menu"] ++ es))
    = (Raise e, s') →
    menu_page shuffle ui (at_menu loaded) = (Raise e, s').
Proof.
  intros [Hm|Hm]; unfold menu_page; rewrite Hm; cbn [String.eqb Ascii.eqb Bool.eqb].
  - exists [StSubheader "House Distribution"]. intros e s' Hrun.
    unfold house_distribution_page.
    rewrite bind_run. cbn [emit at_menu frames dicts rng_calls screen app].
    rewrite bind_run. cbn [new_dict frames dicts rng_calls screen app length].
    rewrite bind_run. cbn [app] in Hrun. by rewrite Hrun.
  - exists []. intros e s' Hrun.
    rewrite bind_run. cbn [new_dict at_menu frames dicts rng_calls screen app length].
    rewrite bind_run. cbn [app] in Hrun. by rewrite Hrun.
Qed.

(** X6.  A roster with a gender other than M and F in a row that has its
    semester stops the two pages that assign houses: [main] raises the
    [KeyError] of such a gender and shows neither table nor chart. *)
Theorem main_unknown_gender w ui loaded p r st sem g :
  load_all_students_from_data_folder w = Ret loaded →
  issubset required_cols loaded = true →
  rows loaded !! p = Some r →
  row_key "Stream" "Semester" "Gender" r = Some (st, sem, g) →
  g ≠ VStr "M" → g ≠ VStr "F" →
  menu ui = "House Distribution" ∨ menu ui = "Visualize" →
  ∃ g' s', main shuffle w ui initial = (Raise (KeyError g'), s') ∧
    g' ≠ VStr "M" ∧ g' ≠ VStr "F" ∧ g' ≠ VNone ∧
    ∃ r', r' ∈ rows loaded ∧ cell r' "Gender" = g'.
Proof.
  intros Hload Hsub Hp Hkey HM HF Hmenu.
  rewrite (main_menu_page shuffle w ui loaded Hload Hsub).
  destruct (menu_page_assigns ui loaded Hmenu) as [es Hpage].
  set (s1 := mkState [loaded] [fresh_counts] 0
               ([StPageConfig; StTitle; StSidebarWidget "Menu"] ++ es)) in *.
  assert (fresh_counts !! g = None) as Hg.
  { unfold fresh_counts. rewrite lookup_insert_ne by congruence.
    by rewrite lookup_singleton_ne by congruence. }
  destruct (assign_houses_Ret_or_KeyError shuffle Hshuffle s1 0 0 loaded fresh_counts)
    as ([l|e] & s' & Hrun & Hout); try done.
  1-3: eapply issubset_true; [exact Hsub|]; by_evaluation.
  - destruct (Hout r st sem g) as [d Hd]; [by eapply list_elem_of_lookup_2|done|].
    congruence.
  - destruct Hout as (r' & st' & sem' & g' & -> & Hg' & Hr' & Hkey').
    apply row_key_Gender in Hkey' as [Hgen Hne].
    exists g', s'. split; [by apply Hpage|].
    split; [by intros ->|]. split; [by intros ->|]. eauto.
Qed.

End main_pages.

Section main_gate.
Context (shuffle : nat → list nat → list nat).

(** X7.  The raw table is behind the password: on the menu entry View
    Data, with any other password than the right one [main] shows the
    password box, the sidebar error unless the box is empty, and the
    warning, and never runs [view_data_page]; with the right one it runs
    [view_data_page] on the loaded table. *)
Theorem main_view_data_gate w ui loaded :
  load_all_students_from_data_folder w = Ret loaded →
  issubset required_cols loaded = true →
  menu ui = "View Data" →
  (password ui ≠ "nfsu@123" →
     main shuffle w ui initial
     = (Ret (), shows (at_menu loaded)
                  ([StSidebarWidget "Enter Admin Password"]
                   ++ (if String.eqb (password ui) "" then []
                       else [StSidebarError IncorrectPassword])
                   ++ [StWarning AccessDenied]))) ∧
  (password ui = "nfsu@123" →
     main shuffle w ui initial
     = view_data_page 0 ui
         (shows (at_menu loaded) [StSidebarWidget "Enter Admin Password"])).
Proof.
  intros Hload Hsub Hmenu.
  rewrite (main_menu_page shuffle w ui loaded Hload Hsub).
  unfold menu_page. rewrite Hmenu. cbn [String.eqb Ascii.eqb Bool.eqb].
  rewrite bind_run. unfold verify_password.
  rewrite bind_run. cbn [emit at_menu frames dicts rng_calls screen app].
  split.
  - intros Hpw. apply String.eqb_neq in Hpw. rewrite Hpw.
    rewrite bind_run. destruct (String.eqb (password ui) ""); done.
  - intros Hpw. apply String.eqb_eq in Hpw. rewrite Hpw. done.
Qed.

Lemma load_no_workbook listing : ∀ acc,
  Forall (λ e : string * outcome DataFrame, endswith e.1 ".xlsx" = false) listing →
  fold_each listing (λ all_data '(filename, read),
    if endswith filename ".xlsx"
    then df ← read;
         let df := setitem df "Stream" (VStr (splitext_root filename)) in
         Ret (concat all_data df)
    else Ret all_data) acc = Ret acc.
Proof.
  induction listing as [|[fn rd] listing IH]; intros acc Hall; [done|].
  apply list.Forall_cons in Hall as [Hfn Hall]. simpl in Hfn.
  cbn [fold_each]. rewrite Hfn. by apply IH.
Qed.

(** X8.  A folder that holds no [.xlsx] file, an empty one included, is
    loaded as the empty table, and [main] stops on the message about the
    missing columns without reading any entry. *)
Theorem main_no_workbook w ui listing :
  data_folder w = Directory listing →
  Forall (λ e : string * outcome DataFrame, endswith e.1 ".xlsx" = false) listing →
  load_all_students_from_data_folder w = Ret empty_frame ∧
  main shuffle w ui initial
  = (Ret (), mkState [empty_frame] [] 0
               [StPageConfig; StTitle; StError MissingRequiredColumns]).
Proof.
  intros Hw Hall.
  assert (load_all_students_from_data_folder w = Ret empty_frame) as Hload.
  { unfold load_all_students_from_data_folder. rewrite Hw. by apply load_no_workbook. }
  split; [done|]. rewrite main_run, Hw, Hload. done.
Qed.

End main_gate.

Lemma spelled_loaded :
  load_all_students_from_data_folder spelled_world = Ret spelled.
Proof. vm_compute. reflexivity. Qed.

Lemma main_unknown_gender_witness :
  let ui := mkSession "House Distribution" "" [] [] [] [] "All" in
  ∃ g' s', main reversing spelled_world ui initial = (Raise (KeyError g'), s') ∧
    g' ≠ VStr "M" ∧ g' ≠ VStr "F" ∧ g' ≠ VNone ∧
    ∃ r', r' ∈ rows spelled ∧ cell r' "Gender" = g'.
Proof.
  apply (main_unknown_gender reversing reversing_Permutation spelled_world
           (mkSession "House Distribution" "" [] [] [] [] "All") spelled
           0 (<["Stream" := VStr "Chemistry"]> (student "E1" "Asha" "Male" 1))
           (VStr "Chemistry") (VNum 1) (VStr "Male")).
  - vm_compute. reflexivity.
  - vm_compute. reflexivity.
  - vm_compute. reflexivity.
  - vm_compute. reflexivity.
  - discriminate.
  - discriminate.
  - left. reflexivity.
Defined.

Lemma main_view_data_gate_witness :
  let ui := mkSession "View Data" "letmein" [] [] [] [] "All" in
  (password ui ≠ "nfsu@123" →
     main reversing physics_world ui initial
     = (Ret (), shows (at_menu physics)
                  ([StSidebarWidget "Enter Admin Password"]
                   ++ (if String.eqb (password ui) "" then []
                       else [StSidebarError IncorrectPassword])
                   ++ [StWarning AccessDenied]))) ∧
  (password ui = "nfsu@123" →
     main reversing physics_world ui initial
     = view_data_page 0 ui
         (shows (at_menu physics) [StSidebarWidget "Enter Admin Password"])).
Proof.
  apply (main_view_data_gate reversing physics_world
           (mkSession "View Data" "letmein" [] [] [] [] "All") physics).
  - vm_compute. reflexivity.
  - vm_compute. reflexivity.
  - reflexivity.
Defined.

Lemma main_no_workbook_witness :
  let w := mkWorld (Directory [("notes.txt", Raise ReadError)]) in
  let ui := mkSession "Visualize" "" [] [] [] [] "All" in
  load_all_students_from_data_folder w = Ret empty_frame ∧
  main reversing w ui initial
  = (Ret (), mkState [empty_frame] [] 0
               [StPageConfig; StTitle; StError MissingRequiredColumns]).
Proof.
  apply (main_no_workbook reversing
           (mkWorld (Directory [("notes.txt", Raise ReadError)]))
           (mkSession "Visualize" "" [] [] [] [] "All")
           [("notes.txt", Raise ReadError)]).
  - reflexivity.
  - repeat constructor.
Defined.

(** * The loader *)

Lemma concat_columns a b c :
  c ∈ columns (concat a b) ↔ c ∈ columns a ∨ c ∈ columns b.
Proof.
  unfold concat. cbn [columns]. rewrite elem_of_app. split.
  - intros [?|Hb]; [by left|right].
    apply list_elem_of_In, filter_In in Hb as [Hb _]. by apply list_elem_of_In.
  - intros [?|Hb]; [by left|].
    destruct (decide (c ∈ columns a)); [by left|right].
    apply list_elem_of_In, filter_In.
    split; [by apply list_elem_of_In|]. by rewrite bool_decide_eq_false_2.
Qed.

Lemma setitem_columns df c v c' :
  c' ∈ columns (setitem df c v) ↔ c' = c ∨ c' ∈ columns df.
Proof.
  unfold setitem. cbn [columns]. case_decide as Hc.
  - split; [by right|]. by intros [->|?].
  - rewrite elem_of_app, list_elem_of_singleton. tauto.
Qed.

(** The loop of the loader from the table [acc]. *)
Lemma load_fold listing : ∀ acc df,
  fold_each listing (λ all_data '(filename, read),
    if endswith filename ".xlsx"
    then df ← read;
         let df := setitem df "Stream" (VStr (splitext_root filename)) in
         Ret (concat all_data df)
    else Ret all_data) acc = Ret df →
  rows df = rows acc ++ flat_map workbook_rows listing ∧
  (∀ c, c ∈ columns df ↔
        c ∈ columns acc ∨
        ∃ fn d, (fn, Ret d) ∈ listing ∧ endswith fn ".xlsx" = true ∧
                (c = "Stream" ∨ c ∈ columns d)) ∧
  Forall (λ e : string * outcome DataFrame,
            endswith e.1 ".xlsx" = true → ∃ d, e.2 = Ret d) listing.
Proof.
  induction listing as [|[fn rd] listing IH]; intros acc df Hrun.
  - injection Hrun as <-. cbn [flat_map]. rewrite app_nil_r.
    split; [done|]. split; [|done]. intros c. split; [by left|].
    intros [?|(? & ? & []%elem_of_nil & _)]. done.
  - cbn [fold_each] in Hrun. cbn [flat_map]. unfold workbook_rows at 1. cbn [fst snd].
    destruct (endswith fn ".xlsx") eqn:Hfn.
    + destruct rd as [d|e]; [|done]. cbn in Hrun.
      apply IH in Hrun as (Hrows & Hcols & Hall).
      split; [|split].
      * rewrite Hrows. unfold concat at 1. cbn [rows]. by rewrite <- app_assoc.
      * intros c. rewrite Hcols, concat_columns, setitem_columns. split.
        -- intros [[?|[->|?]]|(fn' & d' & ? & ? & ?)]; [by left|right..].
           ++ exists fn, d. split; [left|]. tauto.
           ++ exists fn, d. split; [left|]. tauto.
           ++ exists fn', d'. split; [by right|]. tauto.
        -- intros [?|(fn' & d' & [Heq|?]%elem_of_cons & ? & ?)]; [tauto| |].
           ++ simplify_eq. left. right. tauto.
           ++ right. eauto 10.
      * constructor; [|done]. simpl. eauto.
    + apply IH in Hrun as (Hrows & Hcols & Hall).
      split; [done|]. split.
      * intros c. rewrite Hcols. split.
        -- intros [?|(fn' & d' & ? & ? & ?)]; [by left|right].
           exists fn', d'. split; [by right|]. tauto.
        -- intros [?|(fn' & d' & [Heq|?]%elem_of_cons & ? & ?)]; [tauto| |].
           ++ simplify_eq. congruence.
           ++ right. eauto 10.
      * constructor; [|done]. simpl. congruence.
Qed.

(** X9.  The loaded table is the workbooks of the folder put end to end
    in the order of the listing: the rows of every [.xlsx] entry, each
    with the name of its file in the Stream cell, under the union of the
    columns of the workbooks and Stream.  Entries with another name add
    nothing, and every workbook was read. *)
Theorem load_rows w listing df :
  data_folder w = Directory listing →
  load_all_students_from_data_folder w = Ret df →
  rows df = flat_map workbook_rows listing ∧
  (∀ c, c ∈ columns df ↔
        ∃ fn d, (fn, Ret d) ∈ listing ∧ endswith fn ".xlsx" = true ∧
                (c = "Stream" ∨ c ∈ columns d)) ∧
  Forall (λ e : string * outcome DataFrame,
            endswith e.1 ".xlsx" = true → ∃ d, e.2 = Ret d) listing.
Proof.
  intros Hw. unfold load_all_students_from_data_folder. rewrite Hw.
  intros (Hrows & Hcols & Hall)%load_fold.
  split; [done|]. split; [|done].
  intros c. rewrite Hcols. cbn [columns empty_frame]. split; [|by right].
  intros [[]%elem_of_nil|?]. done.
Qed.

Lemma workbook_rows_Stream e r :
  r ∈ workbook_rows e →
  endswith e.1 ".xlsx" = true ∧ cell r "Stream" = VStr (splitext_root e.1).
Proof.
  unfold workbook_rows. destruct (endswith e.1 ".xlsx"); [|by intros []%elem_of_nil].
  destruct e.2 as [d|]; [|by intros []%elem_of_nil].
  unfold setitem. cbn [rows]. intros (r0 & -> & _)%list_elem_of_fmap.
  by rewrite cell_insert_eq.
Qed.

(** X10.  Every row of the loaded table names, in its Stream cell, an
    [.xlsx] file of the folder without its extension; whatever Stream
    column a workbook had is overwritten, and no Stream cell is missing. *)
Theorem load_Stream w listing df r :
  data_folder w = Directory listing →
  load_all_students_from_data_folder w = Ret df →
  r ∈ rows df →
  ∃ fn read, (fn, read) ∈ listing ∧ endswith fn ".xlsx" = true ∧
    cell r "Stream" = VStr (splitext_root fn).
Proof.
  intros Hw. unfold load_all_students_from_data_folder. rewrite Hw.
  intros (Hrows & _ & _)%load_fold Hr.
  rewrite Hrows in Hr. cbn [rows empty_frame app] in Hr.
  apply list_elem_of_In, in_flat_map in Hr as ([fn rd] & Hin & Hr).
  apply list_elem_of_In in Hin, Hr.
  apply workbook_rows_Stream in Hr as [Hfn Hs]. eauto.
Qed.

Lemma load_fold_Raise listing fn e rest : ∀ acc,
  Forall (λ e : string * outcome DataFrame,
            endswith e.1 ".xlsx" = true → ∃ d, e.2 = Ret d) listing →
  endswith fn ".xlsx" = true →
  fold_each (listing ++ (fn, Raise e) :: rest) (λ all_data '(filename, read),
    if endswith filename ".xlsx"
    then df ← read;
         let df := setitem df "Stream" (VStr (splitext_root filename)) in
         Ret (concat all_data df)
    else Ret all_data) acc = Raise e.
Proof.
  intros acc Hall Hfn. revert acc.
  induction Hall as [|[fn' rd] listing Hread Hall IH]; intros acc.
  - cbn [app fold_each]. by rewrite Hfn.
  - cbn [app fold_each]. simpl in Hread.
    destruct (endswith fn' ".xlsx"); [|apply IH].
    destruct Hread as [d ->]; [done|]. apply IH.
Qed.

(** X11.  The loader catches nothing: the error of the first [.xlsx]
    entry that cannot be read is the outcome of the loader, whatever
    follows it in the folder. *)
Theorem load_unreadable w before fn e rest :
  data_folder w = Directory (before ++ (fn, Raise e) :: rest) →
  Forall (λ e : string * outcome DataFrame,
            endswith e.1 ".xlsx" = true → ∃ d, e.2 = Ret d) before →
  endswith fn ".xlsx" = true →
  load_all_students_from_data_folder w = Raise e.
Proof.
  intros Hw Hall Hfn. unfold load_all_students_from_data_folder. rewrite Hw.
  by apply load_fold_Raise.
Qed.

Lemma load_rows_witness :
  rows physics = flat_map workbook_rows (folder_listing physics_world) ∧
  (∀ c, c ∈ columns physics ↔
        ∃ fn d, (fn, Ret d) ∈ folder_listing physics_world ∧
                endswith fn ".xlsx" = true ∧ (c = "Stream" ∨ c ∈ columns d)) ∧
  Forall (λ e : string * outcome DataFrame,
            endswith e.1 ".xlsx" = true → ∃ d, e.2 = Ret d)
         (folder_listing physics_world).
Proof.
  apply (load_rows physics_world (folder_listing physics_world) physics).
  - reflexivity.
  - vm_compute. reflexivity.
Defined.

Lemma load_Stream_witness :
  let r := <["Stream" := VStr "Physics"]> (student "E1" "Asha" "M" 1) in
  ∃ fn read, (fn, read) ∈ folder_listing physics_world ∧
    endswith fn ".xlsx" = true ∧
    cell r "Stream" = VStr (splitext_root fn).
Proof.
  apply (load_Stream physics_world (folder_listing physics_world) physics
           (<["Stream" := VStr "Physics"]> (student "E1" "Asha" "M" 1))).
  - reflexivity.
  - vm_compute. reflexivity.
  - by_evaluation.
Defined.

Lemma load_unreadable_witness :
  load_all_students_from_data_folder
    (mkWorld (Directory [("notes.txt", Raise ReadError);
                         ("Broken.xlsx", Raise ReadError);
                         ("Physics.xlsx", Ret empty_frame)]))
  = Raise ReadError.
Proof.
  apply (load_unreadable
           (mkWorld (Directory [("notes.txt", Raise ReadError);
                                ("Broken.xlsx", Raise ReadError);
                                ("Physics.xlsx", Ret empty_frame)]))
           [("notes.txt", Raise ReadError)] "Broken.xlsx" ReadError
           [("Physics.xlsx", Ret empty_frame)]).
  - reflexivity.
  - constructor; [|constructor]. simpl. discriminate.
  - reflexivity.
Defined.

(** * The pages *)

(** A [multiselect] whose default is its options is always accepted. *)
Lemma multiselect_all {A} `{EqDecision A} label (options : list A) s :
  multiselect label options options s = (Ret (), shows s [StSidebarWidget label]).
Proof.
  unfold multiselect.
  assert (forallb (λ d, bool_decide (d ∈ options)) options = true) as ->; [|done].
  apply forallb_forall. intros x Hx%list_elem_of_In. by apply bool_decide_eq_true_2.
Qed.

(** X13.  The raw-view page asks for three default columns.  On a table
    that lacks one of them, the e-mail column for instance, which [main]
    does not require, the column selector is refused: the page raises
    after the subheader and the three filters and shows no table. *)
Theorem view_data_page_default_cols df ui s d c streams semesters :
  frames s !! df = Some d →
  sorted_values (unique (map (λ r, cell r "Stream") (rows d))) = Ret streams →
  sorted_values (unique (map (λ r, cell r "Semester") (rows d))) = Ret semesters →
  "Stream" ∈ columns d → "Semester" ∈ columns d →
  c ∈ ["Enrollment No"; "Student Name"; "Email-ID"] →
  ¬ c ∈ columns d →
  view_data_page df ui s
  = (Raise StreamlitAPIException,
     shows s [StSubheader "View Student Data";
              StSidebarWidget "Filter by Stream";
              StSidebarWidget "Filter by Semester";
              StSidebarWidget "Filter by Gender"]).
Proof.
  intros Hdf Hst Hsem H1 H2 Hc Hnc. unfold view_data_page.
  rewrite bind_run. cbn [emit]. rewrite bind_run.
  unfold get_frame at 1. cbn [frames]. rewrite Hdf.
  rewrite bind_run. unfold lift at 1. rewrite (getitem_In d "Stream" H1).
  rewrite bind_run. unfold lift at 1. rewrite Hst.
  rewrite bind_run. unfold lift at 1. rewrite (getitem_In d "Semester" H2).
  rewrite bind_run. unfold lift at 1. rewrite Hsem.
  rewrite bind_run, multiselect_all.
  rewrite bind_run, multiselect_all.
  rewrite bind_run, multiselect_all.
  rewrite bind_run. unfold multiselect at 1.
  assert (forallb (λ d0, bool_decide (d0 ∈ columns d))
            ["Enrollment No"; "Student Name"; "Email-ID"] = false) as ->.
  { apply not_true_is_false. intros Hall. rewrite forallb_forall in Hall.
    apply Hnc. apply list_elem_of_In in Hc.
    exact (bool_decide_eq_true_1 _ (Hall c Hc)). }
  unfold raise, shows. cbn [frames dicts rng_calls screen].
  by rewrite <- !app_assoc.
Qed.

Lemma select_eq_mask_VStr c v df :
  rows (select (eq_mask c (VStr v)) df) = filter (λ r, cell r c = VStr v) (rows df).
Proof.
  unfold select. cbn [rows]. rewrite <- filter_bool_decide.
  apply List.filter_ext. intros r. unfold eq_mask.
  rewrite (bool_decide_eq_false_2 (VStr v = VNone)) by done. by rewrite andb_true_r.
Qed.

(** X14.  On a table with a House column the chart page, when it
    returns, has filtered the table by the gender choice (unless it is
    All) and by the selected streams (unless none is selected); it shows
    the warning about no data when nothing is left, and otherwise three
    charts, all of that one filtered table. *)
Theorem visualize_page_charts df ui s d s' :
  frames s !! df = Some d →
  "House" ∈ columns d →
  visualize_page df ui s = (Ret (), s') →
  ∃ viz_df,
    columns viz_df = columns d ∧
    rows viz_df
    = filter (λ r, (gender_filter ui = "All" ∨
                    cell r "Gender" = VStr (gender_filter ui)) ∧
                   keeps "Stream" (selected_streams ui) r) (rows d) ∧
    screen s'
    = screen s
      ++ [StSubheader "House Distribution Visualization";
          StWidget "Select Stream(s)"; StWidget "Filter by Gender"]
      ++ (if empty viz_df then [StWarning NoDataAvailable]
          else [StMarkdown "### Grouped Bar: House Count per Stream";
                StPlotlyChart "House Distribution by Stream" viz_df;
                StMarkdown "### Stacked Bar: Gender within Houses";
                StPlotlyChart "Gender Breakdown per House" viz_df;
                StMarkdown "### Pie Chart: Overall House Proportion";
                StPlotlyChart "Overall House Distribution" viz_df]).
Proof.
  intros Hdf HH. unfold visualize_page.
  intros ([] & s1 & [= <-] & Hrun)%bind_Ret_inv.
  apply bind_Ret_inv in Hrun as (d' & s2 & Hget & Hrun).
  unfold get_frame in Hget. cbn [frames] in Hget. rewrite Hdf in Hget.
  injection Hget as <- <-.
  rewrite (bool_decide_eq_true_2 _ HH) in Hrun. cbn [negb] in Hrun.
  apply bind_Ret_inv in Hrun as (col & s3 & [_ ->]%lift_inv & Hrun).
  apply bind_Ret_inv in Hrun as (opts & s3 & [_ ->]%lift_inv & Hrun).
  apply bind_Ret_inv in Hrun as ([] & s3 & [= <-] & Hrun).
  apply bind_Ret_inv in Hrun as ([] & s3 & [= <-] & Hrun).
  apply bind_Ret_inv in Hrun as (viz0 & s3 & Hviz0 & Hrun).
  apply bind_Ret_inv in Hrun as (viz_df & s4 & [Hviz ->]%lift_inv & Hrun).
  apply filter_if_selected_Ret in Hviz as [Hcols Hrows].
  assert (s3 = shows s [StSubheader "House Distribution Visualization";
                        StWidget "Select Stream(s)"; StWidget "Filter by Gender"] ∧
          columns viz0 = columns d ∧
          rows viz0 = filter (λ r, gender_filter ui = "All" ∨
                                   cell r "Gender" = VStr (gender_filter ui)) (rows d))
    as (-> & Hcols0 & Hrows0).
  { destruct (String.eqb (gender_filter ui) "All") eqn:Hgf; cbn [negb] in Hviz0.
    - injection Hviz0 as <- <-. apply String.eqb_eq in Hgf.
      split; [by unfold shows; cbn [frames dicts rng_calls screen]; rewrite <- !app_assoc|].
      split; [done|]. symmetry. apply filter_all. by left.
    - apply bind_Ret_inv in Hviz0 as (col' & s5 & [_ ->]%lift_inv & [= <- <-]).
      apply String.eqb_neq in Hgf.
      split; [by unfold shows; cbn [frames dicts rng_calls screen]; rewrite <- !app_assoc|].
      split; [done|]. rewrite select_eq_mask_VStr.
      apply list_filter_iff. intros r. split; [by right|]. by intros [?|?]. }
  exists viz_df. split; [congruence|]. split.
  { rewrite Hrows, Hrows0, list_filter_filter. apply list_filter_iff. intros r. tauto. }
  destruct (empty viz_df).
  - injection Hrun as <-. cbn [shows screen]. by rewrite <- !app_assoc.
  - apply bind_Ret_inv in Hrun as ([] & s5 & [= <-] & Hrun).
    apply bind_Ret_inv in Hrun as ([] & s5 & [= <-] & Hrun).
    apply bind_Ret_inv in Hrun as ([] & s5 & [= <-] & Hrun).
    apply bind_Ret_inv in Hrun as ([] & s5 & [= <-] & Hrun).
    apply bind_Ret_inv in Hrun as ([] & s5 & [= <-] & Hrun).
    injection Hrun as <-. cbn [shows screen frames dicts rng_calls].
    by rewrite <- !app_assoc.
Qed.

(** ** The house distribution page *)

(** What the page writes under House Stats by Gender for one gender. *)
Lemma house_counts_gender adf g :
  house_counts (select (eq_mask "Gender" (VStr g)) adf)
  = map (λ h, (h, gender_house_count adf (VStr g) h)) (keys HOUSE_COLORS).
Proof.
  unfold house_counts. apply map_ext. intros h. f_equal.
  rewrite filter_bool_decide, select_eq_mask_VStr, list_filter_filter.
  unfold gender_house_count. f_equal. apply list_filter_iff. intros r. tauto.
Qed.

Section house_distribution_page.
Context (shuffle : nat → list nat → list nat).
Hypothesis Hshuffle : ∀ n l, shuffle n l ≡ₚ l.

(** The events of the loop over the two genders, lines 136 to 142. *)
Lemma house_stats_Ret adf s s' :
  for_each ["M"; "F"] (λ gender,
    _ ← lift (getitem adf "Gender");
    let gender_df := select (eq_mask "Gender" (VStr gender)) adf in
    if empty gender_df then mret () else
    emit (StMarkdown ("#### Gender: `" +:+ gender +:+ "`"));;
    _ ← lift (getitem gender_df "House");
    emit (StWrite (house_counts gender_df))) s = (Ret (), s') →
  s' = shows s (flat_map (λ g,
         if empty (select (eq_mask "Gender" (VStr g)) adf) then []
         else [StMarkdown ("#### Gender: `" +:+ g +:+ "`");
               StWrite (house_counts (select (eq_mask "Gender" (VStr g)) adf))])
         ["M"; "F"]).
Proof.
  assert (∀ g s s',
    (_ ← lift (getitem adf "Gender");
     let gender_df := select (eq_mask "Gender" (VStr g)) adf in
     if empty gender_df then mret () else
     emit (StMarkdown ("#### Gender: `" +:+ g +:+ "`"));;
     _ ← lift (getitem gender_df "House");
     emit (StWrite (house_counts gender_df))) s = (Ret (), s') →
    s' = shows s (if empty (select (eq_mask "Gender" (VStr g)) adf) then []
                  else [StMarkdown ("#### Gender: `" +:+ g +:+ "`");
                        StWrite (house_counts (select (eq_mask "Gender" (VStr g)) adf))]))
    as Hbody.
  { intros g s1 s2 (col & s3 & [_ ->]%lift_inv & Hrun)%bind_Ret_inv.
    cbv zeta in Hrun.
    destruct (empty (select (eq_mask "Gender" (VStr g)) adf)).
    - injection Hrun as <-. destruct s1. unfold shows. cbn. by rewrite app_nil_r.
    - apply bind_Ret_inv in Hrun as ([] & s3 & [= <-] & Hrun).
      apply bind_Ret_inv in Hrun as (col' & s3 & [_ ->]%lift_inv & Hrun).
      injection Hrun as <-. unfold shows. cbn [frames dicts rng_calls screen].
      by rewrite <- !app_assoc. }
  cbn [for_each].
  intros ([] & s1 & ->%Hbody & Hrun)%bind_Ret_inv.
  apply bind_Ret_inv in Hrun as ([] & s2 & ->%Hbody & Hrun).
  injection Hrun as <-. unfold shows. cbn [frames dicts rng_calls screen flat_map].
  by rewrite <- !app_assoc, app_nil_r.
Qed.

(** The page when it returns: the table it assigned, the counters it
    used, and what it showed. *)
Lemma house_distribution_page_Ret df ui s d s' :
  frames s !! df = Some d →
  house_distribution_page shuffle df ui s = (Ret (), s') →
  ∃ adf c' wb filtered,
    frames s' = frames s ++ [adf] ∧
    dicts s' = dicts s ++ [c'] ∧
    counts_rows fresh_counts c' adf ∧ balanced c' ∧
    get_excel_download adf = Ret wb ∧
    apply_filters adf ui = Ret filtered ∧
    screen s'
    = screen s
      ++ [StSubheader "House Distribution";
          StDownloadButton wb;
          StSidebarWidget "Filter by Stream";
          StSidebarWidget "Filter by Semester";
          StSidebarWidget "Filter by Gender";
          StDataframe
            (sort_values "House"
               {| columns := display_cols;
                  rows := map (restrict display_cols) (rows filtered) |})
            (map (λ r, highlight_house (cell r "House"))
               (rows (sort_values "House"
                  {| columns := display_cols;
                     rows := map (restrict display_cols) (rows filtered) |})));
          StMarkdown "### House Stats by Gender"]
      ++ flat_map (λ g,
           if empty (select (eq_mask "Gender" (VStr g)) adf) then []
           else [StMarkdown ("#### Gender: `" +:+ g +:+ "`");
                 StWrite (house_counts (select (eq_mask "Gender" (VStr g)) adf))])
           ["M"; "F"].
Proof.
  intros Hdf. unfold house_distribution_page.
  intros ([] & s1 & [= <-] & Hrun)%bind_Ret_inv.
  apply bind_Ret_inv in Hrun as (ghc & s2 & [= <- <-] & Hrun).
  cbn [frames dicts rng_calls screen] in Hrun.
  apply bind_Ret_inv in Hrun as (assigned & s3 & Hassign & Hrun).
  set (s2 := mkState (frames s) (dicts s ++ [fresh_counts]) (rng_calls s)
               (screen s ++ [StSubheader "House Distribution"])) in *.
  assert (dicts s2 !! length (dicts s) = Some fresh_counts) as Hghc.
  { unfold s2. cbn [dicts]. by rewrite lookup_app_r, Nat.sub_diag by lia. }
  destruct (assign_houses_counted shuffle Hshuffle s2 df _ d fresh_counts _ _
              Hdf Hghc Hassign) as (adf & c' & -> & Hadf & Hc' & Hcounts & Hbal).
  destruct (assign_houses_returned shuffle Hshuffle s2 df _ d fresh_counts
              Hdf Hghc _ _ Hassign) as (groups & adf2 & c2 & _ & _ & -> & _ & _).
  rewrite after_assign_new in Hadf. injection Hadf as ->.
  unfold after_assign in Hc'. cbn [dicts s2] in Hc'.
  rewrite list_lookup_insert_eq in Hc' by (rewrite length_app; simpl; lia).
  injection Hc' as ->.
  unfold after_assign in Hrun. cbn [frames dicts rng_calls screen s2] in Hrun.
  rewrite insert_app_r_alt, Nat.sub_diag in Hrun by lia. cbn [insert list_insert] in Hrun.
  clear s2 Hghc Hassign.
  apply bind_Ret_inv in Hrun as (adf' & s4 & Hget & Hrun).
  unfold get_frame in Hget. cbn [frames] in Hget.
  rewrite lookup_app_r, Nat.sub_diag in Hget by lia. injection Hget as <- <-.
  apply bind_Ret_inv in Hrun as (wb & s4 & [Hwb ->]%lift_inv & Hrun).
  apply bind_Ret_inv in Hrun as ([] & s4 & [= <-] & Hrun).
  apply bind_Ret_inv in Hrun as (d' & s4 & Hget & Hrun).
  unfold get_frame in Hget. cbn [frames] in Hget.
  rewrite lookup_app_l in Hget by (by eapply lookup_lt_Some).
  unfold loc in *. rewrite Hdf in Hget.
  injection Hget as <- <-.
  apply bind_Ret_inv in Hrun as (col & s4 & [_ ->]%lift_inv & Hrun).
  apply bind_Ret_inv in Hrun as (streams & s4 & [_ ->]%lift_inv & Hrun).
  apply bind_Ret_inv in Hrun as ([] & s4 & ->%multiselect_Ret & Hrun).
  apply bind_Ret_inv in Hrun as (col' & s4 & [_ ->]%lift_inv & Hrun).
  apply bind_Ret_inv in Hrun as (semesters & s4 & [_ ->]%lift_inv & Hrun).
  apply bind_Ret_inv in Hrun as ([] & s4 & ->%multiselect_Ret & Hrun).
  apply bind_Ret_inv in Hrun as ([] & s4 & ->%multiselect_Ret & Hrun).
  apply bind_Ret_inv in Hrun as (filtered & s4 & [Hf ->]%lift_inv & Hrun).
  apply bind_Ret_inv in Hrun as (shown & s4 & [->%project_Ret ->]%lift_inv & Hrun).
  cbv zeta in Hrun.
  apply bind_Ret_inv in Hrun as ([] & s4 & [= <-] & Hrun).
  apply bind_Ret_inv in Hrun as ([] & s4 & [= <-] & Hrun).
  apply house_stats_Ret in Hrun as ->.
  exists adf, c', wb, filtered.
  unfold shows. cbn [frames dicts rng_calls screen].
  split; [done|]. split; [done|]. split; [done|].
  split; [by apply Hbal, balanced_fresh_counts|]. split; [done|]. split; [done|].
  by rewrite <- !app_assoc.
Qed.

End house_distribution_page.

Section house_distribution_page_extras.
Context (shuffle : nat → list nat → list nat).
Hypothesis Hshuffle : ∀ n l, shuffle n l ≡ₚ l.

(** X15.  The house distribution page, when it returns, has added one
    table to the store, the assignment of the whole input table, and has
    shown: the download of the workbook of that whole table, whatever the
    filters; the three filters; the filtered rows in the six export
    columns, sorted by house, each row styled by its house; and the
    house counts of each gender that has rows. *)
Theorem house_distribution_page_shows df ui s d s' :
  frames s !! df = Some d →
  house_distribution_page shuffle df ui s = (Ret (), s') →
  ∃ adf wb filtered,
    frames s' = frames s ++ [adf] ∧
    get_excel_download adf = Ret wb ∧
    apply_filters adf ui = Ret filtered ∧
    screen s'
    = screen s
      ++ [StSubheader "House Distribution";
          StDownloadButton wb;
          StSidebarWidget "Filter by Stream";
          StSidebarWidget "Filter by Semester";
          StSidebarWidget "Filter by Gender";
          StDataframe
            (sort_values "House"
               {| columns := display_cols;
                  rows := map (restrict display_cols) (rows filtered) |})
            (map (λ r, highlight_house (cell r "House"))
               (rows (sort_values "House"
                  {| columns := display_cols;
                     rows := map (restrict display_cols) (rows filtered) |})));
          StMarkdown "### House Stats by Gender"]
      ++ flat_map (λ g,
           if empty (select (eq_mask "Gender" (VStr g)) adf) then []
           else [StMarkdown ("#### Gender: `" +:+ g +:+ "`");
                 StWrite (house_counts (select (eq_mask "Gender" (VStr g)) adf))])
           ["M"; "F"].
Proof.
  intros Hdf Hrun.
  destruct (house_distribution_page_Ret shuffle Hshuffle df ui s d s' Hdf Hrun)
    as (adf & c' & wb & filtered & Hfr & _ & _ & _ & Hwb & Hf & Hscreen).
  exists adf, wb, filtered. done.
Qed.

(** X16.  Every table of house counts the page writes under House Stats
    by Gender lists the four houses of the palette in its order, with
    counts that differ by at most one: the page starts from fresh
    counters, so each gender is balanced over the whole roster. *)
Theorem house_distribution_page_stats df ui s d s' :
  frames s !! df = Some d →
  house_distribution_page shuffle df ui s = (Ret (), s') →
  ∃ es, screen s' = screen s ++ es ∧
    ∀ t, StWrite t ∈ es →
      map fst t = keys HOUSE_COLORS ∧
      ∀ h1 n1 h2 n2, (h1, n1) ∈ t → (h2, n2) ∈ t → n1 ≤ n2 + 1.
Proof.
  intros Hdf Hrun.
  destruct (house_distribution_page_Ret shuffle Hshuffle df ui s d s' Hdf Hrun)
    as (adf & c' & wb & filtered & _ & _ & Hcounts & Hbal & _ & _ & Hscreen).
  eexists. split; [exact Hscreen|]. intros t Ht.
  assert (∃ g, t = house_counts (select (eq_mask "Gender" (VStr g)) adf)) as [g ->].
  { apply elem_of_app in Ht as [Ht|Ht].
    - repeat (apply elem_of_cons in Ht as [Ht|Ht]; [discriminate|]).
      by apply elem_of_nil in Ht.
    - apply list_elem_of_In, in_flat_map in Ht as (g & _ & Ht).
      destruct (empty _); [done|].
      destruct Ht as [Ht|[Ht|[]]]; [discriminate|]. injection Ht as <-. eauto. }
  rewrite house_counts_gender. split.
  { rewrite map_map. cbn [fst]. apply map_id. }
  intros h1 n1 h2 n2 (h1' & [= -> ->] & H1)%list_elem_of_fmap
                     (h2' & [= -> ->] & H2)%list_elem_of_fmap.
  pose proof (Hbal (VStr g) h1' h2' H1 H2) as Hle.
  rewrite !Hcounts, !counter_value_fresh_counts in Hle. exact Hle.
Qed.

End house_distribution_page_extras.

(** ** The pages on the example folders *)

Lemma view_data_page_shows_witness :
  let ui := mkSession "View Data" "nfsu@123" [] [] [VStr "F"]
              ["Student Name"; "Email-ID"] "All" in
  let s := mkState [maths] [] 0 [] in
  ∃ filtered shown,
    apply_filters maths ui = Ret filtered ∧
    project (selected_cols ui) filtered = Ret shown ∧
    screen (view_data_page 0 ui s).2
    = screen s ++ [StSubheader "View Student Data";
                   StSidebarWidget "Filter by Stream";
                   StSidebarWidget "Filter by Semester";
                   StSidebarWidget "Filter by Gender";
                   StSidebarWidget "Select Columns to Display";
                   StDataframe shown []].
Proof.
  apply (view_data_page_shows 0
           (mkSession "View Data" "nfsu@123" [] [] [VStr "F"]
              ["Student Name"; "Email-ID"] "All")
           (mkState [maths] [] 0 [])
           (view_data_page 0
              (mkSession "View Data" "nfsu@123" [] [] [VStr "F"]
                 ["Student Name"; "Email-ID"] "All")
              (mkState [maths] [] 0 [])).2 maths).
  - reflexivity.
  - vm_compute. reflexivity.
Defined.

Lemma view_data_page_default_cols_witness :
  let ui := mkSession "View Data" "nfsu@123" [] [] [] [] "All" in
  let s := mkState [physics] [] 0 [] in
  view_data_page 0 ui s
  = (Raise StreamlitAPIException,
     shows s [StSubheader "View Student Data";
              StSidebarWidget "Filter by Stream";
              StSidebarWidget "Filter by Semester";
              StSidebarWidget "Filter by Gender"]).
Proof.
  apply (view_data_page_default_cols 0
           (mkSession "View Data" "nfsu@123" [] [] [] [] "All")
           (mkState [physics] [] 0 []) physics "Email-ID"
           [VStr "Physics"] [VNum 1]).
  - reflexivity.
  - vm_compute. reflexivity.
  - vm_compute. reflexivity.
  - by_evaluation.
  - by_evaluation.
  - by_evaluation.
  - apply (bool_decide_eq_false_1 ("Email-ID" ∈ columns physics)).
    vm_compute. reflexivity.
Defined.

Lemma visualize_page_charts_witness :
  let ui := mkSession "Visualize" "" [] [] [] [] "F" in
  ∃ viz_df,
    columns viz_df = columns physics_assigned ∧
    rows viz_df
    = filter (λ r, (gender_filter ui = "All" ∨
                    cell r "Gender" = VStr (gender_filter ui)) ∧
                   keeps "Stream" (selected_streams ui) r) (rows physics_assigned) ∧
    screen (visualize_page 1 ui physics_assigned_store).2
    = screen physics_assigned_store
      ++ [StSubheader "House Distribution Visualization";
          StWidget "Select Stream(s)"; StWidget "Filter by Gender"]
      ++ (if empty viz_df then [StWarning NoDataAvailable]
          else [StMarkdown "### Grouped Bar: House Count per Stream";
                StPlotlyChart "House Distribution by Stream" viz_df;
                StMarkdown "### Stacked Bar: Gender within Houses";
                StPlotlyChart "Gender Breakdown per House" viz_df;
                StMarkdown "### Pie Chart: Overall House Proportion";
                StPlotlyChart "Overall House Distribution" viz_df]).
Proof.
  apply (visualize_page_charts 1 (mkSession "Visualize" "" [] [] [] [] "F")
           physics_assigned_store physics_assigned
           (visualize_page 1 (mkSession "Visualize" "" [] [] [] [] "F")
              physics_assigned_store).2).
  - vm_compute. reflexivity.
  - by_evaluation.
  - vm_compute. reflexivity.
Defined.

Lemma physics_page :
  house_distribution_page reversing 0 male_houses (mkState [physics] [] 0 [])
  = (Ret (), physics_page_store).
Proof. vm_compute. reflexivity. Qed.

Lemma house_distribution_page_shows_witness :
  ∃ adf wb filtered,
    frames physics_page_store = [physics] ++ [adf] ∧
    get_excel_download adf = Ret wb ∧
    apply_filters adf male_houses = Ret filtered ∧
    screen physics_page_store
    = []
      ++ [StSubheader "House Distribution";
          StDownloadButton wb;
          StSidebarWidget "Filter by Stream";
          StSidebarWidget "Filter by Semester";
          StSidebarWidget "Filter by Gender";
          StDataframe
            (sort_values "House"
               {| columns := display_cols;
                  rows := map (restrict display_cols) (rows filtered) |})
            (map (λ r, highlight_house (cell r "House"))
               (rows (sort_values "House"
                  {| columns := display_cols;
                     rows := map (restrict display_cols) (rows filtered) |})));
          StMarkdown "### House Stats by Gender"]
      ++ flat_map (λ g,
           if empty (select (eq_mask "Gender" (VStr g)) adf) then []
           else [StMarkdown ("#### Gender: `" +:+ g +:+ "`");
                 StWrite (house_counts (select (eq_mask "Gender" (VStr g)) adf))])
           ["M"; "F"].
Proof.
  apply (house_distribution_page_shows reversing reversing_Permutation
           0 male_houses (mkState [physics] [] 0 []) physics physics_page_store).
  - reflexivity.
  - exact physics_page.
Defined.

Lemma house_distribution_page_stats_witness :
  ∃ es, screen physics_page_store = [] ++ es ∧
    ∀ t, StWrite t ∈ es →
      map fst t = keys HOUSE_COLORS ∧
      ∀ h1 n1 h2 n2, (h1, n1) ∈ t → (h2, n2) ∈ t → n1 ≤ n2 + 1.
Proof.
  apply (house_distribution_page_stats reversing reversing_Permutation
           0 male_houses (mkState [physics] [] 0 []) physics physics_page_store).
  - reflexivity.
  - exact physics_page.
Defined.

(** * The download and the edges of the assignment *)

Lemma first_missing_Some cols df c :
  c ∈ cols → c ∉ columns df → ∃ c', first_missing cols df = Some c'.
Proof.
  intros Hc Hn. unfold first_missing.
  destruct (List.find _ cols) as [c'|] eqn:Hfind; [eauto|].
  apply list_elem_of_In in Hc. pose proof (find_none _ _ Hfind c Hc) as Hc'.
  cbv beta in Hc'. apply negb_false_iff, bool_decide_eq_true_1 in Hc'. done.
Qed.

(** On a table that lacks a display column a turn of the inner loop
    writes nothing: it skips the pair, or raises before [to_excel]. *)
Lemma export_group_missing df c st g writer :
  first_missing display_cols df = Some c →
  (export_group df st g writer).2 = writer.
Proof.
  intros Hmiss. unfold export_group.
  rewrite writer_bind_run. unfold lift_writer at 1.
  destruct (getitem df "Stream"); [|done].
  rewrite writer_bind_run. unfold lift_writer at 1.
  destruct (getitem df "Gender"); [|done].
  cbv zeta. change (select _ df) with (exported df (st, g)).
  destruct (empty (exported df (st, g))); [done|].
  rewrite writer_bind_run. unfold lift_writer at 1, project.
  change (first_missing display_cols (exported df (st, g)))
    with (first_missing display_cols df).
  by rewrite Hmiss.
Qed.

Lemma for_each_writer_leaves {A} (l : list A) (body : A → W unit) :
  (∀ a writer, (body a writer).2 = writer) →
  ∀ writer, (for_each_writer l body writer).2 = writer.
Proof.
  intros Hbody. induction l as [|a l IH]; intros writer; [done|].
  cbn [for_each_writer]. rewrite writer_bind_run.
  pose proof (Hbody a writer) as Ha.
  destruct (body a writer) as [[[]|e] writer1]; simpl in Ha; subst writer1; [|done].
  apply IH.
Qed.

(** X18.  An exception inside the [with] block does not come out of
    [get_excel_download] when no sheet was written: leaving the block
    saves the workbook, and the [IndexError] of saving an empty workbook
    replaces it.  So on a table that lacks one of the six export columns,
    the House column of a table that was never assigned for instance, the
    function raises [IndexError] whatever the rows, also where the block
    raised the [KeyError] of the missing column. *)
Theorem get_excel_download_missing_column df c :
  c ∈ display_cols → c ∉ columns df →
  get_excel_download df = Raise IndexError.
Proof.
  intros Hc Hn. destruct (first_missing_Some _ _ _ Hc Hn) as [c' Hmiss].
  unfold get_excel_download, with_ExcelWriter.
  match goal with
  | |- context [match ?block [] with _ => _ end] =>
      assert ((block []).2 = []) as Hleft; [|by destruct (block []) as [[[]|e] []]]
  end.
  rewrite writer_bind_run. unfold lift_writer at 1.
  destruct (getitem df "Stream"); [|done].
  rewrite writer_bind_run. unfold lift_writer at 1.
  destruct (sorted_values _); [|done].
  apply for_each_writer_leaves. intros st writer.
  apply for_each_writer_leaves. intros g writer'.
  by apply (export_group_missing df c').
Qed.

Lemma get_excel_download_missing_column_witness :
  get_excel_download physics = Raise IndexError.
Proof.
  apply (get_excel_download_missing_column physics "House").
  - by_evaluation.
  - apply (bool_decide_eq_false_1 ("House" ∈ columns physics)).
    vm_compute. reflexivity.
Defined.


Section assign_houses_edges.
Context (shuffle : nat → list nat → list nat).
Hypothesis Hshuffle : ∀ n l, shuffle n l ≡ₚ l.

(** X19.  [assign_houses] shuffles once per group: when it returns, the
    generator has been called as many times as the table has distinct
    (Stream, Semester, Gender) keys without a missing cell. *)
Theorem assign_houses_shuffles s df ghc d0 c0 l s' :
  frames s !! df = Some d0 →
  dicts s !! ghc = Some c0 →
  assign_houses shuffle df ghc s = (Ret l, s') →
  rng_calls s'
  = rng_calls s + length (group_keys "Stream" "Semester" "Gender" d0).
Proof.
  intros Hdf Hghc Hrun.
  destruct (assign_houses_returned shuffle Hshuffle s df ghc d0 c0 Hdf Hghc l s' Hrun)
    as (groups & adf & c' & Hgb & _ & -> & _ & _).
  apply groupby_Ret in Hgb as [-> _]. by rewrite length_map.
Qed.

(** X20.  On a table in which every row misses a cell of its key, the
    empty table with the three key columns included, [assign_houses]
    returns a copy with a House column that is missing in every row, and
    leaves the counters and the generator as they were. *)
Theorem assign_houses_no_group s df ghc d0 c0 :
  frames s !! df = Some d0 →
  dicts s !! ghc = Some c0 →
  "Stream" ∈ columns d0 → "Semester" ∈ columns d0 → "Gender" ∈ columns d0 →
  (∀ r, r ∈ rows d0 → row_key "Stream" "Semester" "Gender" r = None) →
  assign_houses shuffle df ghc s
  = (Ret (length (frames s)),
     mkState (frames s ++ [setitem d0 "House" VNone]) (dicts s) (rng_calls s) (screen s)).
Proof.
  intros Hdf Hghc H1 H2 H3 Hnone.
  pose proof (assign_houses_run shuffle s df ghc d0 c0 Hdf Hghc) as Hrun.
  cbv zeta in Hrun. rewrite Hrun. clear Hrun.
  rewrite (groupby_columns d0 _ _ _ H1 H2 H3).
  assert (group_keys "Stream" "Semester" "Gender" d0 = []) as ->.
  { apply elem_of_nil_inv. intros k (r & Hr & Hk)%group_keys_elem.
    rewrite (Hnone r Hr) in Hk. done. }
  cbn [map for_each]. unfold mret, M_ret. f_equal.
  apply (with_objs_id (mkState (frames s ++ [setitem d0 "House" VNone]) (dicts s)
                          (rng_calls s) (screen s))); cbn [frames dicts]; [|done].
  by rewrite lookup_app_r, Nat.sub_diag by lia.
Qed.

End assign_houses_edges.

Lemma assign_houses_shuffles_witness :
  rng_calls twin_assigned_store
  = rng_calls twin_store + length (group_keys "Stream" "Semester" "Gender" twin).
Proof.
  apply (assign_houses_shuffles reversing reversing_Permutation
           twin_store 0 0 twin fresh_counts 1 twin_assigned_store).
  - reflexivity.
  - reflexivity.
  - vm_compute. reflexivity.
Defined.

Lemma assign_houses_no_group_witness :
  let d0 := mkDataFrame ["Stream"; "Semester"; "Gender"]
              [{[ "Stream" := VStr "Physics"; "Semester" := VNum 1 ]}] in
  let s := mkState [d0] [fresh_counts] 0 [] in
  assign_houses reversing 0 0 s
  = (Ret (length (frames s)),
     mkState (frames s ++ [setitem d0 "House" VNone]) (dicts s) (rng_calls s) (screen s)).
Proof.
  apply (assign_houses_no_group reversing
           (mkState [mkDataFrame ["Stream"; "Semester"; "Gender"]
                       [{[ "Stream" := VStr "Physics"; "Semester" := VNum 1 ]}]]
                    [fresh_counts] 0 [])
           0 0
           (mkDataFrame ["Stream"; "Semester"; "Gender"]
              [{[ "Stream" := VStr "Physics"; "Semester" := VNum 1 ]}])
           fresh_counts).
  - reflexivity.
  - reflexivity.
  - by_evaluation.
  - by_evaluation.
  - by_evaluation.
  - intros r Hr. apply list_elem_of_singleton in Hr as ->. reflexivity.
Defined.

(** * The filters of the raw-view page *)

(** The run of the raw-view page when it returns. *)
Lemma view_data_page_Ret df ui s s' d :
  frames s !! df = Some d →
  view_data_page df ui s = (Ret (), s') →
  ∃ filtered,
    apply_filters d ui = Ret filtered ∧
    s' = shows s [StSubheader "View Student Data";
                  StSidebarWidget "Filter by Stream";
                  StSidebarWidget "Filter by Semester";
                  StSidebarWidget "Filter by Gender";
                  StSidebarWidget "Select Columns to Display";
                  StDataframe {| columns := selected_cols ui;
                                 rows := map (restrict (selected_cols ui)) (rows filtered) |}
                              []].
Proof.
  intros Hdf. unfold view_data_page.
  intros ([] & s1 & [= <-] & Hrun)%bind_Ret_inv.
  apply bind_Ret_inv in Hrun as (d' & s2 & Hget & Hrun).
  unfold get_frame in Hget. cbn [frames] in Hget. rewrite Hdf in Hget.
  injection Hget as <- <-.
  apply bind_Ret_inv in Hrun as (col & s3 & [_ ->]%lift_inv & Hrun).
  apply bind_Ret_inv in Hrun as (streams & s3 & [_ ->]%lift_inv & Hrun).
  apply bind_Ret_inv in Hrun as (col' & s3 & [_ ->]%lift_inv & Hrun).
  apply bind_Ret_inv in Hrun as (semesters & s3 & [_ ->]%lift_inv & Hrun).
  apply bind_Ret_inv in Hrun as ([] & s3 & ->%multiselect_Ret & Hrun).
  apply bind_Ret_inv in Hrun as ([] & s3 & ->%multiselect_Ret & Hrun).
  apply bind_Ret_inv in Hrun as ([] & s3 & ->%multiselect_Ret & Hrun).
  apply bind_Ret_inv in Hrun as ([] & s3 & ->%multiselect_Ret & Hrun).
  apply bind_Ret_inv in Hrun as (filtered & s3 & [Hf ->]%lift_inv & Hrun).
  apply bind_Ret_inv in Hrun as (shown & s3 & [->%project_Ret ->]%lift_inv & Hrun).
  injection Hrun as <-.
  exists filtered. split; [done|].
  unfold shows. cbn [frames dicts rng_calls screen]. by rewrite <- !app_assoc.
Qed.

(** C7.  The table the raw-view page shows is the table of the page
    filtered on the three dimensions: a row of the table is shown exactly
    when, on each of Stream, Semester and Gender, the selection is empty
    or holds the cell of the row.  So an empty selection leaves the table
    unfiltered on its dimension and a selection that is not empty keeps
    exactly the rows whose value lies in it.  The rows keep their order,
    and the page shows nothing but its subheader, its four selectors and
    this one table, cut down to the selected columns. *)
Theorem view_data_page_filters df ui s s' d :
  frames s !! df = Some d →
  view_data_page df ui s = (Ret (), s') →
  ∃ filtered,
    columns filtered = columns d ∧
    rows filtered
    = filter (λ r, keeps "Gender" (selected_gender ui) r ∧
                   keeps "Semester" (selected_sems ui) r ∧
                   keeps "Stream" (selected_streams ui) r) (rows d) ∧
    (∀ r, r ∈ rows filtered ↔
          r ∈ rows d ∧
          (selected_streams ui = [] ∨ cell r "Stream" ∈ selected_streams ui) ∧
          (selected_sems ui = [] ∨ cell r "Semester" ∈ selected_sems ui) ∧
          (selected_gender ui = [] ∨ cell r "Gender" ∈ selected_gender ui)) ∧
    screen s'
    = screen s
      ++ [StSubheader "View Student Data";
          StSidebarWidget "Filter by Stream";
          StSidebarWidget "Filter by Semester";
          StSidebarWidget "Filter by Gender";
          StSidebarWidget "Select Columns to Display";
          StDataframe {| columns := selected_cols ui;
                         rows := map (restrict (selected_cols ui)) (rows filtered) |}
                      []].
Proof.
  intros Hdf Hrun.
  destruct (view_data_page_Ret df ui s s' d Hdf Hrun) as (filtered & Hf & ->).
  destruct (apply_filters_keeps d ui filtered Hf) as (Hcols & Hrows & _).
  exists filtered. split; [done|]. split; [done|]. split; [|done].
  intros r. rewrite Hrows, list_elem_of_filter. unfold keeps. tauto.
Qed.

Lemma view_data_page_filters_witness :
  let ui := mkSession "View Data" "nfsu@123" [VStr "Maths"] [] [VStr "F"]
              ["Student Name"; "Email-ID"] "All" in
  let s := mkState [maths] [] 0 [] in
  ∃ filtered,
    columns filtered = columns maths ∧
    rows filtered
    = filter (λ r, keeps "Gender" (selected_gender ui) r ∧
                   keeps "Semester" (selected_sems ui) r ∧
                   keeps "Stream" (selected_streams ui) r) (rows maths) ∧
    (∀ r, r ∈ rows filtered ↔
          r ∈ rows maths ∧
          (selected_streams ui = [] ∨ cell r "Stream" ∈ selected_streams ui) ∧
          (selected_sems ui = [] ∨ cell r "Semester" ∈ selected_sems ui) ∧
          (selected_gender ui = [] ∨ cell r "Gender" ∈ selected_gender ui)) ∧
    screen (view_data_page 0 ui s).2
    = screen s
      ++ [StSubheader "View Student Data";
          StSidebarWidget "Filter by Stream";
          StSidebarWidget "Filter by Semester";
          StSidebarWidget "Filter by Gender";
          StSidebarWidget "Select Columns to Display";
          StDataframe {| columns := selected_cols ui;
                         rows := map (restrict (selected_cols ui)) (rows filtered) |}
                      []].
Proof.
  apply (view_data_page_filters 0
           (mkSession "View Data" "nfsu@123" [VStr "Maths"] [] [VStr "F"]
              ["Student Name"; "Email-ID"] "All")
           (mkState [maths] [] 0 [])
           (view_data_page 0
              (mkSession "View Data" "nfsu@123" [VStr "Maths"] [] [VStr "F"]
                 ["Student Name"; "Email-ID"] "All")
              (mkState [maths] [] 0 [])).2 maths).
  - reflexivity.
  - vm_compute. reflexivity.
Defined.

(** * The order of the houses at the turn of each group *)

Lemma for_each_snoc {A} (l : list A) (a : A) (body : A → M unit) s s1 s2 :
  for_each l body s = (Ret (), s1) →
  body a s1 = (Ret (), s2) →
  for_each (l ++ [a]) body s = (Ret (), s2).
Proof.
  revert s. induction l as [|b l IH]; intros s Hl Ha.
  - injection Hl as <-. cbn [app for_each]. rewrite bind_run, Ha. done.
  - cbn [app for_each] in *. rewrite bind_run in *.
    destruct (body b s) as [[[]|e] s3]; [|done]. by apply IH.
Qed.

Section visited.
Context (shuffle : nat → list nat → list nat).
Hypothesis Hshuffle : ∀ n l, shuffle n l ≡ₚ l.
Context (s0 : state) (la ghc : loc).
Hypothesis Hla : la < length (frames s0).
Hypothesis Hghc : ghc < length (dicts s0).
Context (d0 : DataFrame) (c0 : counters) (n0 : nat) (groups : list (key * list nat)).
Hypothesis Hgb : groupby d0 "Stream" "Semester" "Gender" = Ret groups.

(** The loop over the groups, with the store at the turn of each group:
    the houses of a group are dealt in the order of the counters of that
    store, and stay in the table to the end. *)
Lemma for_each_assign_group_visited s' :
  for_each groups (assign_group shuffle la ghc)
    (with_objs s0 la (setitem d0 "House" VNone) ghc c0 n0) = (Ret (), s') →
  ∃ adf' c',
    s' = with_objs s0 la adf' ghc c' (n0 + length groups) ∧
    ∀ j st sem g index, groups !! j = Some ((st, sem, g), index) →
      ∃ adf c d,
        for_each (take j groups) (assign_group shuffle la ghc)
          (with_objs s0 la (setitem d0 "House" VNone) ghc c0 n0)
        = (Ret (), with_objs s0 la adf ghc c (n0 + j)) ∧
        length (rows adf) = length (rows d0) ∧
        c !! g = Some d ∧
        ∀ i p, shuffle (n0 + j) index !! i = Some p →
          (λ r, cell r "House") <$> rows adf' !! p
          = Some (VStr (dealt (house_order d) i)).
Proof.
  intros Hrun.
  pose proof (groupby_well_grouped _ _ _ _ _ Hgb) as Hwg.
  set (start := with_objs s0 la (setitem d0 "House" VNone) ghc c0 n0) in *.
  pose proof (for_each_returned
    (λ k s, ∃ adf' c',
       s = with_objs s0 la adf' ghc c' (n0 + k) ∧
       assigned_upto shuffle d0 c0 n0 groups k adf' c' ∧
       for_each (take k groups) (assign_group shuffle la ghc) start = (Ret (), s) ∧
       ∀ j st sem g index, j < k → groups !! j = Some ((st, sem, g), index) →
         ∃ adf c d,
           for_each (take j groups) (assign_group shuffle la ghc) start
           = (Ret (), with_objs s0 la adf ghc c (n0 + j)) ∧
           length (rows adf) = length (rows d0) ∧
           c !! g = Some d ∧
           ∀ i p, shuffle (n0 + j) index !! i = Some p →
             (λ r, cell r "House") <$> rows adf' !! p
             = Some (VStr (dealt (house_order d) i)))
    groups (assign_group shuffle la ghc) _ _ Hrun) as H.
  destruct H as (adf' & c' & -> & _ & _ & Hall).
  - exists (setitem d0 "House" VNone), c0. unfold start.
    rewrite Nat.add_0_r. split; [done|]. split; [apply assigned_upto_0|].
    split; [done|]. intros; lia.
  - intros k [[[st sem] g] index] s1 s2 Hk (adf & c & -> & Hup & Hpre & Hdone) Hbody.
    pose proof (assign_group_step shuffle Hshuffle s0 la ghc Hla Hghc
                  d0 c0 n0 groups Hwg k st sem g index adf c Hk Hup) as Hstep.
    destruct (c !! g) as [d|] eqn:Hg.
    2: { assert ((Ret (), s2)
                 = (Raise (KeyError g), with_objs s0 la adf ghc c (n0 + S k))) as [=].
         etrans; [symmetry; exact Hbody|exact Hstep]. }
    destruct Hstep as (adf' & c' & Hrun' & Hup').
    assert (s2 = with_objs s0 la adf' ghc c' (n0 + S k)) as ->.
    { assert ((Ret (), s2) = (Ret (), with_objs s0 la adf' ghc c' (n0 + S k))) as H
        by (etrans; [symmetry; exact Hbody|exact Hrun']).
      exact (f_equal snd H). }
    destruct Hwg as [Hwf Hdisj]. destruct (Hwf _ _ _ Hk) as [Hnd Hrange].
    pose proof Hup as (_ & Hlen & _ & _ & _).
    destruct (assign_group_with_objs shuffle Hshuffle s0 la ghc Hla Hghc
                adf c (n0 + k) st sem g index d Hg Hnd)
      as (adf2 & d' & Hrun2 & _ & _ & Hdealt & Hother & _).
    { intros p Hp. rewrite Hlen. by apply Hrange. }
    assert (adf' = adf2 ∧ c' = <[g := d']> c) as [-> ->].
    { eapply (with_objs_inj s0 la ghc); [done..|].
      assert ((Ret (), with_objs s0 la adf' ghc c' (n0 + S k))
              = (Ret (), with_objs s0 la adf2 ghc (<[g := d']> c) (S (n0 + k)))) as H
        by (etrans; [symmetry; exact Hrun'|exact Hrun2]).
      exact (f_equal snd H). }
    exists adf2, (<[g := d']> c). split; [done|]. split; [done|]. split.
    { rewrite (take_S_r _ _ _ Hk). by eapply for_each_snoc. }
    intros j st' sem' g' index' Hj Hj'.
    destruct (decide (j = k)) as [->|Hne].
    + assert ((st, sem, g, index) = (st', sem', g', index')) as [= <- <- <- <-].
      { apply (inj Some). etrans; [symmetry; exact Hk|exact Hj']. }
      exists adf, c, d. split; [done|]. split; [done|]. split; [done|].
      intros i p Hi.
      assert (i < length index) as Hilt.
      { apply lookup_lt_Some in Hi. by rewrite (Permutation_length (Hshuffle _ _)) in Hi. }
      rewrite (Hdealt i p Hilt Hi).
      assert (p < length (rows adf)) as Hp.
      { rewrite Hlen. apply Hrange. rewrite <- (Hshuffle (n0 + k) index).
        by eapply list_elem_of_lookup_2. }
      apply lookup_lt_is_Some_2 in Hp as [r Hr]. rewrite Hr. simpl.
      by rewrite cell_insert_eq.
    + destruct (Hdone j st' sem' g' index') as (adfj & cj & dj & ? & ? & ? & Hcells);
        [lia|done|].
      exists adfj, cj, dj. split; [done|]. split; [done|]. split; [done|].
      intros i p Hi. rewrite Hother; [by apply Hcells|].
      rewrite firstn_all2 by (by rewrite (Permutation_length (Hshuffle _ _))).
      rewrite (Hshuffle (n0 + k) index).
      assert (p ∈ index') as Hp.
      { rewrite <- (Hshuffle (n0 + j) index'). by eapply list_elem_of_lookup_2. }
      intros Hp'. eapply (Hdisj j k); [exact Hne|exact Hj'|exact Hk|exact Hp|exact Hp'].
  - exists adf', c'. split; [done|].
    intros j st sem g index Hj. eapply Hall; [|exact Hj]. by eapply lookup_lt_Some.
Qed.

End visited.

Section assign_houses_visits.
Context (shuffle : nat → list nat → list nat).
Hypothesis Hshuffle : ∀ n l, shuffle n l ≡ₚ l.

(** C4.  A call of [assign_houses] that returns has run its loop over
    the groups of the table, from the store [assign_start], to the store
    it returns.  For every group, at the turn of the group, that is in
    the store [sj] the loop has reached after the groups before it:
    - the order in which the houses are visited is [house_order d] for
      the counters [d] that [sj] holds for the gender of the group: the
      four labels sorted by these counters, ties in the order of the
      palette ([visits_before]);
    - the [i]-th shuffled row of the group holds, in the returned table,
      the house at place [i mod 4] of that order ([dealt]);
    - the turn of the group returns, and has added to the counters of
      the gender, house by house, the number of rows dealt to the house,
      and changed no counter of another gender;
    - each single assignment sets the House cell of its row and adds one
      to the counter of that gender and house, and to no other counter. *)
Theorem assign_houses_visits s df ghc d0 c0 l s' :
  frames s !! df = Some d0 →
  dicts s !! ghc = Some c0 →
  assign_houses shuffle df ghc s = (Ret l, s') →
  ∃ groups adf,
    groupby d0 "Stream" "Semester" "Gender" = Ret groups ∧
    frames s' !! l = Some adf ∧
    for_each groups (assign_group shuffle l ghc) (assign_start s d0) = (Ret (), s') ∧
    ∀ j st sem g index, groups !! j = Some ((st, sem, g), index) →
      ∃ sj c d,
        for_each (take j groups) (assign_group shuffle l ghc) (assign_start s d0)
        = (Ret (), sj) ∧
        dicts sj !! ghc = Some c ∧ c !! g = Some d ∧
        let students := shuffle (rng_calls sj) index in
        let order := house_order d in
        let house_cycle := list_repeat order (length students / 4 + 1) in
        (order ≡ₚ keys HOUSE_COLORS ∧ StronglySorted (visits_before d) order) ∧
        (∀ i p, students !! i = Some p →
           (λ r, cell r "House") <$> rows adf !! p = Some (VStr (dealt order i))) ∧
        (∃ sj' c',
           assign_group shuffle l ghc ((st, sem, g), index) sj = (Ret (), sj') ∧
           for_each (take (S j) groups) (assign_group shuffle l ghc) (assign_start s d0)
           = (Ret (), sj') ∧
           dicts sj' !! ghc = Some c' ∧
           (∀ h, counter_value c' g h
                 = counter_value c g h + dealt_count order h (length students)) ∧
           (∀ g' h, g' ≠ g → counter_value c' g' h = counter_value c g' h)) ∧
        (∀ i p s1 adf1 c1,
           students !! i = Some p →
           frames s1 !! l = Some adf1 → dicts s1 !! ghc = Some c1 →
           is_Some (c1 !! g) → p < length (rows adf1) →
           ∃ s2 adf2 c2,
             assign_student l ghc g house_cycle (i, p) s1 = (Ret (), s2) ∧
             frames s2 !! l = Some adf2 ∧ dicts s2 !! ghc = Some c2 ∧
             (λ r, cell r "House") <$> rows adf2 !! p = Some (VStr (dealt order i)) ∧
             counter_value c2 g (dealt order i) = counter_value c1 g (dealt order i) + 1 ∧
             (∀ g' h, (g', h) ≠ (g, dealt order i) →
                counter_value c2 g' h = counter_value c1 g' h)).
Proof.
  intros Hdf Hghc.
  pose proof (assign_houses_run shuffle s df ghc d0 c0 Hdf Hghc) as Hrun.
  cbv zeta in Hrun. rewrite Hrun. clear Hrun.
  destruct (groupby d0 "Stream" "Semester" "Gender") as [groups|e] eqn:Hgb; [|done].
  destruct (for_each _ _ _) as [[[]|e] s1] eqn:Hloop; [|done].
  intros [= <- <-].
  change (mkState (frames s ++ [setitem d0 "House" VNone]) (dicts s) (rng_calls s)
            (screen s)) with (assign_start s d0) in Hloop.
  set (la := length (frames s)) in *.
  assert (la < length (frames (assign_start s d0))) as Hla.
  { unfold assign_start, la. cbn [frames]. rewrite length_app. simpl. lia. }
  assert (ghc < length (dicts (assign_start s d0))) as Hghc'
    by (by eapply lookup_lt_Some).
  assert (with_objs (assign_start s d0) la (setitem d0 "House" VNone) ghc c0 (rng_calls s)
          = assign_start s d0) as Hstart.
  { apply (with_objs_id (assign_start s d0)); unfold assign_start; cbn [frames dicts];
      [|done]. unfold la. by rewrite lookup_app_r, Nat.sub_diag by lia. }
  pose proof (groupby_well_grouped _ _ _ _ _ Hgb) as [Hwf _].
  destruct (for_each_assign_group_visited shuffle Hshuffle (assign_start s d0) la ghc
              Hla Hghc' d0 c0 (rng_calls s) groups Hgb s1 Hloop)
    as (adf' & c' & -> & Hall).
  exists groups, adf'. split; [done|]. split.
  { unfold with_objs. cbn [frames]. by apply list_lookup_insert_eq. }
  split; [by rewrite Hstart in Hloop|].
  intros j st sem g index Hj.
  destruct (Hall j st sem g index Hj) as (adf & c & d & Hpre & Hlen & Hg & Hcells).
  destruct (Hwf _ _ _ Hj) as [Hnd Hrange].
  set (sj := with_objs (assign_start s d0) la adf ghc c (rng_calls s + j)) in *.
  assert (frames sj !! la = Some adf) as Hfj
    by (unfold sj, with_objs; cbn [frames]; by apply list_lookup_insert_eq).
  assert (dicts sj !! ghc = Some c) as Hdj
    by (unfold sj, with_objs; cbn [dicts]; by apply list_lookup_insert_eq).
  destruct (assign_group_visits shuffle Hshuffle sj la ghc adf c st sem g index d
              Hfj Hdj Hg Hnd) as (Horder & (sj' & adfj' & cj' & Hturn & _ & Hdj' & _ & Hcnt & Hoth) & Hone).
  { intros p Hp. rewrite Hlen. by apply Hrange. }
  rewrite Hstart in Hpre.
  exists sj, c, d. split; [done|]. split; [done|]. split; [done|].
  cbv zeta. split; [done|]. split; [exact Hcells|]. split; [|exact Hone].
  exists sj', cj'. split; [done|]. split; [|done].
  unfold key in *. rewrite (take_S_r _ _ _ Hj). by eapply for_each_snoc.
Qed.

End assign_houses_visits.

(** The folder of the two workbooks: the first group gives House A to its
    student, so at the turn of the second group the counter of House A is
    one, the order starts at House B, and its student gets House B. *)
Lemma assign_houses_visits_witness :
  (∃ groups adf,
    groupby twin "Stream" "Semester" "Gender" = Ret groups ∧
    frames twin_assigned_store !! 1 = Some adf ∧
    for_each groups (assign_group reversing 1 0) (assign_start twin_store twin)
    = (Ret (), twin_assigned_store) ∧
    ∀ j st sem g index, groups !! j = Some ((st, sem, g), index) →
      ∃ sj c d,
        for_each (take j groups) (assign_group reversing 1 0) (assign_start twin_store twin)
        = (Ret (), sj) ∧
        dicts sj !! 0 = Some c ∧ c !! g = Some d ∧
        let students := reversing (rng_calls sj) index in
        let order := house_order d in
        let house_cycle := list_repeat order (length students / 4 + 1) in
        (order ≡ₚ keys HOUSE_COLORS ∧ StronglySorted (visits_before d) order) ∧
        (∀ i p, students !! i = Some p →
           (λ r, cell r "House") <$> rows adf !! p = Some (VStr (dealt order i))) ∧
        (∃ sj' c',
           assign_group reversing 1 0 ((st, sem, g), index) sj = (Ret (), sj') ∧
           for_each (take (S j) groups) (assign_group reversing 1 0)
             (assign_start twin_store twin)
           = (Ret (), sj') ∧
           dicts sj' !! 0 = Some c' ∧
           (∀ h, counter_value c' g h
                 = counter_value c g h + dealt_count order h (length students)) ∧
           (∀ g' h, g' ≠ g → counter_value c' g' h = counter_value c g' h)) ∧
        (∀ i p s1 adf1 c1,
           students !! i = Some p →
           frames s1 !! 1 = Some adf1 → dicts s1 !! 0 = Some c1 →
           is_Some (c1 !! g) → p < length (rows adf1) →
           ∃ s2 adf2 c2,
             assign_student 1 0 g house_cycle (i, p) s1 = (Ret (), s2) ∧
             frames s2 !! 1 = Some adf2 ∧ dicts s2 !! 0 = Some c2 ∧
             (λ r, cell r "House") <$> rows adf2 !! p = Some (VStr (dealt order i)) ∧
             counter_value c2 g (dealt order i) = counter_value c1 g (dealt order i) + 1 ∧
             (∀ g' h, (g', h) ≠ (g, dealt order i) →
                counter_value c2 g' h = counter_value c1 g' h))) ∧
  house_order ∅ = ["House A"; "House B"; "House C"; "House D"] ∧
  house_order {[ "House A" := 1 ]} = ["House B"; "House C"; "House D"; "House A"] ∧
  map (λ r, (cell r "Stream", cell r "House")) (rows twin_assigned)
  = [(VStr "M.Tech Artificial Intelligence (Cyber)", VStr "House A");
     (VStr "M.Tech Artificial Intelligence (Data)", VStr "House B")].
Proof.
  split; [|split; [|split]].
  - apply (assign_houses_visits reversing reversing_Permutation
             twin_store 0 0 twin fresh_counts 1 twin_assigned_store).
    + reflexivity.
    + reflexivity.
    + vm_compute. reflexivity.
  - vm_compute. reflexivity.
  - vm_compute. reflexivity.
  - vm_compute. reflexivity.
Defined.
